(** * FluentAI realtime session pipeline: a shallow embedding and its properties

  The development follows the TypeScript sources:
  - [src/hooks/useLiveAvatar.ts]     the realtime session bridge (hook)
  - [src/components/Login.tsx]       the [Session] component (turn assembly,
                                     credit timer, periodic credit sync)
  - [src/services/gemini.ts]         [evaluateSession]
  - [src/components/Login.tsx]       the [Login] component (sign-in and
                                     registration handlers)
  - [src/unnamed/part_001]           services/supabase and types: session
                                     rows, user name lookup, [RANKS]
  - [src/unnamed/part_000]           services/asaas: [checkPaymentStatus]
  - [src/components/Dashboard.tsx]   rank progress

  Conventions.
  - JavaScript numbers that the code only adds, compares or rounds are exact
    rationals ([Q]) or integers ([Z]); binary floating point rounding is
    not modelled.
  - Playback time is counted in frames of the 24 kHz output context, the
    unit in which both [AudioContext.currentTime] and
    [AudioBuffer.duration] advance.
  - A JavaScript string is a [string]; one character stands for one UTF-16
    code unit.
  - React state read inside a callback is the value captured by the render
    that created the callback; state setters and refs act on the live
    store. *)

From Stdlib Require Import ZArith QArith Qround String Ascii List Bool Lia.
Import ListNotations.

(* ================================================================== *)
(** * Part I: the embedding *)
(* ================================================================== *)

(** ** The microphone resampler ([onaudioprocess], useLiveAvatar.ts) *)

Module Resampler.

Definition targetSampleRate : Z := 16000.

(** [inputAudioContextRef.current?.sampleRate || 16000]; the sample rate of
    a live context is a positive number. *)
Definition currentSampleRate (ctx : option positive) : Z :=
  match ctx with
  | Some r => Z.pos r
  | None => 16000
  end.

(** [currentSampleRate / targetSampleRate] *)
Definition ratio (rate : Z) : Q := inject_Z rate / inject_Z targetSampleRate.

(** [Math.floor(inputData.length / ratio)] *)
Definition newLength (len : nat) (rate : Z) : Z :=
  Qfloor (inject_Z (Z.of_nat len) / ratio rate).

(** [Math.floor(i * ratio)] *)
Definition sourceIndex (i : nat) (rate : Z) : Z :=
  Qfloor (inject_Z (Z.of_nat i) * ratio rate).

Section Samples.
Variable sample : Type.
(** What a [Float32Array] cell holds after [undefined] is stored. *)
Variable NaN : sample.

(** [inputData[k]] *)
Definition readSample (inputData : list sample) (k : Z) : sample :=
    if (k <? 0)%Z then NaN else nth (Z.to_nat k) inputData NaN.

Definition resample (ctx : option positive) (inputData : list sample)
    : list sample :=
    let rate := currentSampleRate ctx in
    if (rate =? targetSampleRate)%Z then inputData
    else
      map (fun i => readSample inputData (sourceIndex i rate))
          (seq 0 (Z.to_nat (newLength (length inputData) rate))).
End Samples.

Arguments readSample {sample} NaN inputData k.
Arguments resample {sample} NaN ctx inputData.

End Resampler.

(** ** JavaScript values: truthiness, [||], [trim], [Math.round] *)

Module JS.

Open Scope string_scope.

(** [x || d] on an optional number: [undefined], [null] and [0] are falsy. *)
Definition orNum (x : option Z) (d : Z) : Z :=
  match x with
  | Some v => if (v =? 0)%Z then d else v
  | None => d
  end.

(** [x || d] on an optional string: the empty string is falsy. *)
Definition orStr (x : option string) (d : string) : string :=
  match x with
  | Some "" => d
  | Some v => v
  | None => d
  end.

(** Truthiness of an optional string ([if (msg?.text)]). *)
Definition truthyStr (x : option string) : option string :=
  match x with
  | Some "" => None
  | other => other
  end.

(** Code units that [String.prototype.trim] strips (those below 256):
    TAB, LF, VT, FF, CR, SPACE, NBSP. *)
Definition isWhiteSpace (c : ascii) : bool :=
  let n := nat_of_ascii c in
  ((9 <=? n) && (n <=? 13) || (n =? 32) || (n =? 160))%nat.

Fixpoint trimStart (s : string) : string :=
  match s with
  | String c rest => if isWhiteSpace c then trimStart rest else s
  | EmptyString => EmptyString
  end.

Fixpoint trimEnd (s : string) : string :=
  match s with
  | String c rest =>
      match trimEnd rest with
      | EmptyString => if isWhiteSpace c then EmptyString else String c EmptyString
      | kept => String c kept
      end
  | EmptyString => EmptyString
  end.

Definition trim (s : string) : string := trimEnd (trimStart s).

(** [Math.round]: nearest integer, halves towards plus infinity. *)
Definition Math_round (x : Q) : Z := Qfloor (x + (1 # 2)).

End JS.

(** ** [evaluateSession] (services/gemini.ts) *)

Module Gemini.

Import JS.
Open Scope string_scope.

(** [Omit<SessionResult, 'durationSeconds' | 'date' | 'avatarName'>] *)
Record SessionResult := {
  overallScore : Z;
  vocabularyScore : Z;
  grammarScore : Z;
  pronunciationScore : Z;
  feedback : string;
  fluencyRating : string;
  transcript : string
}.

(** The object [JSON.parse(response.text || "{}")] yields: every property may
    be absent; the response schema makes the scores integers. *)
Record ApiJson := {
  j_overallScore : option Z;
  j_vocabularyScore : option Z;
  j_grammarScore : option Z;
  j_pronunciationScore : option Z;
  j_fluencyRating : option string;
  j_feedback : option string
}.

(** What the [try] block around [generateContent] and [JSON.parse] sees. *)
Inductive ApiOutcome :=
| ApiThrows
| ApiReturns (result : ApiJson).

Definition feedbackTooShort : string :=
  "A sessão foi muito curta para avaliar corretamente. Continue praticando!".

Definition feedbackDefault : string := "Bom esforço!".

Definition feedbackConnection : string :=
  "Não foi possível gerar um relatório detalhado devido a um problema de conexão, mas bom trabalho na prática!".

(** [(vocab * 0.3) + (grammar * 0.3) + (pronunciation * 0.4)] *)
Definition weighted (vocab grammar pronunciation : Z) : Q :=
  inject_Z vocab * (3 # 10) + inject_Z grammar * (3 # 10)
  + inject_Z pronunciation * (4 # 10).

Section Collaborator.

(** [ai.models.generateContent] followed by [JSON.parse], as a function of the
    transcript spliced into the prompt. *)
Variable generateContent : string -> ApiOutcome.

(** The result together with the transcripts sent to the collaborator. *)
Definition evaluateSession (t : string) : SessionResult * list string :=
  if (t =? "") || (String.length (trim t) <? 10)%nat then
    ({| overallScore := 10;
        vocabularyScore := 10;
        grammarScore := 10;
        pronunciationScore := 10;
        feedback := feedbackTooShort;
        fluencyRating := "Beginner";
        transcript := t |}, [])
  else
    match generateContent t with
    | ApiReturns result =>
        let vocab := orNum (j_vocabularyScore result) 0 in
        let grammar := orNum (j_grammarScore result) 0 in
        let pronunciation := orNum (j_pronunciationScore result) 0 in
        let calculatedOverall :=
          orNum (j_overallScore result)
                (Math_round (weighted vocab grammar pronunciation)) in
        ({| overallScore := calculatedOverall;
            vocabularyScore := vocab;
            grammarScore := grammar;
            pronunciationScore := pronunciation;
            feedback := orStr (j_feedback result) feedbackDefault;
            fluencyRating := orStr (j_fluencyRating result) "Beginner";
            transcript := t |}, [t])
    | ApiThrows =>
        ({| overallScore := 50;
            vocabularyScore := 50;
            grammarScore := 50;
            pronunciationScore := 50;
            feedback := feedbackConnection;
            fluencyRating := "Beginner";
            transcript := t |}, [t])
    end.

End Collaborator.

End Gemini.

(** ** The realtime session bridge ([useLiveAvatar], hooks/useLiveAvatar.ts) *)

Module Bridge.

Open Scope string_scope.
Open Scope Z_scope.

Inductive AudioCtx := InputContext | OutputContext.

(** Calls made on browser objects and on the remote session, in program
    order. *)
Inductive Effect :=
| SessionClose
| ConsoleError
| SourceStart (node : nat) (when : Z)
| SourceStop (node : nat)
| ContextClose (c : AudioCtx)
| TrackStop (track : nat).

(** An [AudioBufferSourceNode] that has been started: its identity, the time
    passed to [start] and the duration of its buffer. *)
Record Source := { node : nat; startAt : Z; duration : Z }.

(** How [await sessionPromiseRef.current] settles, and whether
    [session.close()] then throws. *)
Inductive SessionPromise :=
| Fulfilled (closeThrows : bool)
| Rejected.

(** The refs and state cells of the hook. [sourcesRef] is a [Set] of distinct
    nodes, kept in insertion order; [nextNode] names the next node
    [createBufferSource] returns. *)
Record State := {
  sessionPromiseRef : option SessionPromise;
  inputAudioContextRef : option positive;
  outputAudioContextRef : bool;
  analyserRef : bool;
  streamRef : option (list nat);
  nextStartTimeRef : Z;
  sourcesRef : list Source;
  isConnected : bool;
  isTalking : bool;
  error : option string;
  nextNode : nat;
  trace : list Effect
}.

(** The hook as first rendered. *)
Definition initial : State :=
  {| sessionPromiseRef := None;
     inputAudioContextRef := None;
     outputAudioContextRef := false;
     analyserRef := false;
     streamRef := None;
     nextStartTimeRef := 0;
     sourcesRef := [];
     isConnected := false;
     isTalking := false;
     error := None;
     nextNode := 0%nat;
     trace := [] |}.

Definition set_sessionPromiseRef (v : option SessionPromise) (s : State) : State :=
  Build_State v (s.(inputAudioContextRef)) (s.(outputAudioContextRef))
    (s.(analyserRef)) (s.(streamRef)) (s.(nextStartTimeRef))
    (s.(sourcesRef)) (s.(isConnected)) (s.(isTalking)) (s.(error))
    (s.(nextNode)) (s.(trace)).

Definition set_inputAudioContextRef (v : option positive) (s : State) : State :=
  Build_State (s.(sessionPromiseRef)) v (s.(outputAudioContextRef))
    (s.(analyserRef)) (s.(streamRef)) (s.(nextStartTimeRef))
    (s.(sourcesRef)) (s.(isConnected)) (s.(isTalking)) (s.(error))
    (s.(nextNode)) (s.(trace)).

Definition set_outputAudioContextRef (v : bool) (s : State) : State :=
  Build_State (s.(sessionPromiseRef)) (s.(inputAudioContextRef)) v
    (s.(analyserRef)) (s.(streamRef)) (s.(nextStartTimeRef))
    (s.(sourcesRef)) (s.(isConnected)) (s.(isTalking)) (s.(error))
    (s.(nextNode)) (s.(trace)).

Definition set_analyserRef (v : bool) (s : State) : State :=
  Build_State (s.(sessionPromiseRef)) (s.(inputAudioContextRef))
    (s.(outputAudioContextRef)) v (s.(streamRef)) (s.(nextStartTimeRef))
    (s.(sourcesRef)) (s.(isConnected)) (s.(isTalking)) (s.(error))
    (s.(nextNode)) (s.(trace)).

Definition set_streamRef (v : option (list nat)) (s : State) : State :=
  Build_State (s.(sessionPromiseRef)) (s.(inputAudioContextRef))
    (s.(outputAudioContextRef)) (s.(analyserRef)) v (s.(nextStartTimeRef))
    (s.(sourcesRef)) (s.(isConnected)) (s.(isTalking)) (s.(error))
    (s.(nextNode)) (s.(trace)).

Definition set_nextStartTimeRef (v : Z) (s : State) : State :=
  Build_State (s.(sessionPromiseRef)) (s.(inputAudioContextRef))
    (s.(outputAudioContextRef)) (s.(analyserRef)) (s.(streamRef)) v
    (s.(sourcesRef)) (s.(isConnected)) (s.(isTalking)) (s.(error))
    (s.(nextNode)) (s.(trace)).

Definition set_sourcesRef (v : list Source) (s : State) : State :=
  Build_State (s.(sessionPromiseRef)) (s.(inputAudioContextRef))
    (s.(outputAudioContextRef)) (s.(analyserRef)) (s.(streamRef))
    (s.(nextStartTimeRef)) v (s.(isConnected)) (s.(isTalking)) (s.(error))
    (s.(nextNode)) (s.(trace)).

Definition set_isConnected (v : bool) (s : State) : State :=
  Build_State (s.(sessionPromiseRef)) (s.(inputAudioContextRef))
    (s.(outputAudioContextRef)) (s.(analyserRef)) (s.(streamRef))
    (s.(nextStartTimeRef)) (s.(sourcesRef)) v (s.(isTalking)) (s.(error))
    (s.(nextNode)) (s.(trace)).

Definition set_isTalking (v : bool) (s : State) : State :=
  Build_State (s.(sessionPromiseRef)) (s.(inputAudioContextRef))
    (s.(outputAudioContextRef)) (s.(analyserRef)) (s.(streamRef))
    (s.(nextStartTimeRef)) (s.(sourcesRef)) (s.(isConnected)) v (s.(error))
    (s.(nextNode)) (s.(trace)).

Definition set_error (v : option string) (s : State) : State :=
  Build_State (s.(sessionPromiseRef)) (s.(inputAudioContextRef))
    (s.(outputAudioContextRef)) (s.(analyserRef)) (s.(streamRef))
    (s.(nextStartTimeRef)) (s.(sourcesRef)) (s.(isConnected))
    (s.(isTalking)) v (s.(nextNode)) (s.(trace)).

Definition set_nextNode (v : nat) (s : State) : State :=
  Build_State (s.(sessionPromiseRef)) (s.(inputAudioContextRef))
    (s.(outputAudioContextRef)) (s.(analyserRef)) (s.(streamRef))
    (s.(nextStartTimeRef)) (s.(sourcesRef)) (s.(isConnected))
    (s.(isTalking)) (s.(error)) v (s.(trace)).

Definition set_trace (v : list Effect) (s : State) : State :=
  Build_State (s.(sessionPromiseRef)) (s.(inputAudioContextRef))
    (s.(outputAudioContextRef)) (s.(analyserRef)) (s.(streamRef))
    (s.(nextStartTimeRef)) (s.(sourcesRef)) (s.(isConnected))
    (s.(isTalking)) (s.(error)) (s.(nextNode)) v.

(** *** Commands: state passing with exceptions *)

Inductive Completion (A : Type) :=
| Normal (a : A)
| Thrown (message : string).

Arguments Normal {A} a.
Arguments Thrown {A} message.

Definition Cmd (A : Type) : Type := State -> Completion A * State.

Definition ret {A} (a : A) : Cmd A := fun s => (Normal a, s).

Definition bind {A B} (c : Cmd A) (k : A -> Cmd B) : Cmd B :=
  fun s =>
    match c s with
    | (Normal a, s') => k a s'
    | (Thrown e, s') => (Thrown e, s')
    end.

Definition throw {A} (message : string) : Cmd A := fun s => (Thrown message, s).

(** [try { body } catch (e) { handler e }] *)
Definition tryCatch (body : Cmd unit) (handler : string -> Cmd unit) : Cmd unit :=
  fun s =>
    match body s with
    | (Normal a, s') => (Normal a, s')
    | (Thrown e, s') => handler e s'
    end.

Definition modify (f : State -> State) : Cmd unit := fun s => (Normal tt, f s).

Definition emit (e : Effect) : Cmd unit :=
  modify (fun s => set_trace (s.(trace) ++ [e]) s).

Definition when (b : bool) (c : Cmd unit) : Cmd unit := if b then c else ret tt.

(** [xs.forEach(x => body x)] *)
Fixpoint forEach {A} (xs : list A) (body : A -> Cmd unit) : Cmd unit :=
  match xs with
  | [] => ret tt
  | x :: rest => bind (body x) (fun _ => forEach rest body)
  end.

Declare Scope cmd_scope.
Delimit Scope cmd_scope with cmd.
Notation "c1 ;; c2" := (bind c1 (fun _ => c2))
  (at level 61, right associativity) : cmd_scope.
Open Scope cmd_scope.

(** *** [disconnect] *)

(** [const session = await sessionPromiseRef.current; session.close();] *)
Definition awaitAndClose (p : SessionPromise) : Cmd unit :=
  match p with
  | Fulfilled closeThrows =>
      emit SessionClose ;; when closeThrows (throw "close failed")
  | Rejected => throw "connection failed"
  end.

Definition disconnect : Cmd unit :=
  (fun s =>
     match s.(sessionPromiseRef) with
     | Some p =>
         (tryCatch (awaitAndClose p) (fun _ => emit ConsoleError) ;;
          modify (set_sessionPromiseRef None)) s
     | None => ret tt s
     end) ;;
  (fun s =>
     forEach s.(sourcesRef)
       (fun source =>
          tryCatch (emit (SourceStop source.(node))) (fun _ => ret tt)) s) ;;
  modify (set_sourcesRef []) ;;
  (fun s =>
     match s.(inputAudioContextRef) with
     | Some _ =>
         (emit (ContextClose InputContext) ;;
          modify (set_inputAudioContextRef None)) s
     | None => ret tt s
     end) ;;
  (fun s =>
     when s.(outputAudioContextRef)
       (emit (ContextClose OutputContext) ;;
        modify (set_outputAudioContextRef false)) s) ;;
  (fun s =>
     match s.(streamRef) with
     | Some tracks =>
         (forEach tracks (fun track => emit (TrackStop track)) ;;
          modify (set_streamRef None)) s
     | None => ret tt s
     end) ;;
  modify (set_isConnected false) ;;
  modify (set_isTalking false).

(** *** [connect] and the connection callbacks *)

(** What the browser and the remote endpoint answer during [connect]. *)
Record ConnectEnv := {
  deviceRate : positive;
  micTracks : option (list nat);
  apiKey : bool;
  handshake : SessionPromise
}.

Definition connect (env : ConnectEnv) : Cmd unit :=
  tryCatch
    (modify (set_error None) ;;
     modify (set_inputAudioContextRef (Some env.(deviceRate))) ;;
     modify (set_outputAudioContextRef true) ;;
     modify (set_analyserRef true) ;;
     match env.(micTracks) with
     | Some tracks => modify (set_streamRef (Some tracks))
     | None => emit ConsoleError ;; throw "Microphone access required"
     end ;;
     when (negb env.(apiKey))
          (throw "API Key is missing in environment variables") ;;
     modify (set_sessionPromiseRef (Some env.(handshake))))
    (fun message =>
       emit ConsoleError ;;
       modify (set_error
                 (Some (JS.orStr (Some message)
                          "Failed to access microphone or connect to service."))) ;;
       disconnect).

Definition onopen : Cmd unit := modify (set_isConnected true).

Definition onclose : Cmd unit :=
  modify (set_isConnected false) ;; modify (set_isTalking false).

Definition onerror (msg : string) : Cmd unit :=
  emit ConsoleError ;; modify (set_error (Some msg)) ;; disconnect.

(** *** [onmessage] *)

(** The part of a [LiveServerMessage] the handler reads. *)
Record ServerMessage := {
  outputTranscription : option string;
  inputTranscription : option string;
  inlineData : option string;
  interrupted : bool
}.

(** A call [onTranscriptUpdate(text, isUser)]. *)
Definition Delta : Type := (string * bool)%type.

Definition transcriptDeltas (m : ServerMessage) : list Delta :=
  match JS.truthyStr m.(outputTranscription) with
  | Some text => [(text, false)]
  | None => []
  end ++
  match JS.truthyStr m.(inputTranscription) with
  | Some text => [(text, true)]
  | None => []
  end.

Section Decode.

(** [decodeAudioData(decode(base64Audio), ctx, 24000, 1)] from utils/audio:
    the duration of the decoded buffer in frames, [None] when it throws. *)
Variable decodeAudioData : string -> option Z.

(** The [ended] listener of a source. *)
Definition onended (n : nat) : Cmd unit :=
  modify (fun s =>
            set_sourcesRef
              (filter (fun x => negb (x.(node) =? n)%nat) s.(sourcesRef)) s) ;;
  (fun s =>
     when (length s.(sourcesRef) =? 0)%nat (modify (set_isTalking false)) s).

Definition handleAudio (currentTime : Z) (base64Audio : string) : Cmd unit :=
  modify (set_isTalking true) ;;
  modify (fun s =>
            set_nextStartTimeRef (Z.max s.(nextStartTimeRef) currentTime) s) ;;
  tryCatch
    (match decodeAudioData base64Audio with
     | Some d =>
         (fun s =>
            let source :=
              {| node := s.(nextNode);
                 startAt := s.(nextStartTimeRef);
                 duration := d |} in
            (modify (set_nextNode (S s.(nextNode))) ;;
             emit (SourceStart source.(node) source.(startAt)) ;;
             modify (fun s' =>
                       set_nextStartTimeRef (s'.(nextStartTimeRef) + d) s') ;;
             modify (fun s' =>
                       set_sourcesRef (s'.(sourcesRef) ++ [source]) s')) s)
     | None => throw "decode failed"
     end)
    (fun _ => emit ConsoleError).

Definition handleInterruption : Cmd unit :=
  (fun s =>
     forEach s.(sourcesRef) (fun source => emit (SourceStop source.(node))) s) ;;
  modify (set_sourcesRef []) ;;
  modify (set_nextStartTimeRef 0) ;;
  modify (set_isTalking false).

(** The handler proper; the transcript calls it makes are
    [transcriptDeltas message], which touch no state of the hook. *)
Definition onmessage (currentTime : Z) (message : ServerMessage) : Cmd unit :=
  (fun s =>
     match JS.truthyStr message.(inlineData) with
     | Some base64Audio =>
         when (s.(outputAudioContextRef) && s.(analyserRef))
              (handleAudio currentTime base64Audio) s
     | None => ret tt s
     end) ;;
  when message.(interrupted) handleInterruption.

(** [onaudioprocess]: the samples handed to [createBlob] for one captured
    block. *)
Definition onaudioprocess {sample : Type} (NaN : sample)
  (inputData : list sample) (s : State) : list sample :=
  Resampler.resample NaN s.(inputAudioContextRef) inputData.

(** What reaches the hook once the session is open. *)
Inductive Event :=
| Message (currentTime : Z) (message : ServerMessage)
| Ended (n : nat).

Definition handle (e : Event) : Cmd unit :=
  match e with
  | Message currentTime message => onmessage currentTime message
  | Ended n => onended n
  end.

Definition run (es : list Event) : Cmd unit := forEach es handle.

End Decode.

(** The final state of a command. *)
Definition exec {A} (c : Cmd A) (s : State) : State := snd (c s).

End Bridge.

(** ** The [Session] component (components/Login.tsx, from line 361) *)

Module Session.

Open Scope string_scope.
Open Scope Z_scope.

Inductive Role := User | Model.

Definition Role_eqb (a b : Role) : bool :=
  match a, b with
  | User, User | Model, Model => true
  | _, _ => false
  end.

Record ChatMessage := { role : Role; text : string; timestamp : Z }.

(** The [useState] cells the session logic reads. A render hands every
    callback it creates the values the cells had at that render. *)
Record Cells := {
  messages : list ChatMessage;
  startTime : option Z;
  isFinishing : bool;
  hasStarted : bool;
  remainingCredits : Z;
  showCreditModal : bool;
  currentTurnText : string;
  currentTurnRole : option Role
}.

(** Calls on the props [onUpdateCredits], [onComplete] and [onCancel]. *)
Inductive ParentCall :=
| UpdateCredits (remainingSeconds : Z)
| Complete (result : Gemini.SessionResult) (durationSeconds : Q)
           (finalCredits : Z)
| Cancel.

(** Dependency arrays of the two timer effects. *)
Definition CreditDeps : Type := (bool * bool * bool * bool)%type.
Definition SyncDeps : Type := (Z * bool * bool)%type.

(** The component between two events: the live cells, the refs, the hook, the
    callbacks that outlive a render together with the cells of the render
    that created them, and the calls made on the parent so far. *)
Record World := {
  cells : Cells;
  fullTranscriptRef : string;
  lastSyncCreditsRef : Z;
  userStreamRef : option (list nat);
  hook : Bridge.State;
  sessionCallback : option Cells;
  creditTimer : option Cells;
  creditDeps : option CreditDeps;
  syncInterval : option Cells;
  syncDeps : option SyncDeps;
  userTrackStops : list nat;
  parentCalls : list ParentCall
}.

Definition set_messages (v : list ChatMessage) (c : Cells) : Cells :=
  Build_Cells v (c.(startTime)) (c.(isFinishing)) (c.(hasStarted))
    (c.(remainingCredits)) (c.(showCreditModal)) (c.(currentTurnText))
    (c.(currentTurnRole)).

Definition set_startTime (v : option Z) (c : Cells) : Cells :=
  Build_Cells (c.(messages)) v (c.(isFinishing)) (c.(hasStarted))
    (c.(remainingCredits)) (c.(showCreditModal)) (c.(currentTurnText))
    (c.(currentTurnRole)).

Definition set_isFinishing (v : bool) (c : Cells) : Cells :=
  Build_Cells (c.(messages)) (c.(startTime)) v (c.(hasStarted))
    (c.(remainingCredits)) (c.(showCreditModal)) (c.(currentTurnText))
    (c.(currentTurnRole)).

Definition set_hasStarted (v : bool) (c : Cells) : Cells :=
  Build_Cells (c.(messages)) (c.(startTime)) (c.(isFinishing)) v
    (c.(remainingCredits)) (c.(showCreditModal)) (c.(currentTurnText))
    (c.(currentTurnRole)).

Definition set_remainingCredits (v : Z) (c : Cells) : Cells :=
  Build_Cells (c.(messages)) (c.(startTime)) (c.(isFinishing))
    (c.(hasStarted)) v (c.(showCreditModal)) (c.(currentTurnText))
    (c.(currentTurnRole)).

Definition set_showCreditModal (v : bool) (c : Cells) : Cells :=
  Build_Cells (c.(messages)) (c.(startTime)) (c.(isFinishing))
    (c.(hasStarted)) (c.(remainingCredits)) v (c.(currentTurnText))
    (c.(currentTurnRole)).

Definition set_currentTurnText (v : string) (c : Cells) : Cells :=
  Build_Cells (c.(messages)) (c.(startTime)) (c.(isFinishing))
    (c.(hasStarted)) (c.(remainingCredits)) (c.(showCreditModal)) v
    (c.(currentTurnRole)).

Definition set_currentTurnRole (v : option Role) (c : Cells) : Cells :=
  Build_Cells (c.(messages)) (c.(startTime)) (c.(isFinishing))
    (c.(hasStarted)) (c.(remainingCredits)) (c.(showCreditModal))
    (c.(currentTurnText)) v.

Definition set_cells (v : Cells) (w : World) : World :=
  Build_World v (w.(fullTranscriptRef)) (w.(lastSyncCreditsRef))
    (w.(userStreamRef)) (w.(hook)) (w.(sessionCallback)) (w.(creditTimer))
    (w.(creditDeps)) (w.(syncInterval)) (w.(syncDeps)) (w.(userTrackStops))
    (w.(parentCalls)).

Definition set_fullTranscriptRef (v : string) (w : World) : World :=
  Build_World (w.(cells)) v (w.(lastSyncCreditsRef)) (w.(userStreamRef))
    (w.(hook)) (w.(sessionCallback)) (w.(creditTimer)) (w.(creditDeps))
    (w.(syncInterval)) (w.(syncDeps)) (w.(userTrackStops)) (w.(parentCalls)).

Definition set_lastSyncCreditsRef (v : Z) (w : World) : World :=
  Build_World (w.(cells)) (w.(fullTranscriptRef)) v (w.(userStreamRef))
    (w.(hook)) (w.(sessionCallback)) (w.(creditTimer)) (w.(creditDeps))
    (w.(syncInterval)) (w.(syncDeps)) (w.(userTrackStops)) (w.(parentCalls)).

Definition set_userStreamRef (v : option (list nat)) (w : World) : World :=
  Build_World (w.(cells)) (w.(fullTranscriptRef)) (w.(lastSyncCreditsRef)) v
    (w.(hook)) (w.(sessionCallback)) (w.(creditTimer)) (w.(creditDeps))
    (w.(syncInterval)) (w.(syncDeps)) (w.(userTrackStops)) (w.(parentCalls)).

Definition set_hook (v : Bridge.State) (w : World) : World :=
  Build_World (w.(cells)) (w.(fullTranscriptRef)) (w.(lastSyncCreditsRef))
    (w.(userStreamRef)) v (w.(sessionCallback)) (w.(creditTimer))
    (w.(creditDeps)) (w.(syncInterval)) (w.(syncDeps)) (w.(userTrackStops))
    (w.(parentCalls)).

Definition set_sessionCallback (v : option Cells) (w : World) : World :=
  Build_World (w.(cells)) (w.(fullTranscriptRef)) (w.(lastSyncCreditsRef))
    (w.(userStreamRef)) (w.(hook)) v (w.(creditTimer)) (w.(creditDeps))
    (w.(syncInterval)) (w.(syncDeps)) (w.(userTrackStops)) (w.(parentCalls)).

Definition set_creditTimer (v : option Cells) (w : World) : World :=
  Build_World (w.(cells)) (w.(fullTranscriptRef)) (w.(lastSyncCreditsRef))
    (w.(userStreamRef)) (w.(hook)) (w.(sessionCallback)) v (w.(creditDeps))
    (w.(syncInterval)) (w.(syncDeps)) (w.(userTrackStops)) (w.(parentCalls)).

Definition set_creditDeps (v : option CreditDeps) (w : World) : World :=
  Build_World (w.(cells)) (w.(fullTranscriptRef)) (w.(lastSyncCreditsRef))
    (w.(userStreamRef)) (w.(hook)) (w.(sessionCallback)) (w.(creditTimer)) v
    (w.(syncInterval)) (w.(syncDeps)) (w.(userTrackStops)) (w.(parentCalls)).

Definition set_syncInterval (v : option Cells) (w : World) : World :=
  Build_World (w.(cells)) (w.(fullTranscriptRef)) (w.(lastSyncCreditsRef))
    (w.(userStreamRef)) (w.(hook)) (w.(sessionCallback)) (w.(creditTimer))
    (w.(creditDeps)) v (w.(syncDeps)) (w.(userTrackStops)) (w.(parentCalls)).

Definition set_syncDeps (v : option SyncDeps) (w : World) : World :=
  Build_World (w.(cells)) (w.(fullTranscriptRef)) (w.(lastSyncCreditsRef))
    (w.(userStreamRef)) (w.(hook)) (w.(sessionCallback)) (w.(creditTimer))
    (w.(creditDeps)) (w.(syncInterval)) v (w.(userTrackStops))
    (w.(parentCalls)).

Definition set_userTrackStops (v : list nat) (w : World) : World :=
  Build_World (w.(cells)) (w.(fullTranscriptRef)) (w.(lastSyncCreditsRef))
    (w.(userStreamRef)) (w.(hook)) (w.(sessionCallback)) (w.(creditTimer))
    (w.(creditDeps)) (w.(syncInterval)) (w.(syncDeps)) v (w.(parentCalls)).

Definition set_parentCalls (v : list ParentCall) (w : World) : World :=
  Build_World (w.(cells)) (w.(fullTranscriptRef)) (w.(lastSyncCreditsRef))
    (w.(userStreamRef)) (w.(hook)) (w.(sessionCallback)) (w.(creditTimer))
    (w.(creditDeps)) (w.(syncInterval)) (w.(syncDeps)) (w.(userTrackStops))
    v.

(** A state setter acts on the live cells, whatever render the caller
    closes over. *)
Definition setState (f : Cells -> Cells) (w : World) : World :=
  set_cells (f w.(cells)) w.

Definition callParent (c : ParentCall) (w : World) : World :=
  set_parentCalls (w.(parentCalls) ++ [c]) w.

(** The component as mounted for a user holding [credits] seconds. *)
Definition mount (credits : Z) : World :=
  {| cells := {| messages := [];
                 startTime := None;
                 isFinishing := false;
                 hasStarted := false;
                 remainingCredits := credits;
                 showCreditModal := false;
                 currentTurnText := "";
                 currentTurnRole := None |};
     fullTranscriptRef := "";
     lastSyncCreditsRef := credits;
     userStreamRef := None;
     hook := Bridge.initial;
     sessionCallback := None;
     creditTimer := None;
     creditDeps := None;
     syncInterval := None;
     syncDeps := None;
     userTrackStops := [];
     parentCalls := [] |}.

(** [`${role === 'user' ? 'User' : 'Avatar'}: ${text}\n`] *)
Definition newline : string := String (ascii_of_nat 10) "".

Definition transcriptLine (r : Role) (t : string) : string :=
  (match r with User => "User" | Model => "Avatar" end) ++ ": " ++ t ++ newline.

(** *** [onTranscriptUpdate], as created by the render [seen] *)

Definition onTranscriptUpdate (seen : Cells) (dateNow : Z) (d : Bridge.Delta)
  (w : World) : World :=
  let '(t, isUser) := d in
  let r := if isUser then User else Model in
  let w :=
    match seen.(currentTurnRole) with
    | Some open =>
        if negb (Role_eqb open r) then
          let w :=
            setState (fun c =>
                        set_messages
                          (c.(messages) ++
                           [{| role := open;
                               text := seen.(currentTurnText);
                               timestamp := dateNow |}]) c) w in
          let w :=
            set_fullTranscriptRef
              (w.(fullTranscriptRef)
               ++ transcriptLine open seen.(currentTurnText)) w in
          setState (set_currentTurnText t) w
        else
          setState (fun c => set_currentTurnText (c.(currentTurnText) ++ t) c) w
    | None =>
        setState (fun c => set_currentTurnText (c.(currentTurnText) ++ t) c) w
    end in
  setState (set_currentTurnRole (Some r)) w.

Section Collaborators.

Variable decodeAudioData : string -> option Z.
Variable generateContent : string -> Gemini.ApiOutcome.

(** *** [handleFinish], as created by the render [seen] *)

Definition handleFinish (seen : Cells) (dateNow : Z) (forcedCredits : option Z)
  (w : World) : World :=
  if seen.(isFinishing) then w
  else
    let w := setState (set_isFinishing true) w in
    let finalCredits :=
      match forcedCredits with
      | Some c => c
      | None => seen.(remainingCredits)
      end in
    match Bridge.disconnect w.(hook) with
    | (Bridge.Thrown _, h) => set_hook h w
    | (Bridge.Normal _, h) =>
        let w := set_hook h w in
        let w :=
          match w.(userStreamRef) with
          | Some tracks => set_userTrackStops (w.(userTrackStops) ++ tracks) w
          | None => w
          end in
        let finalTranscript :=
          w.(fullTranscriptRef) ++
          match seen.(currentTurnRole), seen.(currentTurnText) with
          | Some _, "" => ""
          | Some r, t => transcriptLine r t
          | None, _ => ""
          end in
        let duration :=
          match seen.(startTime) with
          | Some t0 => if t0 =? 0 then 0%Q else (inject_Z (dateNow - t0) / 1000)%Q
          | None => 0%Q
          end in
        let result := fst (Gemini.evaluateSession generateContent finalTranscript) in
        callParent (Complete result duration finalCredits) w
    end.

Definition handleCancelWithSync (seen : Cells) (w : World) : World :=
  callParent Cancel (callParent (UpdateCredits seen.(remainingCredits)) w).

(** *** [handleStart], as created by the render [seen] *)

Record StartEnv := {
  userCredits : Z;
  clickedAt : Z;
  camera : option (list nat);
  connectEnv : Bridge.ConnectEnv
}.

(** [connect] hands the session the [onTranscriptUpdate] of the render that
    created it, which is the render that created this [handleStart]. *)
Definition handleStart (seen : Cells) (env : StartEnv) (w : World) : World :=
  if env.(userCredits) <=? 0 then setState (set_showCreditModal true) w
  else
    let w := setState (set_hasStarted true) w in
    let w := setState (set_startTime (Some env.(clickedAt))) w in
    match env.(camera) with
    | Some tracks =>
        let w := set_userStreamRef (Some tracks) w in
        let h := Bridge.exec (Bridge.connect env.(connectEnv)) w.(hook) in
        let w := set_hook h w in
        match h.(Bridge.sessionPromiseRef) with
        | Some _ => set_sessionCallback (Some seen) w
        | None => w
        end
    | None => setState (set_hasStarted false) w
    end.

(** *** Events of the open session *)

Definition onopen (w : World) : World :=
  set_hook (Bridge.exec Bridge.onopen w.(hook)) w.

(** An inbound message: the transcript calls go to the callback the session
    was given, the rest is the hook's own handler. *)
Definition deliver (dateNow currentTime : Z) (m : Bridge.ServerMessage)
  (w : World) : World :=
  match w.(sessionCallback) with
  | Some seen =>
      let w :=
        fold_left (fun w d => onTranscriptUpdate seen dateNow d w)
                  (Bridge.transcriptDeltas m) w in
      set_hook
        (Bridge.exec (Bridge.onmessage decodeAudioData currentTime m) w.(hook)) w
  | None => w
  end.

(** *** The credit deduction timer *)

(** The callback of the one-second interval; nothing fires when no interval
    is armed. *)
Definition creditTick (dateNow : Z) (w : World) : World :=
  match w.(creditTimer) with
  | Some seen =>
      let newVal := w.(cells).(remainingCredits) - 1 in
      if newVal <=? 0 then
        let w := set_creditTimer None w in
        let w := callParent (UpdateCredits 0) w in
        let w := handleFinish seen dateNow (Some 0) w in
        let w := setState (set_showCreditModal true) w in
        setState (set_remainingCredits 0) w
      else setState (set_remainingCredits newVal) w
  | None => w
  end.

(** *** The periodic sync *)

Definition syncFire (w : World) : World :=
  match w.(syncInterval) with
  | Some seen =>
      if 5 <=? Z.abs (w.(lastSyncCreditsRef) - seen.(remainingCredits)) then
        let w := callParent (UpdateCredits seen.(remainingCredits)) w in
        set_lastSyncCreditsRef seen.(remainingCredits) w
      else w
  | None => w
  end.

(** *** Rendering: the two timer effects *)

Definition creditDepsOf (w : World) : CreditDeps :=
  (w.(cells).(hasStarted), w.(hook).(Bridge.isConnected),
   w.(cells).(isFinishing), w.(cells).(showCreditModal)).

Definition syncDepsOf (w : World) : SyncDeps :=
  (w.(cells).(remainingCredits), w.(cells).(hasStarted),
   w.(cells).(isFinishing)).

Definition CreditDeps_eqb (a b : CreditDeps) : bool :=
  let '(a1, a2, a3, a4) := a in
  let '(b1, b2, b3, b4) := b in
  Bool.eqb a1 b1 && Bool.eqb a2 b2 && Bool.eqb a3 b3 && Bool.eqb a4 b4.

Definition SyncDeps_eqb (a b : SyncDeps) : bool :=
  let '(a1, a2, a3) := a in
  let '(b1, b2, b3) := b in
  (a1 =? b1) && Bool.eqb a2 b2 && Bool.eqb a3 b3.

(** The credit effect: when a dependency changed, the old interval is cleared
    and a new one is armed unless the guard returns early. *)
Definition commitCreditEffect (w : World) : World :=
  let deps := creditDepsOf w in
  let unchanged :=
    match w.(creditDeps) with
    | Some old => CreditDeps_eqb old deps
    | None => false
    end in
  if unchanged then w
  else
    let '(started, connected, finishing, modal) := deps in
    let w := set_creditDeps (Some deps) w in
    if negb started || negb connected || finishing || modal
    then set_creditTimer None w
    else set_creditTimer (Some w.(cells)) w.

(** The sync effect, likewise ([onUpdateCredits] is taken to be stable). *)
Definition commitSyncEffect (w : World) : World :=
  let deps := syncDepsOf w in
  let unchanged :=
    match w.(syncDeps) with
    | Some old => SyncDeps_eqb old deps
    | None => false
    end in
  if unchanged then w
  else
    let '(_, started, finishing) := deps in
    let w := set_syncDeps (Some deps) w in
    if negb started || finishing
    then set_syncInterval None w
    else set_syncInterval (Some w.(cells)) w.

(** A render commits both effects. *)
Definition commit (w : World) : World := commitSyncEffect (commitCreditEffect w).

(** *** Runs *)

Inductive Event :=
| StartClicked (env : StartEnv)
| Opened
| Inbound (dateNow currentTime : Z) (m : Bridge.ServerMessage)
| SourceEnded (n : nat)
| CreditTick (dateNow : Z)
| SyncFire
| FinishClicked (dateNow : Z).

Definition handle (e : Event) (w : World) : World :=
  match e with
  | StartClicked env => handleStart w.(cells) env w
  | Opened => onopen w
  | Inbound dateNow currentTime m => deliver dateNow currentTime m w
  | SourceEnded n =>
      set_hook (Bridge.exec (Bridge.onended n) w.(hook)) w
  | CreditTick dateNow => creditTick dateNow w
  | SyncFire => syncFire w
  | FinishClicked dateNow => handleFinish w.(cells) dateNow None w
  end.

(** Every event is followed by a render. *)
Definition step (w : World) (e : Event) : World := commit (handle e w).

Definition run (es : list Event) (w : World) : World := fold_left step es w.

End Collaborators.

End Session.

(** ** Strings: case conversion and search ([String.prototype]) *)

Module Str.

Open Scope string_scope.

(** [toLowerCase] on a code unit below 256: A-Z and the Latin-1 capitals
    (0xC0 to 0xDE, the multiplication sign 0xD7 apart) move up by 32. *)
Definition lowerCode (n : nat) : nat :=
  if ((65 <=? n) && (n <=? 90)
      || (192 <=? n) && (n <=? 222) && negb (n =? 215))%nat
  then n + 32
  else n.

Definition toLowerChar (c : ascii) : ascii :=
  ascii_of_nat (lowerCode (nat_of_ascii c)).

Fixpoint toLowerCase (s : string) : string :=
  match s with
  | String c rest => String (toLowerChar c) (toLowerCase rest)
  | EmptyString => EmptyString
  end.

(** The code units of a string. *)
Definition codes (s : string) : list N :=
  map N_of_ascii (list_ascii_of_string s).

(** [toUpperCase] on a code unit below 256, as code units: a-z and the
    Latin-1 small letters (0xE0 to 0xFE, the division sign 0xF7 apart) move
    down by 32; the sharp s becomes SS, the micro sign and y with diaeresis
    leave Latin-1. *)
Definition upperCodes (n : N) : list N :=
  (if (97 <=? n) && (n <=? 122) then [n - 32]
   else if n =? 181 then [924]
   else if n =? 223 then [83; 83]
   else if n =? 255 then [376]
   else if (224 <=? n) && (n <=? 254) && negb (n =? 247) then [n - 32]
   else [n])%N.

Definition toUpperCase (s : string) : list N :=
  flat_map upperCodes (codes s).

(** [s.includes(c)] for a needle of one code unit. *)
Fixpoint includes (c : ascii) (s : string) : bool :=
  match s with
  | String c' rest => Ascii.eqb c' c || includes c rest
  | EmptyString => false
  end.

End Str.

(** ** [services/supabase.ts] and [types.ts] *)

Module Supabase.

Open Scope string_scope.

Record User := {
  id : option string;
  username : string;
  email : option string;
  name : string;
  surname : string;
  rank : string;
  points : Z;
  sessionsCompleted : Z;
  joinedDate : string;
  credits : Z
}.

Record SessionResult := {
  overallScore : Z;
  vocabularyScore : Z;
  grammarScore : Z;
  pronunciationScore : Z;
  fluencyRating : string;
  feedback : string;
  durationSeconds : Q;
  transcript : string;
  date : string;
  avatarName : string
}.

(** A row of the [sessions] table. *)
Record SessionRow := {
  user_id : string;
  avatar_name : string;
  overall_score : Z;
  vocabulary_score : Z;
  grammar_score : Z;
  pronunciation_score : Z;
  fluency_rating : string;
  feedback_col : string;
  duration_seconds : Z;
  transcript_col : string;
  date_col : string
}.

(** *** [getEmailByUsername] *)

(** What [.select('email').eq('username', _).single()] answers. *)
Inductive EmailAnswer :=
| EmailError
| EmailData (email : option string).

Definition getEmailByUsername (profiles : string -> EmailAnswer)
  (username : string) : option string :=
  match profiles (Str.toLowerCase username) with
  | EmailError => None
  | EmailData email => JS.truthyStr email
  end.

(** *** [saveSession] *)

(** [supabase.auth.getSession()]: it may throw; otherwise the id of the
    signed-in user, if any. *)
Inductive GetSessionAnswer :=
| GetSessionThrows
| GetSessionData (userId : option string).

Inductive InsertAnswer :=
| InsertThrows
| InsertError
| InsertDone.

Definition payload (activeUserId now : string) (session : SessionResult)
  : SessionRow :=
  {| user_id := activeUserId;
     avatar_name := session.(avatarName);
     overall_score := session.(overallScore);
     vocabulary_score := session.(vocabularyScore);
     grammar_score := session.(grammarScore);
     pronunciation_score := session.(pronunciationScore);
     fluency_rating := session.(fluencyRating);
     feedback_col := session.(feedback);
     duration_seconds := Qfloor session.(durationSeconds);
     transcript_col := session.(transcript);
     date_col := JS.orStr (Some session.(date)) now |}.

(** The answer together with the rows handed to [insert]. *)
Definition saveSession (getSession : GetSessionAnswer)
  (insert : SessionRow -> InsertAnswer) (now : string) (userId : string)
  (session : SessionResult) : bool * list SessionRow :=
  match getSession with
  | GetSessionThrows => (false, [])
  | GetSessionData authUser =>
      let activeUserId := JS.orStr authUser userId in
      let row := payload activeUserId now session in
      match insert row with
      | InsertDone => (true, [row])
      | InsertError => (false, [row])
      | InsertThrows => (false, [row])
      end
  end.

(** *** [getUserHistory] *)

Inductive SelectAnswer :=
| SelectThrows
| SelectError
| SelectData (data : option (list SessionRow)).

Definition fromRow (s : SessionRow) : SessionResult :=
  {| avatarName := s.(avatar_name);
     overallScore := s.(overall_score);
     vocabularyScore := s.(vocabulary_score);
     grammarScore := s.(grammar_score);
     pronunciationScore := s.(pronunciation_score);
     fluencyRating := s.(fluency_rating);
     feedback := s.(feedback_col);
     durationSeconds := inject_Z s.(duration_seconds);
     transcript := s.(transcript_col);
     date := s.(date_col) |}.

Definition getUserHistory (select : string -> SelectAnswer) (userId : string)
  : list SessionResult :=
  match select userId with
  | SelectData (Some data) => map fromRow data
  | SelectData None => []
  | SelectError => []
  | SelectThrows => []
  end.

End Supabase.

(** ** The [Login] component (components/Login.tsx) *)

Module Login.

Import Supabase.
Open Scope string_scope.

Inductive AuthMode := login | register | reset.

Record FormData := {
  f_username : string;
  f_email : string;
  f_password : string;
  f_confirmPassword : string;
  f_name : string;
  f_surname : string
}.

(** Calls that leave the component. *)
Inductive Call :=
| GetEmailByUsername (username : string)
| SignInWithPassword (email password : string)
| SignUp (email password username name surname metaEmail : string)
| GetUserProfile (userId : string)
| OnLogin (profile : User)
| SetTimeout (ms : Z).

Record State := {
  mode : AuthMode;
  loading : bool;
  error : option string;
  success : option string;
  calls : list Call
}.

Definition setMode (m : AuthMode) (s : State) : State :=
  {| mode := m; loading := s.(loading); error := s.(error);
     success := s.(success); calls := s.(calls) |}.
Definition setLoading (b : bool) (s : State) : State :=
  {| mode := s.(mode); loading := b; error := s.(error);
     success := s.(success); calls := s.(calls) |}.
Definition setError (e : option string) (s : State) : State :=
  {| mode := s.(mode); loading := s.(loading); error := e;
     success := s.(success); calls := s.(calls) |}.
Definition setSuccess (m : option string) (s : State) : State :=
  {| mode := s.(mode); loading := s.(loading); error := s.(error);
     success := m; calls := s.(calls) |}.
Definition call (c : Call) (s : State) : State :=
  {| mode := s.(mode); loading := s.(loading); error := s.(error);
     success := s.(success); calls := (s.(calls) ++ [c])%list |}.

Definition mount : State :=
  {| mode := login; loading := false; error := None; success := None;
     calls := [] |}.

(** [{ data, error }] of [signInWithPassword] and [signUp]: an error, or
    the id of [data.user] if there is one. *)
Inductive AuthAnswer :=
| AuthError (message : string)
| AuthData (user : option string).

(** The collaborators. [getUserProfile n id] is what the [n]-th profile
    request of a handler yields. *)
Record Env := {
  profiles : string -> EmailAnswer;
  signInWithPassword : string -> string -> AuthAnswer;
  signUp : string -> string -> AuthAnswer;
  getUserProfile : nat -> string -> option User
}.

Definition invalidCredentials : string :=
  "Credenciais inválidas. Verifique e-mail/usuário e senha.".
Definition profileLoadFailed : string :=
  "Erro ao carregar perfil do banco de dados.".
Definition allFieldsRequired : string := "Todos os campos são obrigatórios.".
Definition passwordsDiffer : string := "As senhas não coincidem.".
Definition passwordTooShort : string :=
  "A senha deve ter pelo menos 6 caracteres.".
Definition accountCreated : string := "Conta criada com sucesso! Entrando...".
Definition profileDelayed : string :=
  "Perfil criado, mas houve um atraso na sincronização. Por favor, faça login.".
Definition resetUnavailable : string :=
  "Função de redefinição via e-mail em desenvolvimento.".

(** *** [handleLogin] *)

(** The address handed to [signInWithPassword], with the lookups made. *)
Definition loginEmail (env : Env) (username : string) : string * list Call :=
  if Str.includes "@" username then (username, [])
  else
    match getEmailByUsername env.(profiles) username with
    | Some resolvedEmail => (resolvedEmail, [GetEmailByUsername username])
    | None =>
        (Str.toLowerCase username ++ "@fluentai.com",
         [GetEmailByUsername username])
    end.

Definition handleLogin (env : Env) (formData : FormData) (s : State) : State :=
  let s := setLoading true s in
  let s := setError None s in
  let (email, lookups) := loginEmail env formData.(f_username) in
  let s := fold_left (fun s c => call c s) lookups s in
  let s := call (SignInWithPassword email formData.(f_password)) s in
  match env.(signInWithPassword) email formData.(f_password) with
  | AuthError _ => setLoading false (setError (Some invalidCredentials) s)
  | AuthData user =>
      let s :=
        match user with
        | Some userId =>
            let s := call (GetUserProfile userId) s in
            match env.(getUserProfile) 1 userId with
            | Some profile => call (OnLogin profile) s
            | None => setError (Some profileLoadFailed) s
            end
        | None => s
        end in
      setLoading false s
  end.

(** *** [handleRegister] *)

(** One run of [fetchProfileWithRetry]; [attempts] is the counter shared by
    the runs. The answer tells whether the run armed the one-second timer
    that starts the next run. *)
Definition fetchProfileWithRetry (env : Env) (userId : string)
  (attempts : nat) (s : State) : nat * bool * State :=
  let attempts := S attempts in
  let s := call (GetUserProfile userId) s in
  match env.(getUserProfile) attempts userId with
  | Some profile => (attempts, false, call (OnLogin profile) s)
  | None =>
      if (attempts <? 3)%nat then (attempts, true, call (SetTimeout 1000) s)
      else
        let s := setError (Some profileDelayed) s in
        let s := setLoading false s in
        (attempts, false, setMode login s)
  end.

(** The first run and the runs started by the timers that fire, at most
    [timers] of them. The answer tells whether a timer is still armed. *)
Fixpoint retryLoop (env : Env) (userId : string) (timers : nat)
  (attempts : nat) (s : State) : bool * State :=
  match fetchProfileWithRetry env userId attempts s with
  | (attempts, true, s) =>
      match timers with
      | S timers => retryLoop env userId timers attempts s
      | O => (true, s)
      end
  | (_, false, s) => (false, s)
  end.

Definition handleRegister (env : Env) (formData : FormData) (timers : nat)
  (s : State) : bool * State :=
  let s := setLoading true s in
  let s := setError None s in
  if (formData.(f_name) =? "") || (formData.(f_surname) =? "")
     || (formData.(f_username) =? "") || (formData.(f_email) =? "")
     || (formData.(f_password) =? "") then
    (false, setLoading false (setError (Some allFieldsRequired) s))
  else if negb (formData.(f_password) =? formData.(f_confirmPassword)) then
    (false, setLoading false (setError (Some passwordsDiffer) s))
  else if (String.length formData.(f_password) <? 6)%nat then
    (false, setLoading false (setError (Some passwordTooShort) s))
  else
    let s :=
      call (SignUp formData.(f_email) formData.(f_password)
                   (Str.toLowerCase formData.(f_username))
                   formData.(f_name) formData.(f_surname)
                   formData.(f_email)) s in
    match env.(signUp) formData.(f_email) formData.(f_password) with
    | AuthError message =>
        (false, setLoading false (setError (Some message) s))
    | AuthData (Some userId) =>
        let s := setSuccess (Some accountCreated) s in
        retryLoop env userId timers 0 s
    | AuthData None => (false, s)
    end.

(** *** [handleResetPassword] *)

Definition handleResetPassword (s : State) : State :=
  setError (Some resetUnavailable) s.

End Login.

(** ** [services/asaas.ts] *)

Module Asaas.

Open Scope string_scope.

(** A property read from the parsed answer: absent, [null], a string,
    or any other value, given by its truthiness and its [String(_)] text. *)
Inductive Val :=
| Undefined
| Null
| Str (s : string)
| Other (truthy : bool) (text : string).

(** The [data] property of the answer: absent, [null], another falsy value
    given by its [String(_)] text, or a value whose [status] can be read. *)
Inductive DataField :=
| DataUndefined
| DataNull
| DataFalsy (text : string)
| DataObject (status : Val).

(** What [response.json()] yields, as far as [checkPaymentStatus] reads it. *)
Inductive Body :=
| BodyNull
| BodyObject (status : Val) (data : DataField).

Inductive FetchOutcome :=
| FetchThrows
| NotOk (status : Z)
| JsonThrows
| Json (body : Body).

Inductive Effect :=
| Fetch (url : string)
| ConsoleError.

(** [getApiUrl] *)
Definition getApiUrl (hostname protocol : string) : string :=
  let isLocalHost := (hostname =? "localhost") || (hostname =? "127.0.0.1") in
  let isHttps := protocol =? "https:" in
  if isLocalHost && negb isHttps then "http://localhost:3001/api"
  else "https://asaas-api-segura.vercel.app/api".

(** [fetchAsaas]: the parsed body, or [None] when it throws; an error thrown
    inside the [try] block is caught, logged and thrown again by the
    [catch] of the same function. *)
Definition fetchAsaas (fetch : string -> FetchOutcome) (targetUrl : string)
  : option Body * list Effect :=
  match fetch targetUrl with
  | FetchThrows => (None, [Fetch targetUrl; ConsoleError])
  | NotOk _ => (None, [Fetch targetUrl; ConsoleError; ConsoleError])
  | JsonThrows => (None, [Fetch targetUrl; ConsoleError])
  | Json body => (Some body, [Fetch targetUrl])
  end.

Definition truthy (v : Val) : bool :=
  match v with
  | Str "" => false
  | Str _ => true
  | Other truthy _ => truthy
  | Undefined => false
  | Null => false
  end.

(** [String(v)] *)
Definition toString (v : Val) : string :=
  match v with
  | Undefined => "undefined"
  | Null => "null"
  | Str s => s
  | Other _ text => text
  end.

(** [result.status || (result.data && result.data.status)]; reading a
    property of [null] throws. *)
Definition statusOf (result : Body) : option Val :=
  match result with
  | BodyNull => None
  | BodyObject status data =>
      Some (if truthy status then status
            else match data with
                 | DataUndefined => Undefined
                 | DataNull => Null
                 | DataFalsy text => Other false text
                 | DataObject status => status
                 end)
  end.

Definition paidStatuses : list string :=
  ["RECEIVED"; "CONFIRMED"; "PAID"; "RECEIVED_IN_CASH"].

Definition codes_eqb (a b : list N) : bool :=
  if list_eq_dec N.eq_dec a b then true else false.

Definition checkPaymentStatus (API_URL : string)
  (fetch : string -> FetchOutcome) (paymentId : string)
  : bool * list Effect :=
  if paymentId =? "" then (false, [])
  else
    let (result, log) :=
      fetchAsaas fetch (API_URL ++ "/checar-status?id=" ++ paymentId) in
    match result with
    | Some result =>
        match statusOf result with
        | Some status =>
            (existsb (fun paid =>
                        codes_eqb (Str.codes paid)
                                  (Str.toUpperCase (toString status)))
                     paidStatuses,
             log)
        | None => (false, log)
        end
    | None => (false, log)
    end.

End Asaas.

(** ** Rank progress ([Dashboard], components/Dashboard.tsx) *)

Module Dashboard.

Open Scope string_scope.

Record Rank := { name : string; minPoints : Z }.

Definition RANKS : list Rank :=
  [ {| name := "Novato"; minPoints := 0 |};
    {| name := "Aprendiz"; minPoints := 500 |};
    {| name := "Falante"; minPoints := 2000 |};
    {| name := "Orador"; minPoints := 5000 |};
    {| name := "Linguista"; minPoints := 12000 |};
    {| name := "Fluente"; minPoints := 25000 |};
    {| name := "Nativo"; minPoints := 50000 |} ].

(** [Math.min] *)
Definition Math_min (x y : Q) : Q := if Qle_bool x y then x else y.

(** [RANKS.find(r => r.minPoints > user.points) || RANKS[RANKS.length - 1]] *)
Definition nextRank (points : Z) : option Rank :=
  match find (fun r => (points <? r.(minPoints))%Z) RANKS with
  | Some r => Some r
  | None => nth_error RANKS (length RANKS - 1)
  end.

(** [Math.min(100, (user.points / nextRank.minPoints) * 100)]; [None]
    where the quotient is not a finite number (a zero divisor). *)
Definition progressPercent (points : Z) : option Q :=
  match nextRank points with
  | Some r =>
      if (r.(minPoints) =? 0)%Z then None
      else Some (Math_min 100 (inject_Z points / inject_Z r.(minPoints) * 100))
  | None => None
  end.

End Dashboard.

(* ================================================================== *)
(** * Part II: properties *)
(* ================================================================== *)

Module ResamplerFacts.
Import Resampler.

Lemma Qfloor_frac (a : Z) (b : positive) : Qfloor (a # b) = (a / Z.pos b)%Z.
Proof. reflexivity. Qed.

(** The two floors of the loop, in integer arithmetic. *)
Lemma newLength_int (len : nat) (r : positive) :
  newLength len (Z.pos r) = (Z.of_nat len * 16000 / Z.pos r)%Z.
Proof.
  unfold newLength, ratio, targetSampleRate.
  rewrite <- Qfloor_frac. apply Qfloor_comp.
  unfold Qeq, Qdiv, Qmult, Qinv, inject_Z; simpl. lia.
Qed.

Lemma sourceIndex_int (i : nat) (r : positive) :
  sourceIndex i (Z.pos r) = (Z.of_nat i * Z.pos r / 16000)%Z.
Proof.
  unfold sourceIndex, ratio, targetSampleRate.
  change 16000%Z with (Z.pos 16000).
  rewrite <- Qfloor_frac. apply Qfloor_comp.
  unfold Qeq, Qdiv, Qmult, Qinv, inject_Z; simpl. lia.
Qed.


End ResamplerFacts.

Module ResamplerProps.
Import Resampler ResamplerFacts.

Section Samples.
Variable sample : Type.
Variable NaN : sample.

Lemma resample_same_rate (ctx : option positive) (inputData : list sample) :
  currentSampleRate ctx = targetSampleRate ->
  resample NaN ctx inputData = inputData.
Proof.
  intros H. unfold resample. rewrite H, Z.eqb_refl. reflexivity.
Qed.

Lemma resample_length (ctx : option positive) (inputData : list sample) :
  currentSampleRate ctx <> targetSampleRate ->
  Z.of_nat (length (resample NaN ctx inputData))
  = newLength (length inputData) (currentSampleRate ctx).
Proof.
  intros H. unfold resample.
  apply Z.eqb_neq in H. rewrite H.
  rewrite length_map, length_seq, Z2Nat.id; [reflexivity|].
  destruct ctx as [r|]; cbn [currentSampleRate];
    rewrite newLength_int; apply Z.div_pos; lia.
Qed.


End Samples.



End ResamplerProps.

Module GeminiProps.
Import JS Gemini.
Open Scope string_scope.

Lemma trimStart_length (s : string) :
  (String.length (trimStart s) <= String.length s)%nat.
Proof.
  induction s as [|c rest IH]; cbn [trimStart String.length].
  - lia.
  - destruct (isWhiteSpace c); cbn [String.length]; lia.
Qed.

Lemma trimEnd_length (s : string) :
  (String.length (trimEnd s) <= String.length s)%nat.
Proof.
  induction s as [|c rest IH]; cbn [trimEnd String.length].
  - lia.
  - destruct (trimEnd rest) as [|c' kept].
    + destruct (isWhiteSpace c); cbn [String.length]; lia.
    + cbn [String.length] in *. lia.
Qed.

Lemma trim_length (s : string) :
  (String.length (trim s) <= String.length s)%nat.
Proof.
  unfold trim.
  pose proof (trimEnd_length (trimStart s)).
  pose proof (trimStart_length s). lia.
Qed.

(** [Math.round] of the weighted sum, in integer arithmetic. *)
Lemma round_weighted (v g p : Z) :
  Math_round (weighted v g p) = ((3 * v + 3 * g + 4 * p + 5) / 10)%Z.
Proof.
  unfold Math_round, weighted.
  change 10%Z with (Z.pos 10).
  rewrite <- ResamplerFacts.Qfloor_frac. apply Qfloor_comp.
  unfold Qeq, Qplus, Qmult, inject_Z. cbn [Qnum Qden].
  rewrite !Pos2Z.inj_mul. lia.
Qed.

(** C9. A transcript that is empty or shorter than 10 characters gets the
    fixed low-score result (all four scores 10, rating Beginner), and the
    evaluation collaborator is not called. *)
Theorem short_transcript_fallback
  (generateContent : string -> ApiOutcome) (t : string) :
  (String.length t < 10)%nat ->
  let '(result, sent) := evaluateSession generateContent t in
  overallScore result = 10%Z
  /\ vocabularyScore result = 10%Z
  /\ grammarScore result = 10%Z
  /\ pronunciationScore result = 10%Z
  /\ fluencyRating result = "Beginner"
  /\ sent = [].
Proof.
  intros Hshort. unfold evaluateSession.
  assert (Hlt : (String.length (trim t) <? 10)%nat = true).
  { apply Nat.ltb_lt. pose proof (trim_length t). lia. }
  rewrite Hlt, orb_true_r. cbn. repeat split; reflexivity.
Qed.

Lemma short_transcript_fallback_witness :
  let '(result, sent) :=
    evaluateSession (fun _ => ApiThrows) "User: hi" in
  overallScore result = 10%Z
  /\ vocabularyScore result = 10%Z
  /\ grammarScore result = 10%Z
  /\ pronunciationScore result = 10%Z
  /\ fluencyRating result = "Beginner"
  /\ sent = [].
Proof.
  apply (short_transcript_fallback (fun _ => ApiThrows) "User: hi").
  vm_compute. lia.
Defined.

(** A collaborator answering 90 overall for three component scores of 50. *)
Definition inconsistentAnswer : ApiJson :=
  {| j_overallScore := Some 90%Z;
     j_vocabularyScore := Some 50%Z;
     j_grammarScore := Some 50%Z;
     j_pronunciationScore := Some 50%Z;
     j_fluencyRating := Some "Intermediate";
     j_feedback := Some "ok" |}.



(** A collaborator answering 0 overall. *)
Definition zeroAnswer : ApiJson :=
  {| j_overallScore := Some 0%Z;
     j_vocabularyScore := Some 70%Z;
     j_grammarScore := Some 65%Z;
     j_pronunciationScore := Some 80%Z;
     j_fluencyRating := Some "Intermediate";
     j_feedback := Some "ok" |}.


End GeminiProps.

Module BridgeProps.
Import Bridge.
Open Scope string_scope.
Open Scope Z_scope.

(** An inbound message that carries audio and nothing else. *)
Definition audioDelta (base64Audio : string) : ServerMessage :=
  {| outputTranscription := None;
     inputTranscription := None;
     inlineData := Some base64Audio;
     interrupted := false |}.

(** The output context and the analyser exist, as they do from [connect] to
    [disconnect]. *)
Definition playbackReady (s : State) : Prop :=
  s.(outputAudioContextRef) = true /\ s.(analyserRef) = true.

Definition endAt (x : Source) : Z := x.(startAt) + x.(duration).

(** The play windows of the live buffers, in scheduling order, end before the
    next one starts, and all end by the cursor. *)
Definition gapless (s : State) : Prop :=
  ForallOrdPairs (fun a b => endAt a <= b.(startAt)) s.(sourcesRef)
  /\ Forall (fun a => endAt a <= s.(nextStartTimeRef)) s.(sourcesRef).

Ltac unfold_cmd :=
  unfold exec, onmessage, handleAudio, handleInterruption, onended, onopen,
    onclose, tryCatch, bind, when, emit, modify, ret, throw in *.

Section Decode.
Variable decodeAudioData : string -> option Z.

Lemma truthy_nonempty (b : string) : b <> "" -> JS.truthyStr (Some b) = Some b.
Proof. destruct b; [congruence | reflexivity]. Qed.

(** One decodable audio delta, in full. *)
Lemma audio_delta_step (s : State) (now : Z) (b : string) (d : Z) :
  playbackReady s -> b <> "" -> decodeAudioData b = Some d ->
  onmessage decodeAudioData now (audioDelta b) s
  = (Normal tt,
     set_sourcesRef
       (s.(sourcesRef) ++
        [{| node := s.(nextNode);
            startAt := Z.max s.(nextStartTimeRef) now;
            duration := d |}])
       (set_nextStartTimeRef (Z.max s.(nextStartTimeRef) now + d)
          (set_trace
             (s.(trace)
              ++ [SourceStart s.(nextNode) (Z.max s.(nextStartTimeRef) now)])
             (set_nextNode (S s.(nextNode))
                (set_nextStartTimeRef (Z.max s.(nextStartTimeRef) now)
                   (set_isTalking true s)))))).
Proof.
  intros [Hout Hana] Hb Hd.
  unfold onmessage, bind. cbn [inlineData audioDelta interrupted].
  rewrite (truthy_nonempty b Hb), Hout, Hana. cbn [andb when].
  unfold handleAudio, tryCatch, bind, modify, emit. rewrite Hd.
  cbn. reflexivity.
Qed.


(** [forEach] over effect-only bodies appends one effect per element. *)
Lemma forEach_emit {A} (f : A -> Effect) (xs : list A) (s : State) :
  forEach xs (fun x => emit (f x)) s
  = (Normal tt, set_trace (s.(trace) ++ map f xs) s).
Proof.
  revert s. induction xs as [|x xs IH]; intros s; cbn [forEach map].
  - unfold ret. rewrite app_nil_r. destruct s; reflexivity.
  - unfold bind, emit at 1, modify. rewrite IH.
    destruct s; cbn. rewrite <- app_assoc. reflexivity.
Qed.

Lemma ForallOrdPairs_snoc {A} (R : A -> A -> Prop) (l : list A) (x : A) :
  ForallOrdPairs R l -> Forall (fun a => R a x) l ->
  ForallOrdPairs R (l ++ [x]).
Proof.
  induction 1 as [|a l Ha Hl IH]; intros Hx; cbn [app].
  - constructor; constructor.
  - inversion Hx; subst. constructor.
    + apply Forall_app. split; [assumption | constructor; [assumption|constructor]].
    + apply IH. assumption.
Qed.

Lemma ForallOrdPairs_filter {A} (R : A -> A -> Prop) (f : A -> bool)
  (l : list A) :
  ForallOrdPairs R l -> ForallOrdPairs R (filter f l).
Proof.
  induction 1 as [|a l Ha Hl IH]; cbn [filter].
  - constructor.
  - destruct (f a); [|assumption]. constructor; [|assumption].
    rewrite Forall_forall in *. intros x Hx.
    apply filter_In in Hx. apply Ha. tauto.
Qed.

Lemma Forall_filter {A} (P : A -> Prop) (f : A -> bool) (l : list A) :
  Forall P l -> Forall P (filter f l).
Proof.
  rewrite !Forall_forall. intros H x Hx. apply filter_In in Hx. apply H. tauto.
Qed.

(** *** The scheduling invariant *)

Definition nonnegativeDurations : Prop :=
  forall b d, decodeAudioData b = Some d -> 0 <= d.

Lemma handleAudio_gapless (now : Z) (b : string) (s : State) :
  nonnegativeDurations -> gapless s ->
  gapless (exec (handleAudio decodeAudioData now b) s).
Proof.
  intros Hnn [Hord Hend]. unfold gapless in *.
  unfold exec, handleAudio, tryCatch, bind, modify, emit, throw.
  destruct (decodeAudioData b) as [d|] eqn:Hd; cbn.
  - pose proof (Hnn b d Hd) as Hd0. split.
    + apply ForallOrdPairs_snoc; [assumption|].
      eapply Forall_impl; [|exact Hend]. cbn. intros a Ha. lia.
    + apply Forall_app. split.
      * eapply Forall_impl; [|exact Hend]. cbn. intros a Ha. lia.
      * constructor; [|constructor]. unfold endAt. cbn. lia.
  - split; [assumption|].
    eapply Forall_impl; [|exact Hend]. cbn. intros a Ha. lia.
Qed.

Lemma handleInterruption_state (s : State) :
  handleInterruption s
  = (Normal tt,
     set_isTalking false
       (set_nextStartTimeRef 0
          (set_sourcesRef []
             (set_trace
                (s.(trace) ++ map (fun x => SourceStop x.(node)) s.(sourcesRef))
                s)))).
Proof.
  unfold handleInterruption, bind.
  rewrite (forEach_emit (fun x => SourceStop x.(node))).
  reflexivity.
Qed.

Lemma onmessage_gapless (now : Z) (m : ServerMessage) (s : State) :
  nonnegativeDurations -> gapless s ->
  gapless (exec (onmessage decodeAudioData now m) s).
Proof.
  intros Hnn Hg. unfold exec, onmessage, bind.
  assert (Hmid : forall c : Cmd unit,
             fst (c s) = Normal tt -> gapless (snd (c s)) ->
             gapless (snd (match c s with
                           | (Normal _, s') => when m.(interrupted) handleInterruption s'
                           | (Thrown e, s') => (Thrown e, s')
                           end))).
  { intros c Hc Hgc. destruct (c s) as [[[]|e] s1]; cbn in *; [|discriminate].
    destruct m.(interrupted); cbn [when]; [|exact Hgc].
    rewrite handleInterruption_state. cbn. split; constructor. }
  destruct (JS.truthyStr m.(inlineData)) as [b|].
  - destruct (s.(outputAudioContextRef) && s.(analyserRef)); cbn [when].
    + apply Hmid.
      * unfold handleAudio, tryCatch, bind, modify, emit, throw.
        destruct (decodeAudioData b); reflexivity.
      * apply (handleAudio_gapless now b s Hnn Hg).
    + apply Hmid; [reflexivity | exact Hg].
  - apply Hmid; [reflexivity | exact Hg].
Qed.

Lemma onended_gapless (n : nat) (s : State) :
  gapless s -> gapless (exec (onended n) s).
Proof.
  intros [Hord Hend]. unfold exec, onended, bind, modify, when. cbn.
  destruct (length _ =? 0)%nat; cbn;
    (split; [apply ForallOrdPairs_filter | apply Forall_filter]); assumption.
Qed.

Lemma handle_normal (e : Event) (s : State) :
  fst (handle decodeAudioData e s) = Normal tt.
Proof.
  destruct e as [now m|n]; cbn [handle].
  - unfold onmessage, bind.
    assert (Hmid : forall r : Completion unit * State,
               fst r = Normal tt ->
               fst (match r with
                    | (Normal _, s') => when m.(interrupted) handleInterruption s'
                    | (Thrown e, s') => (Thrown e, s')
                    end) = Normal tt).
    { intros [[[]|e] s1] Hr; cbn in *; [|discriminate].
      destruct m.(interrupted); cbn [when]; [|reflexivity].
      rewrite handleInterruption_state. reflexivity. }
    apply Hmid.
    destruct (JS.truthyStr m.(inlineData)) as [b|]; [|reflexivity].
    destruct (s.(outputAudioContextRef) && s.(analyserRef)); cbn [when];
      [|reflexivity].
    unfold handleAudio, tryCatch, bind, modify, emit, throw.
    destruct (decodeAudioData b); reflexivity.
  - unfold onended, bind, modify, when. cbn.
    destruct (length _ =? 0)%nat; reflexivity.
Qed.

Lemma bridge_run_cons (e : Event) (es : list Event) (s : State) :
  exec (run decodeAudioData (e :: es)) s
  = exec (run decodeAudioData es) (exec (handle decodeAudioData e) s).
Proof.
  unfold exec, run. cbn [forEach]. unfold bind.
  pose proof (handle_normal e s) as H.
  destruct (handle decodeAudioData e s) as [[[]|msg] s1]; cbn in *;
    [reflexivity | discriminate].
Qed.

Lemma run_gapless (es : list Event) (s : State) :
  nonnegativeDurations -> gapless s ->
  gapless (exec (run decodeAudioData es) s).
Proof.
  intros Hnn. revert s. induction es as [|e es IH]; intros s Hg.
  - exact Hg.
  - rewrite bridge_run_cons. apply IH.
    destruct e as [now m|n]; cbn [handle].
    + apply onmessage_gapless; assumption.
    + apply onended_gapless; assumption.
Qed.


Lemma audio_delta_ready (s : State) (now : Z) (b : string) (d : Z) :
  playbackReady s -> b <> "" -> decodeAudioData b = Some d ->
  playbackReady (exec (onmessage decodeAudioData now (audioDelta b)) s).
Proof.
  intros Hr Hb Hd. unfold exec. rewrite (audio_delta_step s now b d Hr Hb Hd).
  exact Hr.
Qed.

(** *** Speaking flag against the live set *)

Definition talkingIffLive (s : State) : Prop :=
  s.(isTalking) = true <-> s.(sourcesRef) <> [].

Definition alwaysDecodes : Prop :=
  forall b, b <> "" -> decodeAudioData b <> None.

Lemma truthy_some (x : option string) (b : string) :
  JS.truthyStr x = Some b -> b <> "".
Proof.
  destruct x as [[|c r]|]; cbn; intros H; inversion H; subst; discriminate.
Qed.

Lemma handle_talkingIffLive (e : Event) (s : State) :
  alwaysDecodes -> talkingIffLive s ->
  talkingIffLive (exec (handle decodeAudioData e) s).
Proof.
  intros Hdec Hinv. unfold talkingIffLive in *.
  destruct e as [now m|n]; cbn [handle].
  - unfold exec, onmessage, bind.
    assert (Hmid : forall r : Completion unit * State,
               fst r = Normal tt ->
               ((snd r).(isTalking) = true <-> (snd r).(sourcesRef) <> []) ->
               let r' := match r with
                         | (Normal _, s') =>
                             when m.(interrupted) handleInterruption s'
                         | (Thrown e, s') => (Thrown e, s')
                         end in
               (snd r').(isTalking) = true <-> (snd r').(sourcesRef) <> []).
    { intros [[[]|e] s1] Hr Hs1; cbn in *; [|discriminate].
      destruct m.(interrupted); cbn [when]; [|exact Hs1].
      rewrite handleInterruption_state. cbn. split; congruence. }
    apply Hmid.
    + destruct (JS.truthyStr m.(inlineData)) as [b|]; [|reflexivity].
      destruct (s.(outputAudioContextRef) && s.(analyserRef)); cbn [when];
        [|reflexivity].
      unfold handleAudio, tryCatch, bind, modify, emit, throw.
      destruct (decodeAudioData b); reflexivity.
    + destruct (JS.truthyStr m.(inlineData)) as [b|] eqn:Hb; [|exact Hinv].
      destruct (s.(outputAudioContextRef) && s.(analyserRef)); cbn [when];
        [|exact Hinv].
      unfold handleAudio, tryCatch, bind, modify, emit, throw.
      destruct (decodeAudioData b) as [d|] eqn:Hd.
      * cbn. split; [|reflexivity]. intros _ H.
        apply app_eq_nil in H. destruct H; discriminate.
      * exfalso. apply (Hdec b); [eapply truthy_some; exact Hb | exact Hd].
  - unfold exec, onended, bind, modify, when. cbn.
    destruct (filter _ _) as [|x l] eqn:Hf; cbn.
    + split; congruence.
    + split; [discriminate|]. intros _.
      apply Hinv. intros Hnil. rewrite Hnil in Hf. discriminate.
Qed.

(** With a decoder that never fails the flag follows the live set along
    every run of messages and completions. *)
Lemma run_talkingIffLive (es : list Event) (s : State) :
  alwaysDecodes -> talkingIffLive s ->
  talkingIffLive (exec (run decodeAudioData es) s).
Proof.
  intros Hdec. revert s. induction es as [|e es IH]; intros s Hinv.
  - exact Hinv.
  - rewrite bridge_run_cons. apply IH. apply handle_talkingIffLive; assumption.
Qed.

End Decode.

(** A browser that grants the microphone at 48 kHz, and the hook after
    [connect] and [onopen]. *)
Definition browser : ConnectEnv :=
  {| deviceRate := 48000;
     micTracks := Some [0%nat];
     apiKey := true;
     handshake := Fulfilled false |}.

Definition opened : State :=
  exec (bind (connect browser) (fun _ => onopen)) initial.

Lemma opened_ready : playbackReady opened.
Proof. split; reflexivity. Qed.

(** C1, as stated, fails: three buffers of duration 2 arriving at times 5, 6
    and 8 (each before the previous one ends) leave the cursor at 11. *)
Lemma cursor_is_not_sum_of_durations :
  let s' :=
    exec (run (fun _ => Some 2)
            [Message 5 (audioDelta "a"); Message 6 (audioDelta "b");
             Message 8 (audioDelta "c")]) opened in
  opened.(nextStartTimeRef) = 0
  /\ map (fun x => (x.(startAt), endAt x)) s'.(sourcesRef)
     = [(5, 7); (7, 9); (9, 11)]
  /\ s'.(nextStartTimeRef) <> 2 + 2 + 2.
Proof.
  vm_compute. repeat split; discriminate.
Qed.

(** C1, amended. While the output context and analyser exist, every decoded
    buffer is started at [max nextStartTime now] and the cursor then advances
    by exactly its duration. For three buffers of durations d1, d2, d3, each
    arriving no later than the end of the one before, the cursor ends at the
    start of the first buffer plus d1 + d2 + d3 (hence at d1 + d2 + d3 when
    the first buffer starts at 0) and the three windows are back to back.
    Along every run the windows of the live buffers never overlap. *)
Theorem gapless_scheduling (decodeAudioData : string -> option Z) :
  (forall s now b d,
      playbackReady s -> b <> "" -> decodeAudioData b = Some d ->
      let s' := exec (onmessage decodeAudioData now (audioDelta b)) s in
      s'.(sourcesRef)
      = (s.(sourcesRef)
         ++ [{| node := s.(nextNode);
                startAt := Z.max s.(nextStartTimeRef) now;
                duration := d |}])%list
      /\ s'.(nextStartTimeRef) = Z.max s.(nextStartTimeRef) now + d)
  /\ (forall s t1 t2 t3 b1 b2 b3 d1 d2 d3,
         playbackReady s ->
         b1 <> "" -> b2 <> "" -> b3 <> "" ->
         decodeAudioData b1 = Some d1 ->
         decodeAudioData b2 = Some d2 ->
         decodeAudioData b3 = Some d3 ->
         let start := Z.max s.(nextStartTimeRef) t1 in
         t2 <= start + d1 ->
         t3 <= start + d1 + d2 ->
         let s' :=
           exec (run decodeAudioData
                   [Message t1 (audioDelta b1); Message t2 (audioDelta b2);
                    Message t3 (audioDelta b3)]) s in
         s'.(nextStartTimeRef) = start + (d1 + d2 + d3)
         /\ s'.(sourcesRef)
            = (s.(sourcesRef)
               ++ [{| node := s.(nextNode);
                      startAt := start; duration := d1 |};
                   {| node := S s.(nextNode);
                      startAt := start + d1; duration := d2 |};
                   {| node := S (S s.(nextNode));
                      startAt := start + d1 + d2; duration := d3 |}])%list)
  /\ (nonnegativeDurations decodeAudioData ->
      forall s es,
        gapless s -> gapless (exec (run decodeAudioData es) s)).
Proof.
  split; [|split].
  - intros s now b d Hr Hb Hd. cbv zeta. unfold exec.
    rewrite (audio_delta_step decodeAudioData s now b d Hr Hb Hd).
    split; reflexivity.
  - intros s t1 t2 t3 b1 b2 b3 d1 d2 d3 Hr Hb1 Hb2 Hb3 Hd1 Hd2 Hd3.
    cbv zeta. intros H2 H3.
    rewrite !bridge_run_cons. cbn [handle].
    pose proof (audio_delta_ready decodeAudioData s t1 b1 d1 Hr Hb1 Hd1) as Hr1.
    set (s1 := exec (onmessage decodeAudioData t1 (audioDelta b1)) s) in *.
    pose proof (audio_delta_ready decodeAudioData s1 t2 b2 d2 Hr1 Hb2 Hd2) as Hr2.
    set (s2 := exec (onmessage decodeAudioData t2 (audioDelta b2)) s1) in *.
    assert (E1 : s1.(nextStartTimeRef) = Z.max s.(nextStartTimeRef) t1 + d1
                 /\ s1.(nextNode) = S s.(nextNode)
                 /\ s1.(sourcesRef)
                    = (s.(sourcesRef)
                       ++ [{| node := s.(nextNode);
                              startAt := Z.max s.(nextStartTimeRef) t1;
                              duration := d1 |}])%list).
    { subst s1. unfold exec.
      rewrite (audio_delta_step decodeAudioData s t1 b1 d1 Hr Hb1 Hd1).
      repeat split; reflexivity. }
    destruct E1 as (C1 & N1 & L1).
    assert (E2 : s2.(nextStartTimeRef) = Z.max s1.(nextStartTimeRef) t2 + d2
                 /\ s2.(nextNode) = S s1.(nextNode)
                 /\ s2.(sourcesRef)
                    = (s1.(sourcesRef)
                       ++ [{| node := s1.(nextNode);
                              startAt := Z.max s1.(nextStartTimeRef) t2;
                              duration := d2 |}])%list).
    { subst s2. unfold exec.
      rewrite (audio_delta_step decodeAudioData s1 t2 b2 d2 Hr1 Hb2 Hd2).
      repeat split; reflexivity. }
    destruct E2 as (C2 & N2 & L2).
    unfold exec at 1 2. cbn [run forEach]. unfold ret. cbn [snd].
    unfold exec.
    rewrite (audio_delta_step decodeAudioData s2 t3 b3 d3 Hr2 Hb3 Hd3).
    cbn [snd nextStartTimeRef sourcesRef set_sourcesRef set_nextStartTimeRef].
    rewrite L2, L1, N2, N1, C2, C1.
    rewrite !Z.max_l by lia.
    split; [lia|].
    rewrite <- !app_assoc. cbn [app].
    repeat f_equal; lia.
  - intros Hnn s es Hg. apply run_gapless; assumption.
Qed.

Lemma gapless_scheduling_witness :
  (let s1 := exec (onmessage (fun _ => Some 2) 5 (audioDelta "a")) opened in
   s1.(nextStartTimeRef) = Z.max opened.(nextStartTimeRef) 5 + 2)
  /\ let s' :=
       exec (run (fun _ => Some 2)
               [Message 5 (audioDelta "a"); Message 6 (audioDelta "b");
                Message 8 (audioDelta "c")]) opened in
     s'.(nextStartTimeRef) = Z.max opened.(nextStartTimeRef) 5 + (2 + 2 + 2)
     /\ gapless s'.
Proof.
  cbv zeta. split; [|split].
  - refine (proj2 (proj1 (gapless_scheduling (fun _ => Some 2))
                     opened 5 "a" 2 opened_ready _ _));
      [discriminate | reflexivity].
  - refine (proj1 (proj1 (proj2 (gapless_scheduling (fun _ => Some 2)))
                     opened 5 6 8 "a" "b" "c" 2 2 2 opened_ready
                     _ _ _ _ _ _ _ _)); try discriminate; try reflexivity.
  - refine (proj2 (proj2 (gapless_scheduling (fun _ => Some 2))) _ opened _ _).
    + intros b d H. inversion H. lia.
    + split; constructor.
Defined.

(** *** Interruption *)

(** What the audio branch of [onmessage] can have done before the
    interruption branch runs. *)
Lemma audio_branch (decodeAudioData : string -> option Z) (now : Z)
  (m : ServerMessage) (s : State) :
  exists s1 extra fresh,
    (match JS.truthyStr m.(inlineData) with
     | Some base64Audio =>
         when (s.(outputAudioContextRef) && s.(analyserRef))
              (handleAudio decodeAudioData now base64Audio) s
     | None => ret tt s
     end) = (Normal tt, s1)
    /\ s1.(trace) = (s.(trace) ++ extra)%list
    /\ s1.(sourcesRef) = (s.(sourcesRef) ++ fresh)%list.
Proof.
  destruct (JS.truthyStr m.(inlineData)) as [b|].
  - destruct (s.(outputAudioContextRef) && s.(analyserRef)); cbn [when].
    + unfold handleAudio, tryCatch, bind, modify, emit, throw.
      destruct (decodeAudioData b) as [d|]; cbn;
        eexists; eexists; eexists;
        (split; [reflexivity|]); cbn; split; try reflexivity.
      symmetry; apply app_nil_r.
    + exists s, [], []. rewrite !app_nil_r. repeat split.
  - exists s, [], []. rewrite !app_nil_r. repeat split.
Qed.

(** C2. Whatever buffers are live, a message flagged [interrupted] is handled
    without an exception, calls [stop] on every buffer that was live when it
    arrived, and leaves the live set empty, the cursor at 0 and [isTalking]
    false. *)
Theorem interruption_clears_playback (decodeAudioData : string -> option Z)
  (now : Z) (m : ServerMessage) (s : State) :
  m.(interrupted) = true ->
  let r := onmessage decodeAudioData now m s in
  fst r = Normal tt
  /\ (snd r).(sourcesRef) = []
  /\ (snd r).(nextStartTimeRef) = 0
  /\ (snd r).(isTalking) = false
  /\ exists calls,
       (snd r).(trace) = (s.(trace) ++ calls)%list
       /\ forall x, In x s.(sourcesRef) -> In (SourceStop x.(node)) calls.
Proof.
  intros Hi. cbv zeta. unfold onmessage, bind.
  destruct (audio_branch decodeAudioData now m s)
    as (s1 & extra & fresh & Hs1 & Ht & Hl).
  rewrite Hs1, Hi. cbn [when]. rewrite handleInterruption_state.
  cbn. repeat split.
  exists (extra ++ map (fun x => SourceStop x.(node)) s1.(sourcesRef))%list.
  split.
  - rewrite Ht, app_assoc. reflexivity.
  - intros x Hx. apply in_or_app. right.
    apply (in_map (fun x => SourceStop x.(node))).
    rewrite Hl. apply in_or_app. left. exact Hx.
Qed.

Definition interruption : ServerMessage :=
  {| outputTranscription := None;
     inputTranscription := None;
     inlineData := None;
     interrupted := true |}.

(** Three queued buffers. *)
Definition threeQueued : State :=
  exec (run (fun _ => Some 2)
          [Message 5 (audioDelta "a"); Message 6 (audioDelta "b");
           Message 8 (audioDelta "c")]) opened.

Lemma interruption_clears_playback_witness :
  length threeQueued.(sourcesRef) = 3%nat
  /\ let r := onmessage (fun _ => Some 2) 9 interruption threeQueued in
     fst r = Normal tt
     /\ (snd r).(sourcesRef) = []
     /\ (snd r).(nextStartTimeRef) = 0
     /\ (snd r).(isTalking) = false
     /\ exists calls,
          (snd r).(trace) = (threeQueued.(trace) ++ calls)%list
          /\ forall x, In x threeQueued.(sourcesRef) ->
                       In (SourceStop x.(node)) calls.
Proof.
  split; [reflexivity|].
  apply (interruption_clears_playback (fun _ => Some 2) 9 interruption
           threeQueued).
  reflexivity.
Defined.

(** C6 at its failing input: an audio delta whose payload does not decode,
    arriving while nothing is queued, leaves [isTalking] set over an empty
    live set. *)
Theorem undecodable_audio_leaves_isTalking :
  let s' := exec (onmessage (fun _ => None) 5 (audioDelta "?")) opened in
  opened.(isTalking) = false
  /\ opened.(sourcesRef) = []
  /\ s'.(isTalking) = true
  /\ s'.(sourcesRef) = [].
Proof.
  vm_compute. repeat split.
Qed.

(** *** [disconnect] *)

Definition sessionRelease (s : State) : list Effect :=
  match s.(sessionPromiseRef) with
  | Some (Fulfilled _) => [SessionClose]
  | Some Rejected => [ConsoleError]
  | None => []
  end ++
  match s.(sessionPromiseRef) with
  | Some (Fulfilled true) => [ConsoleError]
  | _ => []
  end.

(** The calls one [disconnect] makes. *)
Definition releaseCalls (s : State) : list Effect :=
  sessionRelease s
  ++ map (fun x => SourceStop x.(node)) s.(sourcesRef)
  ++ match s.(inputAudioContextRef) with
     | Some _ => [ContextClose InputContext]
     | None => []
     end
  ++ (if s.(outputAudioContextRef) then [ContextClose OutputContext] else [])
  ++ match s.(streamRef) with
     | Some tracks => map TrackStop tracks
     | None => []
     end.

Definition disconnected (s : State) : State :=
  {| sessionPromiseRef := None;
     inputAudioContextRef := None;
     outputAudioContextRef := false;
     analyserRef := s.(analyserRef);
     streamRef := None;
     nextStartTimeRef := s.(nextStartTimeRef);
     sourcesRef := [];
     isConnected := false;
     isTalking := false;
     error := s.(error);
     nextNode := s.(nextNode);
     trace := s.(trace) ++ releaseCalls s |}.

(** [forEach] over bodies that only record one call each. *)
Lemma forEach_effects {A} (body : A -> Cmd unit) (f : A -> Effect) :
  (forall x s, body x s = (Normal tt, set_trace (s.(trace) ++ [f x]) s)) ->
  forall xs s,
    forEach xs body s = (Normal tt, set_trace (s.(trace) ++ map f xs) s).
Proof.
  intros Hbody xs.
  induction xs as [|x xs IH]; intros s; cbn [forEach map].
  - unfold ret. rewrite app_nil_r. destruct s; reflexivity.
  - unfold bind. rewrite Hbody, IH.
    destruct s; cbn. rewrite <- app_assoc. reflexivity.
Qed.

(** [disconnect] in closed form: it returns normally from every state. *)
Lemma disconnect_closed_form (s : State) :
  disconnect s = (Normal tt, disconnected s).
Proof.
  unfold disconnect, disconnected, releaseCalls, sessionRelease.
  destruct s as [sp ic oc an st nst srcs conn talk err nn tr].
  unfold bind at 1. cbn [sessionPromiseRef].
  destruct sp as [[[|]|]|];
    unfold bind, tryCatch, awaitAndClose, emit, modify, when, throw, ret; cbn;
    rewrite (forEach_effects _ (fun x => SourceStop x.(node)))
      by (intros; reflexivity);
    cbn;
    destruct ic as [r|]; cbn; destruct oc; cbn;
    destruct st as [tracks|]; cbn;
    rewrite ?(forEach_effects _ TrackStop) by (intros; reflexivity); cbn;
    repeat (rewrite <- ?app_assoc; cbn [app]);
    rewrite ?app_nil_r; reflexivity.
Qed.

(** Nothing is held: the hook is idle, or has been torn down. *)
Definition closed (s : State) : Prop :=
  s.(sessionPromiseRef) = None
  /\ s.(sourcesRef) = []
  /\ s.(inputAudioContextRef) = None
  /\ s.(outputAudioContextRef) = false
  /\ s.(streamRef) = None
  /\ s.(isConnected) = false
  /\ s.(isTalking) = false.

Lemma disconnected_closed (s : State) : closed (disconnected s).
Proof. repeat split. Qed.















End BridgeProps.

Module SessionProps.
Import Session.
Open Scope string_scope.
Open Scope Z_scope.

(** *** A concrete session *)

Definition decodesTo2 : string -> option Z := fun _ => Some 2.

Definition offline : string -> Gemini.ApiOutcome := fun _ => Gemini.ApiThrows.

Definition startEnv (credits : Z) : StartEnv :=
  {| userCredits := credits;
     clickedAt := 1000;
     camera := Some [7%nat];
     connectEnv := BridgeProps.browser |}.

(** Mounted with [credits] seconds, started by a click, connection opened. *)
Definition started (credits : Z) : World :=
  run decodesTo2 offline [StartClicked (startEnv credits); Opened]
      (commit (mount credits)).

Definition userSaid (t : string) : Bridge.ServerMessage :=
  {| Bridge.outputTranscription := None;
     Bridge.inputTranscription := Some t;
     Bridge.inlineData := None;
     Bridge.interrupted := false |}.

Definition modelSaid (t : string) : Bridge.ServerMessage :=
  {| Bridge.outputTranscription := Some t;
     Bridge.inputTranscription := None;
     Bridge.inlineData := None;
     Bridge.interrupted := false |}.

Definition completedTranscripts (w : World) : list string :=
  flat_map (fun c =>
              match c with
              | Complete result _ _ => [Gemini.transcript result]
              | _ => []
              end) w.(parentCalls).

(** *** Turn assembly *)

(** C3 at its failing input. The session opened by [connect] keeps calling
    the [onTranscriptUpdate] of the render in which [handleStart] was
    created, where no turn is open; the deltas (user, Hi), (user, there),
    (model, Hello) are all appended to one turn, nothing is sealed, and
    finishing yields the single line for that turn. *)
Theorem session_callback_never_seals :
  let w :=
    run decodesTo2 offline
        [Inbound 2000 5 (userSaid "Hi");
         Inbound 3000 6 (userSaid " there");
         Inbound 4000 7 (modelSaid "Hello")]
        (started 100) in
  w.(cells).(messages) = []
  /\ w.(fullTranscriptRef) = ""
  /\ w.(cells).(currentTurnRole) = Some Model
  /\ w.(cells).(currentTurnText) = "Hi thereHello"
  /\ completedTranscripts (step decodesTo2 offline w (FinishClicked 9000))
     = ["Avatar: Hi thereHello" ++ newline].
Proof.
  vm_compute. repeat split.
Qed.

Lemma append_empty_r (s : string) : s ++ "" = s.
Proof. induction s as [|c r IH]; cbn; congruence. Qed.

Lemma append_assoc (a b c : string) : (a ++ b) ++ c = a ++ (b ++ c).
Proof. induction a as [|x r IH]; cbn; congruence. Qed.

Fixpoint joined (ts : list string) : string :=
  match ts with
  | [] => ""
  | t :: rest => t ++ joined rest
  end.

(** Whatever arrives, a callback created while no turn was open seals
    nothing: every delta is appended to the one turn. *)
Lemma stale_callback_appends (seen : Cells) (dateNow : Z)
  (ds : list Bridge.Delta) (w : World) :
  seen.(currentTurnRole) = None ->
  let w' := fold_left (fun w d => onTranscriptUpdate seen dateNow d w) ds w in
  w'.(cells).(messages) = w.(cells).(messages)
  /\ w'.(fullTranscriptRef) = w.(fullTranscriptRef)
  /\ w'.(cells).(currentTurnText)
     = w.(cells).(currentTurnText) ++ joined (map fst ds).
Proof.
  intros Hnone. cbv zeta. revert w.
  induction ds as [|[t isUser] ds IH]; intros w; cbn [fold_left map joined fst].
  - rewrite append_empty_r. repeat split.
  - destruct (IH (onTranscriptUpdate seen dateNow (t, isUser) w))
      as (Hm & Hf & Ht).
    rewrite Hm, Hf, Ht. unfold onTranscriptUpdate. rewrite Hnone. cbn.
    rewrite append_assoc. repeat split.
Qed.

(** The same deltas, each handled by the callback of the latest render, give
    one sealed user message, an open model turn, and two lines at the end. *)
Lemma fresh_callbacks_seal_on_role_switch :
  let feed w d := onTranscriptUpdate w.(cells) 2000 d w in
  let w :=
    fold_left feed [("Hi", true); (" there", true); ("Hello", false)]
              (started 100) in
  w.(cells).(messages)
  = [{| role := User; text := "Hi there"; timestamp := 2000 |}]
  /\ w.(cells).(currentTurnRole) = Some Model
  /\ w.(cells).(currentTurnText) = "Hello"
  /\ completedTranscripts (handleFinish offline w.(cells) 9000 None w)
     = ["User: Hi there" ++ newline ++ "Avatar: Hello" ++ newline].
Proof.
  vm_compute. repeat split.
Qed.

(** *** The credit timer *)

Section Collaborators.
Variable decodeAudioData : string -> option Z.
Variable generateContent : string -> Gemini.ApiOutcome.

Abbreviation step := (Session.step decodeAudioData generateContent).
Abbreviation run := (Session.run decodeAudioData generateContent).

Definition isComplete (c : ParentCall) : bool :=
  match c with
  | Complete _ _ _ => true
  | _ => false
  end.

(** How many times the session has been finished towards the parent. *)
Definition finishes (w : World) : nat :=
  length (filter isComplete w.(parentCalls)).

Definition ticks (ts : list Z) : list Event := map CreditTick ts.

(** The one-second interval is armed by a render that was not finishing, and
    the credit effect has seen the current dependencies. *)
Definition ticking (w : World) : Prop :=
  exists seen,
    w.(creditTimer) = Some seen
    /\ seen.(isFinishing) = false
    /\ w.(creditDeps) = Some (creditDepsOf w).

(** No interval is armed, and the credit effect has seen the current
    dependencies. *)
Definition idle (w : World) : Prop :=
  w.(creditTimer) = None /\ w.(creditDeps) = Some (creditDepsOf w).

Lemma CreditDeps_eqb_refl (d : CreditDeps) : CreditDeps_eqb d d = true.
Proof. destruct d as [[[[] []] []] []]; reflexivity. Qed.

Lemma CreditDeps_eqb_eq (a b : CreditDeps) : CreditDeps_eqb a b = true -> a = b.
Proof.
  destruct a as [[[[] []] []] []], b as [[[[] []] []] []];
    cbn; congruence.
Qed.

(** What the sync effect leaves alone. *)
Lemma commitSyncEffect_frame (w : World) :
  let w' := commitSyncEffect w in
  w'.(cells) = w.(cells)
  /\ w'.(creditTimer) = w.(creditTimer)
  /\ w'.(creditDeps) = w.(creditDeps)
  /\ w'.(parentCalls) = w.(parentCalls)
  /\ w'.(hook) = w.(hook)
  /\ w'.(lastSyncCreditsRef) = w.(lastSyncCreditsRef).
Proof.
  cbv zeta. unfold commitSyncEffect.
  destruct (match syncDeps w with
            | Some old => SyncDeps_eqb old (syncDepsOf w)
            | None => false
            end); [repeat split|].
  destruct (syncDepsOf w) as [[r st] fin].
  destruct (negb st || fin); repeat split.
Qed.

Lemma commit_settled (w : World) :
  w.(creditDeps) = Some (creditDepsOf w) ->
  let w' := commit w in
  w'.(cells) = w.(cells)
  /\ w'.(creditTimer) = w.(creditTimer)
  /\ w'.(creditDeps) = Some (creditDepsOf w')
  /\ w'.(parentCalls) = w.(parentCalls)
  /\ w'.(hook) = w.(hook)
  /\ w'.(lastSyncCreditsRef) = w.(lastSyncCreditsRef).
Proof.
  intros Hd. cbv zeta. unfold commit.
  assert (Hc : commitCreditEffect w = w).
  { unfold commitCreditEffect. rewrite Hd, CreditDeps_eqb_refl. reflexivity. }
  rewrite Hc.
  destruct (commitSyncEffect_frame w) as (H1 & H2 & H3 & H4 & H5 & H6).
  repeat split; try assumption.
  rewrite H3, Hd. unfold creditDepsOf. rewrite H1, H5. reflexivity.
Qed.

(** What the credit effect leaves alone, and what it records. *)
Lemma commitCreditEffect_frame (w : World) :
  let w' := commitCreditEffect w in
  w'.(cells) = w.(cells)
  /\ w'.(parentCalls) = w.(parentCalls)
  /\ w'.(hook) = w.(hook)
  /\ w'.(lastSyncCreditsRef) = w.(lastSyncCreditsRef)
  /\ w'.(syncInterval) = w.(syncInterval)
  /\ w'.(syncDeps) = w.(syncDeps)
  /\ w'.(creditDeps) = Some (creditDepsOf w).
Proof.
  cbv zeta. unfold commitCreditEffect.
  destruct (match creditDeps w with
            | Some old => CreditDeps_eqb old (creditDepsOf w)
            | None => false
            end) eqn:He.
  - repeat split.
    destruct (creditDeps w) as [old|]; [|discriminate].
    apply CreditDeps_eqb_eq in He. congruence.
  - destruct (creditDepsOf w) as [[[st conn] fin] modal].
    destruct (negb st || negb conn || fin || modal); repeat split.
Qed.

(** What a render leaves alone in any case. *)
Lemma commit_frame (w : World) :
  let w' := commit w in
  w'.(cells) = w.(cells)
  /\ w'.(parentCalls) = w.(parentCalls)
  /\ w'.(hook) = w.(hook)
  /\ w'.(lastSyncCreditsRef) = w.(lastSyncCreditsRef)
  /\ w'.(creditDeps) = Some (creditDepsOf w').
Proof.
  cbv zeta. unfold commit.
  destruct (commitSyncEffect_frame (commitCreditEffect w))
    as (H1 & H2 & H3 & H4 & H5 & H6).
  destruct (commitCreditEffect_frame w)
    as (G1 & G2 & G3 & G4 & G5 & G6 & G7).
  unfold creditDepsOf in *.
  rewrite H1, H3, H4, H5, H6, G1, G2, G3, G4, G7.
  repeat split.
Qed.

(** After a render in which the session is finishing, no interval is armed. *)
Lemma commit_finishing (w : World) :
  w.(creditTimer) = None ->
  w.(cells).(isFinishing) = true ->
  (commit w).(creditTimer) = None.
Proof.
  intros Ht Hf. unfold commit.
  destruct (commitSyncEffect_frame (commitCreditEffect w))
    as (_ & H2 & _). rewrite H2.
  unfold commitCreditEffect.
  destruct (match creditDeps w with
            | Some old => CreditDeps_eqb old (creditDepsOf w)
            | None => false
            end); [exact Ht|].
  unfold creditDepsOf. rewrite Hf.
  destruct (hasStarted (cells w)), (Bridge.isConnected (hook w)),
    (showCreditModal (cells w)); reflexivity.
Qed.

(** Each tick of an armed interval takes one second off, floored at 0. *)
Lemma creditTick_law (t : Z) (w : World) :
  w.(creditTimer) <> None ->
  (creditTick generateContent t w).(cells).(remainingCredits)
  = Z.max (w.(cells).(remainingCredits) - 1) 0.
Proof.
  intros Ht. unfold creditTick.
  destruct (creditTimer w) as [seen|]; [|congruence].
  destruct (Z.leb_spec (remainingCredits (cells w) - 1) 0); cbn; lia.
Qed.

Lemma tick_decrements (t : Z) (w : World) :
  ticking w -> 1 < w.(cells).(remainingCredits) ->
  let w' := step w (CreditTick t) in
  ticking w'
  /\ w'.(cells).(remainingCredits) = w.(cells).(remainingCredits) - 1
  /\ w'.(parentCalls) = w.(parentCalls)
  /\ w'.(cells).(showCreditModal) = w.(cells).(showCreditModal).
Proof.
  intros (seen & Ht & Hf & Hd) Hr. cbv zeta.
  unfold Session.step, handle, creditTick. rewrite Ht.
  destruct (Z.leb_spec (remainingCredits (cells w) - 1) 0); [lia|].
  set (w1 := setState _ w).
  assert (Hd1 : creditDeps w1 = Some (creditDepsOf w1)) by exact Hd.
  destruct (commit_settled w1 Hd1) as (H1 & H2 & H3 & H4 & H5 & H6).
  split; [|rewrite H1, H4; repeat split].
  exists seen. rewrite H2. repeat split; assumption.
Qed.

(** [handleFinish] from a render that was not finishing: it marks the
    session finishing, tears the hook down and completes exactly once. *)
Lemma handleFinish_effect (seen : Cells) (t : Z) (forced : option Z)
  (w : World) :
  seen.(isFinishing) = false ->
  exists result duration,
    let w' := handleFinish generateContent seen t forced w in
    w'.(cells) = set_isFinishing true w.(cells)
    /\ w'.(parentCalls)
       = (w.(parentCalls)
          ++ [Complete result duration
                (match forced with
                 | Some c => c
                 | None => seen.(remainingCredits)
                 end)])%list
    /\ w'.(hook) = BridgeProps.disconnected w.(hook)
    /\ w'.(creditTimer) = w.(creditTimer)
    /\ w'.(creditDeps) = w.(creditDeps)
    /\ w'.(syncInterval) = w.(syncInterval)
    /\ w'.(syncDeps) = w.(syncDeps)
    /\ w'.(lastSyncCreditsRef) = w.(lastSyncCreditsRef).
Proof.
  intros Hf. unfold handleFinish. rewrite Hf.
  cbn [hook setState set_cells].
  rewrite BridgeProps.disconnect_closed_form.
  destruct w as [c ft ls us hk sc ct cd si sd uts pc].
  eexists. eexists. cbv zeta.
  destruct us as [tracks|]; cbn -[Gemini.evaluateSession];
    repeat split; reflexivity.
Qed.

Lemma tick_exhausts (t : Z) (w : World) :
  ticking w -> w.(cells).(remainingCredits) <= 1 ->
  let w' := step w (CreditTick t) in
  idle w'
  /\ w'.(cells).(remainingCredits) = 0
  /\ w'.(cells).(showCreditModal) = true
  /\ exists result duration,
       w'.(parentCalls)
       = (w.(parentCalls)
          ++ [UpdateCredits 0; Complete result duration 0])%list.
Proof.
  intros (seen & Ht & Hf & Hd) Hr. cbv zeta.
  unfold Session.step, handle, creditTick. rewrite Ht.
  destruct (Z.leb_spec (remainingCredits (cells w) - 1) 0); [|lia].
  destruct (handleFinish_effect seen t (Some 0)
              (callParent (UpdateCredits 0) (set_creditTimer None w)) Hf)
    as (result & duration & Hc & Hp & _ & Htm & _).
  cbv zeta in Hc, Hp, Htm.
  set (w3 := handleFinish generateContent seen t (Some 0) _) in *.
  set (w5 := setState (set_remainingCredits 0)
               (setState (set_showCreditModal true) w3)).
  destruct (commit_frame w5) as (H1 & H4 & _ & _ & H7).
  assert (Hc5 : cells w5
                = set_remainingCredits 0
                    (set_showCreditModal true (cells w3))) by reflexivity.
  split; [split|].
  - apply commit_finishing.
    + change (creditTimer w3 = None). rewrite Htm. reflexivity.
    + rewrite Hc5, Hc. reflexivity.
  - exact H7.
  - rewrite H1, H4, Hc5. repeat split.
    exists result, duration.
    change (parentCalls w5) with (parentCalls w3). rewrite Hp.
    cbn [callParent set_parentCalls parentCalls set_creditTimer].
    rewrite <- app_assoc. reflexivity.
Qed.

Lemma tick_idle (t : Z) (w : World) :
  idle w ->
  let w' := step w (CreditTick t) in
  idle w'
  /\ w'.(cells) = w.(cells)
  /\ w'.(parentCalls) = w.(parentCalls).
Proof.
  intros [Ht Hd]. cbv zeta.
  unfold Session.step, handle, creditTick. rewrite Ht.
  destruct (commit_settled w Hd) as (H1 & H2 & H3 & H4 & H5 & H6).
  repeat split; congruence.
Qed.

Lemma session_run_cons (e : Event) (es : list Event) (w : World) :
  run (e :: es) w = run es (step w e).
Proof. reflexivity. Qed.

Lemma finishes_forced (w w' : World) (result : Gemini.SessionResult)
  (duration : Q) :
  w'.(parentCalls)
  = (w.(parentCalls) ++ [UpdateCredits 0; Complete result duration 0])%list ->
  finishes w' = S (finishes w) /\ In (UpdateCredits 0) w'.(parentCalls).
Proof.
  intros Hp. unfold finishes. rewrite Hp, filter_app, length_app. cbn.
  split; [lia|]. apply in_or_app. right. left. reflexivity.
Qed.

(** Counting down: all but the last tick only decrement. *)
Lemma ticks_prefix (k : nat) :
  forall (ts : list Z) (w : World),
    ticking w ->
    w.(cells).(remainingCredits) = Z.of_nat (length ts) ->
    (k < length ts)%nat ->
    let wk := run (ticks (firstn k ts)) w in
    ticking wk
    /\ wk.(cells).(remainingCredits) = Z.of_nat (length ts) - Z.of_nat k
    /\ wk.(parentCalls) = w.(parentCalls).
Proof.
  induction k as [|k IH]; intros ts w Ht Hr Hk; cbv zeta.
  - cbn [firstn ticks map Session.run fold_left]. repeat split; [assumption|lia].
  - destruct ts as [|t ts]; [cbn in Hk; lia|].
    cbn [firstn ticks map]. cbn [length] in Hr, Hk.
    change (map CreditTick (firstn k ts)) with (ticks (firstn k ts)).
    rewrite session_run_cons.
    destruct (tick_decrements t w Ht) as (Ht1 & Hr1 & Hp1 & _); [lia|].
    destruct (IH ts (step w (CreditTick t)) Ht1) as (Ht2 & Hr2 & Hp2);
      [lia | lia |].
    cbv zeta in Ht2, Hr2, Hp2.
    repeat split; [assumption | cbn [length]; lia | congruence].
Qed.

(** Counting down to zero. *)
Lemma ticks_countdown :
  forall (ts : list Z) (w : World),
    ticking w ->
    ts <> [] ->
    w.(cells).(remainingCredits) = Z.of_nat (length ts) ->
    let w' := run (ticks ts) w in
    idle w'
    /\ w'.(cells).(remainingCredits) = 0
    /\ w'.(cells).(showCreditModal) = true
    /\ exists result duration,
         w'.(parentCalls)
         = (w.(parentCalls)
            ++ [UpdateCredits 0; Complete result duration 0])%list.
Proof.
  induction ts as [|t ts IH]; intros w Ht Hne Hr; [congruence|].
  cbv zeta. cbn [ticks map]. change (map CreditTick ts) with (ticks ts).
  rewrite session_run_cons. cbn [length] in Hr.
  destruct ts as [|t' ts'].
  - cbn [ticks map Session.run fold_left].
    apply tick_exhausts; [assumption | cbn in Hr; lia].
  - destruct (tick_decrements t w Ht) as (Ht1 & Hr1 & Hp1 & _);
      [cbn [length] in Hr; lia|].
    destruct (IH (step w (CreditTick t)) Ht1) as (Hi & Hz & Hm & r & d & Hp);
      [discriminate | cbn [length] in *; lia |].
    cbv zeta in Hi, Hz, Hm, Hp.
    repeat split; try assumption; try apply Hi.
    exists r, d. rewrite Hp, Hp1. reflexivity.
Qed.

(** Once no interval is armed, ticks change nothing the parent can see. *)
Lemma ticks_idle :
  forall (ts : list Z) (w : World),
    idle w ->
    let w' := run (ticks ts) w in
    idle w' /\ w'.(cells) = w.(cells) /\ w'.(parentCalls) = w.(parentCalls).
Proof.
  induction ts as [|t ts IH]; intros w Hi; cbv zeta.
  - repeat split; apply Hi.
  - cbn [ticks map]. change (map CreditTick ts) with (ticks ts).
    rewrite session_run_cons.
    destruct (tick_idle t w Hi) as (Hi1 & Hc1 & Hp1).
    destruct (IH (step w (CreditTick t)) Hi1) as (Hi2 & Hc2 & Hp2).
    cbv zeta in Hi2, Hc2, Hp2.
    repeat split; try apply Hi2; congruence.
Qed.

(** C5. While the interval is armed every tick takes exactly one second off
    the remaining credits, floored at 0. Started with as many seconds as
    there are ticks (65 seconds and 65 ticks, say), the ticks before the last
    only count down; after the last the remaining credits are 0, the interval
    is cancelled, the out-of-credits modal is raised, 0 has been pushed to
    the parent, and the session has been finished exactly once, however many
    further ticks are attempted. *)
Theorem credit_timer_exhaustion (w : World) (ts : list Z) :
  ticking w ->
  ts <> [] ->
  w.(cells).(remainingCredits) = Z.of_nat (length ts) ->
  (forall t w0,
      w0.(creditTimer) <> None ->
      (creditTick generateContent t w0).(cells).(remainingCredits)
      = Z.max (w0.(cells).(remainingCredits) - 1) 0)
  /\ (forall k, (k < length ts)%nat ->
        let wk := run (ticks (firstn k ts)) w in
        wk.(cells).(remainingCredits) = Z.of_nat (length ts) - Z.of_nat k
        /\ finishes wk = finishes w)
  /\ let w' := run (ticks ts) w in
     w'.(cells).(remainingCredits) = 0
     /\ w'.(creditTimer) = None
     /\ w'.(cells).(showCreditModal) = true
     /\ In (UpdateCredits 0) w'.(parentCalls)
     /\ finishes w' = S (finishes w)
     /\ forall more,
          let w'' := run (ticks more) w' in
          w''.(cells).(remainingCredits) = 0
          /\ w''.(creditTimer) = None
          /\ finishes w'' = S (finishes w).
Proof.
  intros Ht Hne Hr. split; [|split].
  - intros t w0. apply creditTick_law.
  - intros k Hk. cbv zeta.
    destruct (ticks_prefix k ts w Ht Hr Hk) as (_ & Hrk & Hpk).
    cbv zeta in Hrk, Hpk.
    split; [exact Hrk|]. unfold finishes. rewrite Hpk. reflexivity.
  - cbv zeta.
    destruct (ticks_countdown ts w Ht Hne Hr) as (Hi & Hz & Hm & r & d & Hp).
    cbv zeta in Hi, Hz, Hm, Hp.
    destruct (finishes_forced w _ r d Hp) as (Hfin & Hin).
    repeat split; try assumption; try apply Hi.
    + destruct (ticks_idle more _ Hi) as (_ & Hc & _).
      cbv zeta in Hc. rewrite Hc. exact Hz.
    + destruct (ticks_idle more _ Hi) as (Hi2 & _ & _). apply Hi2.
    + destruct (ticks_idle more _ Hi) as (_ & _ & Hp2).
      cbv zeta in Hp2. unfold finishes in *. rewrite Hp2. exact Hfin.
Qed.

(** *** The periodic sync *)

(** The sync effect has seen the current dependencies, and an armed sync
    interval closes over the current remaining credits. *)
Definition syncCurrent (w : World) : Prop :=
  w.(syncDeps) = Some (syncDepsOf w)
  /\ forall seen,
       w.(syncInterval) = Some seen ->
       seen.(remainingCredits) = w.(cells).(remainingCredits).

(** What every handler leaves alone: the sync interval, the dependencies its
    effect has seen, and the sign of the remaining credits. *)
Definition syncFramed (w w' : World) : Prop :=
  w'.(syncInterval) = w.(syncInterval)
  /\ w'.(syncDeps) = w.(syncDeps)
  /\ (0 <= w.(cells).(remainingCredits) ->
      0 <= w'.(cells).(remainingCredits)).

Lemma syncFramed_refl (w : World) : syncFramed w w.
Proof. repeat split. trivial. Qed.

Lemma syncFramed_trans (a b c : World) :
  syncFramed a b -> syncFramed b c -> syncFramed a c.
Proof.
  intros (H1 & H2 & H3) (G1 & G2 & G3). repeat split; try congruence. auto.
Qed.

Lemma SyncDeps_eqb_eq (a b : SyncDeps) : SyncDeps_eqb a b = true -> a = b.
Proof.
  destruct a as [[a1 a2] a3], b as [[b1 b2] b3]. cbn.
  intros H. apply andb_prop in H. destruct H as [H H3].
  apply andb_prop in H. destruct H as [H1 H2].
  apply Z.eqb_eq in H1. apply Bool.eqb_prop in H2, H3. congruence.
Qed.

Lemma onTranscriptUpdate_framed (seen : Cells) (t : Z) (d : Bridge.Delta)
  (w : World) :
  syncFramed w (onTranscriptUpdate seen t d w).
Proof.
  unfold onTranscriptUpdate. destruct d as [txt isUser].
  destruct (currentTurnRole seen) as [open|];
    [destruct (negb (Role_eqb open (if isUser then User else Model)))|];
    repeat split; trivial.
Qed.

Lemma deliver_framed (dateNow currentTime : Z) (m : Bridge.ServerMessage)
  (w : World) :
  syncFramed w (deliver decodeAudioData dateNow currentTime m w).
Proof.
  unfold deliver. destruct (sessionCallback w) as [seen|];
    [|apply syncFramed_refl].
  apply syncFramed_trans with
    (b := fold_left (fun w d => onTranscriptUpdate seen dateNow d w)
            (Bridge.transcriptDeltas m) w);
    [|repeat split; trivial].
  generalize (Bridge.transcriptDeltas m) as ds. intros ds. revert w.
  induction ds as [|d ds IH]; intros w; cbn [fold_left].
  - apply syncFramed_refl.
  - eapply syncFramed_trans; [apply onTranscriptUpdate_framed | apply IH].
Qed.

Lemma handleFinish_framed (seen : Cells) (t : Z) (forced : option Z)
  (w : World) :
  syncFramed w (handleFinish generateContent seen t forced w)
  /\ (handleFinish generateContent seen t forced w).(lastSyncCreditsRef)
     = w.(lastSyncCreditsRef)
  /\ (handleFinish generateContent seen t forced w).(cells).(remainingCredits)
     = w.(cells).(remainingCredits).
Proof.
  destruct (isFinishing seen) eqn:Hf.
  - unfold handleFinish. rewrite Hf. repeat split. trivial.
  - destruct (handleFinish_effect seen t forced w Hf)
      as (r & d & Hc & _ & _ & _ & _ & Hsi & Hsd & Hl).
    cbv zeta in *. unfold syncFramed. rewrite Hc, Hsi, Hsd, Hl.
    repeat split. trivial.
Qed.

Lemma creditTick_framed (t : Z) (w : World) :
  let w' := creditTick generateContent t w in
  syncFramed w w'
  /\ w'.(lastSyncCreditsRef) = w.(lastSyncCreditsRef)
  /\ (0 <= w.(cells).(remainingCredits) ->
      w.(cells).(remainingCredits) - 1 <= w'.(cells).(remainingCredits)
      <= w.(cells).(remainingCredits)).
Proof.
  cbv zeta. unfold creditTick.
  destruct (creditTimer w) as [seen|];
    [|split; [apply syncFramed_refl | split; [reflexivity | lia]]].
  destruct (Z.leb_spec (remainingCredits (cells w) - 1) 0).
  - destruct (handleFinish_framed seen t (Some 0)
                (callParent (UpdateCredits 0) (set_creditTimer None w)))
      as ((Hsi & Hsd & _) & Hl & _).
    unfold syncFramed.
    cbn [setState set_cells cells syncInterval syncDeps lastSyncCreditsRef
           set_remainingCredits remainingCredits].
    rewrite Hsi, Hsd, Hl. repeat split; intros; lia.
  - unfold syncFramed. cbn. repeat split; intros; lia.
Qed.

Lemma handle_framed (e : Event) (w : World) :
  syncFramed w (handle decodeAudioData generateContent e w).
Proof.
  destruct e as [env| |dateNow currentTime m|n|t| |t]; cbn [handle].
  - unfold handleStart.
    destruct (userCredits env <=? 0); [repeat split; trivial|].
    destruct (camera env) as [tracks|]; [|repeat split; trivial].
    cbv zeta.
    match goal with
    | |- context [match ?x with Some _ => _ | None => _ end] => destruct x
    end; repeat split; trivial.
  - repeat split; trivial.
  - apply deliver_framed.
  - repeat split; trivial.
  - apply creditTick_framed.
  - unfold syncFire. destruct (syncInterval w) as [seen|];
      [|apply syncFramed_refl].
    destruct (5 <=? _); repeat split; trivial.
  - apply handleFinish_framed.
Qed.

(** A render brings the sync effect up to date. *)
Lemma commit_syncCurrent (w0 w : World) :
  syncCurrent w0 -> syncFramed w0 w -> syncCurrent (commit w).
Proof.
  intros (Hd0 & Hs0) (Hsi & Hsd & _). unfold commit.
  destruct (commitCreditEffect_frame w)
    as (G1 & _ & _ & _ & G5 & G6 & _).
  set (x := commitCreditEffect w) in *.
  unfold commitSyncEffect.
  destruct (match syncDeps x with
            | Some old => SyncDeps_eqb old (syncDepsOf x)
            | None => false
            end) eqn:He.
  - rewrite G6, Hsd, Hd0 in He. apply SyncDeps_eqb_eq in He.
    split.
    + rewrite G6, Hsd, Hd0, He. reflexivity.
    + intros seen Hseen. rewrite G5, Hsi in Hseen.
      rewrite (Hs0 seen Hseen).
      unfold syncDepsOf in He. congruence.
  - destruct (syncDepsOf x) as [[r st] fin] eqn:Hdeps.
    unfold syncCurrent, syncDepsOf in *.
    destruct (negb st || fin); cbn;
      (split; [congruence | intros seen Hseen; inversion Hseen; reflexivity]).
Qed.

Lemma mount_syncCurrent (c : Z) : syncCurrent (commit (mount c)).
Proof.
  split; [reflexivity|]. intros seen H. discriminate.
Qed.

Lemma step_syncCurrent (w : World) (e : Event) :
  syncCurrent w -> syncCurrent (step w e).
Proof.
  intros Hw. unfold Session.step.
  apply (commit_syncCurrent w); [assumption | apply handle_framed].
Qed.

Lemma step_nonneg (w : World) (e : Event) :
  0 <= w.(cells).(remainingCredits) ->
  0 <= (step w e).(cells).(remainingCredits).
Proof.
  intros H. unfold Session.step.
  destruct (commit_frame (handle decodeAudioData generateContent e w))
    as (Hc & _). rewrite Hc.
  apply (handle_framed e w). exact H.
Qed.

Lemma run_reachable (c : Z) (es : list Event) :
  0 <= c ->
  syncCurrent (run es (commit (mount c)))
  /\ 0 <= (run es (commit (mount c))).(cells).(remainingCredits).
Proof.
  intros Hc.
  assert (H : syncCurrent (commit (mount c))
              /\ 0 <= (commit (mount c)).(cells).(remainingCredits))
    by (split; [apply mount_syncCurrent | exact Hc]).
  revert H. generalize (commit (mount c)) as w. intros w.
  revert w. induction es as [|e es IH]; intros w [Hs Hn]; [split; assumption|].
  rewrite session_run_cons. apply IH. split.
  - apply step_syncCurrent; assumption.
  - apply step_nonneg; assumption.
Qed.

(** Drift against the value last pushed by the sync. *)
Definition drift (w : World) : Z :=
  Z.abs (w.(lastSyncCreditsRef) - w.(cells).(remainingCredits)).

Lemma syncFire_spec (w : World) :
  syncCurrent w ->
  let w' := step w SyncFire in
  (w.(syncInterval) <> None ->
   (5 <= drift w ->
    w'.(parentCalls)
    = (w.(parentCalls)
       ++ [UpdateCredits w.(cells).(remainingCredits)])%list
    /\ w'.(lastSyncCreditsRef) = w.(cells).(remainingCredits))
   /\ (drift w < 5 ->
       w'.(parentCalls) = w.(parentCalls)
       /\ w'.(lastSyncCreditsRef) = w.(lastSyncCreditsRef))
   /\ drift w' < 5)
  /\ (w.(syncInterval) = None ->
      w'.(parentCalls) = w.(parentCalls)
      /\ w'.(lastSyncCreditsRef) = w.(lastSyncCreditsRef))
  /\ w'.(cells).(remainingCredits) = w.(cells).(remainingCredits).
Proof.
  intros (_ & Hseen). cbv zeta. unfold Session.step, drift.
  destruct (commit_frame (handle decodeAudioData generateContent SyncFire w))
    as (Hc & Hp & _ & Hl & _).
  rewrite Hc, Hp, Hl. cbn [handle]. unfold syncFire.
  destruct (syncInterval w) as [seen|].
  - rewrite (Hseen seen eq_refl).
    destruct (Z.leb_spec 5
                (Z.abs (lastSyncCreditsRef w - remainingCredits (cells w))));
      cbn; repeat split; intros; try congruence; try lia.
  - repeat split; intros; congruence.
Qed.

Lemma ticks_drift :
  forall (ts : list Z) (w : World),
    0 <= w.(cells).(remainingCredits) ->
    drift (run (ticks ts) w) <= drift w + Z.of_nat (length ts).
Proof.
  induction ts as [|t ts IH]; intros w Hn.
  - cbn. lia.
  - cbn [ticks map]. change (map CreditTick ts) with (ticks ts).
    rewrite session_run_cons.
    assert (Hstep : drift (step w (CreditTick t)) <= drift w + 1
                    /\ 0 <= (step w (CreditTick t)).(cells).(remainingCredits)).
    { unfold Session.step, drift.
      destruct (commit_frame
                  (handle decodeAudioData generateContent (CreditTick t) w))
        as (Hc & _ & _ & Hl & _).
      rewrite Hc, Hl. cbn [handle].
      destruct (creditTick_framed t w) as ((_ & _ & Hnn) & Hl' & Hr).
      cbv zeta in Hl', Hr. rewrite Hl'.
      specialize (Hr Hn). specialize (Hnn Hn). lia. }
    destruct Hstep as [Hd Hn1].
    specialize (IH (step w (CreditTick t)) Hn1).
    cbn [length]. lia.
Qed.

(** C8, amended. In every world a session can reach, a run of the
    reconciliation callback pushes the current remaining credits to the
    parent exactly when they differ by at least 5 from the value last
    synced, and leaves a drift below 5; after [k] further one-second ticks
    the drift is at most that much plus [k]. *)
Theorem sync_pushes_on_drift (credits : Z) (es : list Event) :
  0 <= credits ->
  let w := run es (commit (mount credits)) in
  let w' := step w SyncFire in
  (w.(syncInterval) <> None ->
   (5 <= drift w ->
    w'.(parentCalls)
    = (w.(parentCalls)
       ++ [UpdateCredits w.(cells).(remainingCredits)])%list
    /\ w'.(lastSyncCreditsRef) = w.(cells).(remainingCredits))
   /\ (drift w < 5 -> w'.(parentCalls) = w.(parentCalls))
   /\ drift w' < 5
   /\ forall ts : list Z,
        drift (run (ticks ts) w') < 5 + Z.of_nat (length ts))
  /\ (w.(syncInterval) = None -> w'.(parentCalls) = w.(parentCalls)).
Proof.
  intros Hc. cbv zeta.
  destruct (run_reachable credits es Hc) as (Hs & Hn).
  destruct (syncFire_spec _ Hs) as (Harmed & Hnone & Hrem).
  cbv zeta in Harmed, Hnone, Hrem.
  split.
  - intros Hsi. destruct (Harmed Hsi) as (H5 & Hlt & Hd).
    repeat split; try apply H5; try assumption.
    + intros H. apply Hlt. exact H.
    + intros ts.
      pose proof (ticks_drift ts (step (run es (commit (mount credits))) SyncFire))
        as Ht.
      rewrite Hrem in Ht. specialize (Ht Hn). lia.
  - intros Hsi. apply Hnone. exact Hsi.
Qed.

End Collaborators.

Lemma started_65_ticking : ticking (started 65).
Proof. eexists. vm_compute. repeat split. Qed.

Lemma credit_timer_exhaustion_witness :
  (started 65).(cells).(remainingCredits) = 65
  /\ (creditTick offline 0 (started 65)).(cells).(remainingCredits)
     = Z.max (65 - 1) 0
  /\ (forall k, (k < 65)%nat ->
        let wk :=
          Session.run decodesTo2 offline (ticks (firstn k (repeat 0 65)))
                      (started 65) in
        wk.(cells).(remainingCredits) = 65 - Z.of_nat k
        /\ finishes wk = 0%nat)
  /\ let w' :=
       Session.run decodesTo2 offline (ticks (repeat 0 65)) (started 65) in
     w'.(cells).(remainingCredits) = 0
     /\ w'.(creditTimer) = None
     /\ w'.(cells).(showCreditModal) = true
     /\ In (UpdateCredits 0) w'.(parentCalls)
     /\ finishes w' = 1%nat
     /\ forall more,
          let w'' := Session.run decodesTo2 offline (ticks more) w' in
          w''.(cells).(remainingCredits) = 0
          /\ w''.(creditTimer) = None
          /\ finishes w'' = 1%nat.
Proof.
  assert (Hne : repeat 0 65 <> []) by discriminate.
  assert (Hlen : (started 65).(cells).(remainingCredits)
                 = Z.of_nat (length (repeat 0 65))) by reflexivity.
  pose proof (credit_timer_exhaustion decodesTo2 offline (started 65)
                (repeat 0 65) started_65_ticking Hne Hlen)
    as (Hlaw & Hprefix & Hend).
  split; [reflexivity|]. split; [|split].
  - apply (Hlaw 0 (started 65)). vm_compute. discriminate.
  - intros k Hk. apply (Hprefix k). rewrite repeat_length. exact Hk.
  - exact Hend.
Defined.

(** C8, as stated, fails: six seconds into a session that started with 100
    seconds, nothing has been pushed to the parent and the remaining credits
    are 6 below the value last synced. *)
Lemma drift_exceeds_five_between_syncs :
  let w :=
    Session.run decodesTo2 offline (ticks (repeat 0 6)) (started 100) in
  w.(parentCalls) = []
  /\ w.(lastSyncCreditsRef) = 100
  /\ w.(cells).(remainingCredits) = 94
  /\ ~ drift w <= 5.
Proof.
  vm_compute. repeat split. intros H. apply H. reflexivity.
Qed.

Lemma sync_pushes_on_drift_witness :
  (let w :=
     Session.run decodesTo2 offline
       ([StartClicked (startEnv 100); Opened] ++ ticks (repeat 0 6))
       (commit (mount 100)) in
   let w' := Session.step decodesTo2 offline w SyncFire in
   w'.(parentCalls) = [UpdateCredits 94]
   /\ w'.(lastSyncCreditsRef) = 94
   /\ drift w' < 5)
  /\ (Session.step decodesTo2 offline (commit (mount 100)) SyncFire).(parentCalls)
     = [].
Proof.
  cbv zeta. split.
  - destruct (sync_pushes_on_drift decodesTo2 offline 100
                ([StartClicked (startEnv 100); Opened] ++ ticks (repeat 0 6)))
      as (Harmed & _); [lia|].
    cbv zeta in Harmed.
    destruct Harmed as (Hpush & _ & Hd & _); [vm_compute; discriminate|].
    destruct Hpush as (Hp & Hl); [vm_compute; discriminate|].
    split; [exact Hp | split; [exact Hl | exact Hd]].
  - destruct (sync_pushes_on_drift decodesTo2 offline 100 [])
      as (_ & Hnone); [lia|].
    cbv zeta in Hnone. apply Hnone. reflexivity.
Defined.


End SessionProps.

(* ================================================================== *)
(** * Part III: further properties of the same code *)
(* ================================================================== *)

Module BridgeExtra.
Import Bridge BridgeProps.
Open Scope string_scope.
Open Scope Z_scope.

(** X1. [connect] returns normally and is all or nothing: with a microphone and
    an API key the hook holds the session promise, both contexts, the
    analyser and the stream, with no error and no call recorded; otherwise
    the hook holds nothing, the error message is the one thrown, and both
    contexts [connect] had just created have been closed. *)
Theorem connect_all_or_nothing (env : ConnectEnv) (s : State) :
  let r := connect env s in
  fst r = Normal tt
  /\ match env.(micTracks), env.(apiKey) with
     | Some tracks, true =>
         (snd r).(sessionPromiseRef) = Some env.(handshake)
         /\ (snd r).(inputAudioContextRef) = Some env.(deviceRate)
         /\ (snd r).(outputAudioContextRef) = true
         /\ (snd r).(analyserRef) = true
         /\ (snd r).(streamRef) = Some tracks
         /\ (snd r).(error) = None
         /\ (snd r).(trace) = s.(trace)
     | Some _, false =>
         closed (snd r)
         /\ (snd r).(error)
            = Some "API Key is missing in environment variables"
         /\ In (ContextClose InputContext) (snd r).(trace)
         /\ In (ContextClose OutputContext) (snd r).(trace)
     | None, _ =>
         closed (snd r)
         /\ (snd r).(error) = Some "Microphone access required"
         /\ In (ContextClose InputContext) (snd r).(trace)
         /\ In (ContextClose OutputContext) (snd r).(trace)
     end.
Proof.
  cbv zeta. unfold connect, tryCatch.
  destruct env as [rate mic key hs]. cbn [micTracks apiKey handshake deviceRate].
  destruct mic as [tracks|]; [destruct key|];
    unfold bind, modify, emit, when, throw, ret;
    cbn -[disconnect disconnected];
    rewrite ?disconnect_closed_form; cbn [fst snd].
  - repeat split.
  - split; [reflexivity|]. split; [apply disconnected_closed|].
    split; [reflexivity|].
    cbn [trace disconnected]. unfold releaseCalls. cbn.
    split; apply in_or_app; right; apply in_or_app; right;
      apply in_or_app; right; cbn; auto.
  - split; [reflexivity|]. split; [apply disconnected_closed|].
    split; [reflexivity|].
    cbn [trace disconnected]. unfold releaseCalls. cbn.
    split; apply in_or_app; right; apply in_or_app; right;
      apply in_or_app; right; cbn; auto.
Qed.

(** X2. A transport error always ends with the hook torn down and the message
    surfaced: [onerror] returns normally from every state, leaves nothing
    held, and [error] is the message it was given. *)
Theorem onerror_tears_down (msg : string) (s : State) :
  fst (onerror msg s) = Normal tt
  /\ closed (exec (onerror msg) s)
  /\ (exec (onerror msg) s).(error) = Some msg.
Proof.
  unfold exec, onerror, bind, emit, modify.
  cbn -[disconnect disconnected]. rewrite disconnect_closed_form.
  split; [reflexivity|]. split; [apply disconnected_closed | reflexivity].
Qed.

(** X3. A remote close only clears the two flags: it makes no call and keeps
    every buffer, context and stream; a [disconnect] that follows ends in the
    same state as [disconnect] alone. *)
Theorem onclose_releases_nothing (s : State) :
  let s' := exec onclose s in
  s'.(trace) = s.(trace)
  /\ s'.(sourcesRef) = s.(sourcesRef)
  /\ s'.(sessionPromiseRef) = s.(sessionPromiseRef)
  /\ s'.(inputAudioContextRef) = s.(inputAudioContextRef)
  /\ s'.(outputAudioContextRef) = s.(outputAudioContextRef)
  /\ s'.(streamRef) = s.(streamRef)
  /\ s'.(isConnected) = false
  /\ s'.(isTalking) = false
  /\ exec disconnect s' = exec disconnect s.
Proof.
  cbv zeta. unfold exec. rewrite !disconnect_closed_form.
  unfold onclose, bind, modify. cbn. repeat split.
Qed.

Section Decode.
Variable decodeAudioData : string -> option Z.

(** *** Playing the queue out *)

Definition endedAmong (ns : list nat) (x : Source) : bool :=
  existsb (Nat.eqb x.(node)) ns.

Lemma filter_ended_cons (n : nat) (ns : list nat) (l : list Source) :
  filter (fun x => negb (endedAmong ns x))
         (filter (fun x => negb (x.(node) =? n)%nat) l)
  = filter (fun x => negb (endedAmong (n :: ns) x)) l.
Proof.
  induction l as [|x l IHl]; [reflexivity|].
  cbn [filter]. unfold endedAmong in *. cbn [existsb].
  destruct (node x =? n)%nat; cbn [negb orb filter]; [exact IHl|].
  destruct (existsb (Nat.eqb (node x)) ns); cbn [negb];
    [exact IHl | f_equal; exact IHl].
Qed.

Lemma onended_state (n : nat) (s : State) :
  exists talking,
    onended n s
    = (Normal tt,
       set_isTalking talking
         (set_sourcesRef
            (filter (fun x => negb (x.(node) =? n)%nat) s.(sourcesRef)) s))
    /\ (filter (fun x => negb (x.(node) =? n)%nat) s.(sourcesRef) = []
        -> talking = false).
Proof.
  unfold onended, bind, modify, when. cbn.
  destruct (filter _ (sourcesRef s)) as [|x l] eqn:Hf; cbn.
  - exists false. split; [reflexivity | trivial].
  - exists (isTalking s). split; [|discriminate].
    destruct s; reflexivity.
Qed.

Lemma ended_run_sources (ns : list nat) :
  forall s,
    let s' := exec (run decodeAudioData (map Ended ns)) s in
    s'.(sourcesRef)
    = filter (fun x => negb (endedAmong ns x)) s.(sourcesRef)
    /\ s'.(trace) = s.(trace)
    /\ s'.(nextStartTimeRef) = s.(nextStartTimeRef).
Proof.
  induction ns as [|n ns IH]; intros s; cbv zeta.
  - cbn. repeat split. induction (sourcesRef s) as [|x l IHl]; cbn; congruence.
  - cbn [map]. rewrite bridge_run_cons. cbn [handle].
    destruct (onended_state n s) as (talking & Heq & _).
    assert (E : exec (onended n) s
                = set_isTalking talking
                    (set_sourcesRef
                       (filter (fun x => negb (x.(node) =? n)%nat)
                               s.(sourcesRef)) s))
      by (unfold exec; rewrite Heq; reflexivity).
    rewrite E.
    destruct (IH (set_isTalking talking
                    (set_sourcesRef
                       (filter (fun x => negb (x.(node) =? n)%nat)
                               s.(sourcesRef)) s))) as (H1 & H2 & H3).
    cbv zeta in H1, H2, H3. rewrite H1, H2, H3. cbn.
    repeat split. apply filter_ended_cons.
Qed.

Lemma ended_run_quiet (ns : list nat) :
  forall s,
    ns <> [] ->
    filter (fun x => negb (endedAmong ns x)) s.(sourcesRef) = [] ->
    (exec (run decodeAudioData (map Ended ns)) s).(isTalking) = false.
Proof.
  induction ns as [|n ns IH]; intros s Hne Hall; [congruence|].
  cbn [map]. rewrite bridge_run_cons. cbn [handle].
  destruct (onended_state n s) as (talking & Heq & Htalk).
  assert (E : exec (onended n) s
              = set_isTalking talking
                  (set_sourcesRef
                     (filter (fun x => negb (x.(node) =? n)%nat)
                             s.(sourcesRef)) s))
    by (unfold exec; rewrite Heq; reflexivity).
  rewrite E.
  set (s1 := set_isTalking talking _).
  assert (Hsrc : filter (fun x => negb (endedAmong ns x)) s1.(sourcesRef) = []).
  { subst s1. cbn. rewrite filter_ended_cons. exact Hall. }
  destruct ns as [|n' ns'].
  - cbn. subst s1. cbn. apply Htalk.
    revert Hsrc. cbn.
    generalize (filter (fun x => negb (node x =? n)%nat) (sourcesRef s)).
    intros l. clear. destruct l as [|x l]; [reflexivity | discriminate].
  - apply IH; [discriminate | exact Hsrc].
Qed.

(** X4. Once the [ended] listener has run for every live buffer, in any order and
    possibly for other nodes too, the live set is empty and [isTalking] is
    false; completions make no call and leave the cursor alone. *)
Theorem queue_plays_out (ns : list nat) (s : State) :
  ns <> [] ->
  (forall x, In x s.(sourcesRef) -> In x.(node) ns) ->
  let s' := exec (run decodeAudioData (map Ended ns)) s in
  s'.(sourcesRef) = []
  /\ s'.(isTalking) = false
  /\ s'.(trace) = s.(trace)
  /\ s'.(nextStartTimeRef) = s.(nextStartTimeRef).
Proof.
  intros Hne Hcover. cbv zeta.
  assert (Hall : filter (fun x => negb (endedAmong ns x)) s.(sourcesRef) = []).
  { revert Hcover. induction (sourcesRef s) as [|x l IHl]; intros Hc;
      [reflexivity|].
    cbn [filter].
    assert (Hx : endedAmong ns x = true).
    { unfold endedAmong. apply existsb_exists. exists (node x).
      split; [apply Hc; left; reflexivity | apply Nat.eqb_refl]. }
    rewrite Hx. cbn [negb]. apply IHl. intros y Hy. apply Hc. right. exact Hy. }
  destruct (ended_run_sources ns s) as (H1 & H2 & H3). cbv zeta in H1, H2, H3.
  rewrite H1, H2, H3, Hall.
  repeat split. apply ended_run_quiet; assumption.
Qed.

(** *** Audio and interruption in one message *)

(** X5. A message that carries both audio and the interruption flag plays
    nothing: its buffer is started and then stopped, after the buffers that
    were already live, within the same handler. *)
Theorem interrupted_audio_is_dropped (now : Z) (m : ServerMessage)
  (b : string) (d : Z) (s : State) :
  playbackReady s ->
  JS.truthyStr m.(inlineData) = Some b ->
  decodeAudioData b = Some d ->
  m.(interrupted) = true ->
  let s' := exec (onmessage decodeAudioData now m) s in
  s'.(sourcesRef) = []
  /\ s'.(isTalking) = false
  /\ s'.(nextStartTimeRef) = 0
  /\ s'.(trace)
     = (s.(trace)
        ++ [SourceStart s.(nextNode) (Z.max s.(nextStartTimeRef) now)]
        ++ map (fun x => SourceStop x.(node)) s.(sourcesRef)
        ++ [SourceStop s.(nextNode)])%list.
Proof.
  intros [Hout Hana] Hb Hd Hi. cbv zeta.
  unfold exec, onmessage, bind. rewrite Hb, Hout, Hana, Hi. cbn [andb when].
  unfold handleAudio, tryCatch, bind, modify, emit. rewrite Hd.
  cbn -[handleInterruption]. rewrite handleInterruption_state. cbn.
  repeat split. rewrite map_app, <- !app_assoc. reflexivity.
Qed.

End Decode.

Lemma threeQueued_nodes :
  map node threeQueued.(sourcesRef) = [0; 1; 2]%nat.
Proof. vm_compute. reflexivity. Qed.

Lemma queue_plays_out_witness :
  let s' :=
    exec (run (fun _ => Some 2) (map Ended [2; 0; 7; 1]%nat)) threeQueued in
  threeQueued.(isTalking) = true
  /\ s'.(sourcesRef) = []
  /\ s'.(isTalking) = false
  /\ s'.(trace) = threeQueued.(trace)
  /\ s'.(nextStartTimeRef) = threeQueued.(nextStartTimeRef).
Proof.
  split; [vm_compute; reflexivity|].
  apply (queue_plays_out (fun _ => Some 2) [2; 0; 7; 1]%nat threeQueued).
  - discriminate.
  - intros x Hx. apply (in_map node) in Hx.
    rewrite threeQueued_nodes in Hx.
    destruct Hx as [<-|[<-|[<-|[]]]];
      [right; left | right; right; right; left | left]; reflexivity.
Defined.

Lemma interrupted_audio_is_dropped_witness :
  let m :=
    {| outputTranscription := None;
       inputTranscription := None;
       inlineData := Some "abc";
       interrupted := true |} in
  let s' := exec (onmessage (fun _ => Some 2) 9 m) threeQueued in
  s'.(sourcesRef) = []
  /\ s'.(isTalking) = false
  /\ s'.(nextStartTimeRef) = 0
  /\ s'.(trace)
     = (threeQueued.(trace)
        ++ [SourceStart threeQueued.(nextNode)
              (Z.max threeQueued.(nextStartTimeRef) 9)]
        ++ map (fun x => SourceStop x.(node)) threeQueued.(sourcesRef)
        ++ [SourceStop threeQueued.(nextNode)])%list.
Proof.
  cbv zeta.
  apply (interrupted_audio_is_dropped (fun _ => Some 2) 9 _ "abc" 2
           threeQueued).
  - split; reflexivity.
  - reflexivity.
  - reflexivity.
  - reflexivity.
Defined.

(** *** Stops follow starts *)

Definition startedIn (t : list Effect) (n : nat) : Prop :=
  exists w, In (SourceStart n w) t.

(** Every [stop] call in the trace is made on a node whose [start] call
    comes earlier in the trace. *)
Definition stopsFollowStarts (t : list Effect) : Prop :=
  forall pre n post, t = (pre ++ SourceStop n :: post)%list -> startedIn pre n.

(** The trace is in order and every live buffer has been started. *)
Definition startedLive (s : State) : Prop :=
  stopsFollowStarts s.(trace)
  /\ forall x, In x s.(sourcesRef) -> startedIn s.(trace) x.(node).

Lemma startedIn_app (t extra : list Effect) (n : nat) :
  startedIn t n -> startedIn (t ++ extra) n.
Proof. intros [w H]. exists w. apply in_or_app. left. exact H. Qed.

Lemma stopsFollowStarts_app (t extra : list Effect) :
  stopsFollowStarts t ->
  (forall n, In (SourceStop n) extra -> startedIn t n) ->
  stopsFollowStarts (t ++ extra).
Proof.
  intros Ht Hextra pre n post Heq.
  apply app_eq_app in Heq. destruct Heq as [l [[H1 H2]|[H1 H2]]].
  - destruct l as [|e l].
    + cbn in H2. rewrite app_nil_r in H1. subst t.
      apply Hextra. rewrite <- H2. left. reflexivity.
    + cbn in H2. inversion H2; subst e. apply (Ht pre n l). exact H1.
  - subst pre. apply startedIn_app. apply Hextra.
    rewrite H2. apply in_or_app. right. left. reflexivity.
Qed.

Lemma stop_in_releaseCalls (s : State) (n : nat) :
  In (SourceStop n) (releaseCalls s) ->
  exists x, In x s.(sourcesRef) /\ x.(node) = n.
Proof.
  unfold releaseCalls, sessionRelease. rewrite !in_app_iff.
  intros [[H|H]|[H|[H|[H|H]]]].
  - destruct (sessionPromiseRef s) as [[c|]|]; cbn in H;
      intuition discriminate.
  - destruct (sessionPromiseRef s) as [[[|]|]|]; cbn in H;
      intuition discriminate.
  - apply in_map_iff in H. destruct H as (x & Hx & Hin).
    exists x. split; [exact Hin | congruence].
  - destruct (inputAudioContextRef s); cbn in H; intuition discriminate.
  - destruct (outputAudioContextRef s); cbn in H; intuition discriminate.
  - destruct (streamRef s) as [tracks|]; [|destruct H].
    apply in_map_iff in H. destruct H as (k & Hk & _). discriminate.
Qed.

Lemma startedLive_disconnect (s : State) :
  startedLive s -> startedLive (exec disconnect s).
Proof.
  intros [Ht Hlive]. unfold exec. rewrite disconnect_closed_form. cbn [snd].
  split; [|cbn [sourcesRef disconnected]; intros x []].
  cbn [trace disconnected]. apply stopsFollowStarts_app; [exact Ht|].
  intros n Hn. apply stop_in_releaseCalls in Hn.
  destruct Hn as (x & Hin & <-). apply Hlive. exact Hin.
Qed.

Section Order.
Variable decodeAudioData : string -> option Z.

Lemma startedLive_handleAudio (now : Z) (b : string) (s : State) :
  startedLive s ->
  handleAudio decodeAudioData now b s
  = (Normal tt, exec (handleAudio decodeAudioData now b) s)
  /\ startedLive (exec (handleAudio decodeAudioData now b) s).
Proof.
  intros [Ht Hlive].
  unfold exec, handleAudio, tryCatch, bind, modify, emit, throw.
  destruct (decodeAudioData b) as [d|]; cbn; (split; [reflexivity|]).
  - split.
    + apply stopsFollowStarts_app; [exact Ht|].
      intros n [Hn|[]]. discriminate.
    + intros x Hx. apply in_app_or in Hx. destruct Hx as [Hx|[<-|[]]].
      * apply startedIn_app. apply Hlive. exact Hx.
      * cbn. eexists. apply in_or_app. right. left. reflexivity.
  - split.
    + apply stopsFollowStarts_app; [exact Ht|].
      intros n [Hn|[]]. discriminate.
    + intros x Hx. apply startedIn_app. apply Hlive. exact Hx.
Qed.

Lemma startedLive_handleInterruption (s : State) :
  startedLive s -> startedLive (exec handleInterruption s).
Proof.
  intros [Ht Hlive]. unfold exec. rewrite handleInterruption_state.
  cbn. split; [|intros x []].
  apply stopsFollowStarts_app; [exact Ht|].
  intros n Hn. apply in_map_iff in Hn. destruct Hn as (x & Hx & Hin).
  inversion Hx; subst n. apply Hlive. exact Hin.
Qed.

Lemma startedLive_handle (e : Event) (s : State) :
  startedLive s -> startedLive (exec (handle decodeAudioData e) s).
Proof.
  intros Hs. destruct e as [now m|n]; cbn [handle].
  - assert (Hmid : exists s1,
               (match JS.truthyStr m.(inlineData) with
                | Some base64Audio =>
                    when (s.(outputAudioContextRef) && s.(analyserRef))
                         (handleAudio decodeAudioData now base64Audio) s
                | None => ret tt s
                end) = (Normal tt, s1) /\ startedLive s1).
    { destruct (JS.truthyStr m.(inlineData)) as [b|];
        [|exists s; split; [reflexivity | exact Hs]].
      destruct (s.(outputAudioContextRef) && s.(analyserRef)); cbn [when];
        [|exists s; split; [reflexivity | exact Hs]].
      destruct (startedLive_handleAudio now b s Hs) as [Heq Hinv].
      eexists. split; [exact Heq | exact Hinv]. }
    destruct Hmid as (s1 & Heq & Hs1).
    unfold exec, onmessage, bind. rewrite Heq.
    destruct m.(interrupted); cbn [when].
    + apply (startedLive_handleInterruption s1 Hs1).
    + exact Hs1.
  - destruct Hs as [Ht Hlive].
    destruct (BridgeExtra.onended_state n s) as (talking & Heq & _).
    unfold exec. rewrite Heq. cbn. split; [exact Ht|].
    intros x Hx. apply filter_In in Hx. apply Hlive. tauto.
Qed.

(** X6. Along every run of messages and completions, and through a [disconnect]
    at the end, every [stop] call is made on a node that was started
    earlier; the unguarded [s.stop()] of the interruption path never meets a
    node that was not started. *)
Theorem stops_follow_starts (es : list Event) (s : State) :
  startedLive s ->
  startedLive (exec (run decodeAudioData es) s)
  /\ stopsFollowStarts
       (exec disconnect (exec (run decodeAudioData es) s)).(trace).
Proof.
  intros Hs.
  assert (H : startedLive (exec (run decodeAudioData es) s)).
  { revert s Hs. induction es as [|e es IH]; intros s Hs; [exact Hs|].
    rewrite bridge_run_cons. apply IH. apply startedLive_handle. exact Hs. }
  split; [exact H|]. apply startedLive_disconnect. exact H.
Qed.

End Order.

Lemma stops_follow_starts_witness :
  let es :=
    [Message 5 (audioDelta "a"); Message 6 (audioDelta "b"); Ended 0%nat;
     Message 7 interruption; Message 8 (audioDelta "c")] in
  startedLive (exec (run (fun _ => Some 2) es) opened)
  /\ stopsFollowStarts
       (exec disconnect (exec (run (fun _ => Some 2) es) opened)).(trace).
Proof.
  apply (stops_follow_starts (fun _ => Some 2)).
  split.
  - intros pre n post H. destruct pre; discriminate.
  - intros x [].
Defined.

End BridgeExtra.

Module ResamplerExtra.
Import Resampler ResamplerFacts.

Lemma sourceIndex_step (i : nat) (r : positive) :
  (16000 <= Z.pos r)%Z ->
  (sourceIndex i (Z.pos r) < sourceIndex (S i) (Z.pos r))%Z.
Proof.
  intros Hr. rewrite !sourceIndex_int.
  apply Z.lt_le_trans with ((Z.of_nat i * Z.pos r + 1 * 16000) / 16000)%Z.
  - rewrite Z.div_add by lia. lia.
  - apply Z.div_le_mono; lia.
Qed.

(** X7. When the device rate is at least 16 kHz the resampler only drops
    samples: the output is never longer than the input and successive output
    samples come from strictly increasing input positions, so no input
    sample is sent twice. When the device rate is at most 16 kHz the output
    is never shorter than the input. *)
Theorem decimation_drops_only (sample : Type) (NaN : sample) (r : positive)
  (inputData : list sample) :
  ((16000 <= Z.pos r)%Z ->
   (length (resample NaN (Some r) inputData) <= length inputData)%nat
   /\ forall i j : nat,
        (i < j)%nat ->
        (sourceIndex i (Z.pos r) < sourceIndex j (Z.pos r))%Z)
  /\ ((Z.pos r <= 16000)%Z ->
      (length inputData <= length (resample NaN (Some r) inputData))%nat).
Proof.
  assert (Hlen : Z.pos r <> 16000%Z ->
                 Z.of_nat (length (resample NaN (Some r) inputData))
                 = (Z.of_nat (length inputData) * 16000 / Z.pos r)%Z).
  { intros Hne.
    rewrite (ResamplerProps.resample_length sample NaN (Some r) inputData Hne).
    apply newLength_int. }
  split.
  - intros Hr. split.
    + destruct (Z.eq_dec (Z.pos r) 16000) as [E|Hne].
      * rewrite (ResamplerProps.resample_same_rate sample NaN (Some r)
                   inputData E). lia.
      * specialize (Hlen Hne).
        assert (Z.of_nat (length inputData) * 16000 / Z.pos r
                <= Z.of_nat (length inputData))%Z.
        { apply Z.div_le_upper_bound; [lia | nia]. }
        lia.
    + intros i j Hij. induction Hij as [|j Hij IH].
      * apply sourceIndex_step. exact Hr.
      * eapply Z.lt_trans; [exact IH | apply sourceIndex_step; exact Hr].
  - intros Hr.
    destruct (Z.eq_dec (Z.pos r) 16000) as [E|Hne].
    + rewrite (ResamplerProps.resample_same_rate sample NaN (Some r)
                 inputData E). lia.
    + specialize (Hlen Hne).
      assert (Z.of_nat (length inputData)
              <= Z.of_nat (length inputData) * 16000 / Z.pos r)%Z.
      { apply Z.div_le_lower_bound; [lia | nia]. }
      lia.
Qed.

Lemma decimation_drops_only_witness :
  (length (resample 0%Z (Some 44100%positive) [1; 2; 3; 4; 5; 6; 7]%Z)
   <= length [1; 2; 3; 4; 5; 6; 7]%Z)%nat
  /\ (sourceIndex 1 44100 < sourceIndex 2 44100)%Z
  /\ (length [1; 2; 3]%Z
      <= length (resample 0%Z (Some 8000%positive) [1; 2; 3]%Z))%nat.
Proof.
  split; [|split].
  - apply (proj1 (decimation_drops_only Z 0%Z 44100 [1; 2; 3; 4; 5; 6; 7]%Z)).
    lia.
  - apply (proj1 (decimation_drops_only Z 0%Z 44100 [1; 2; 3; 4; 5; 6; 7]%Z));
      lia.
  - apply (proj2 (decimation_drops_only Z 0%Z 8000 [1; 2; 3]%Z)). lia.
Defined.

End ResamplerExtra.

Module GeminiExtra.
Import JS Gemini GeminiProps.
Open Scope string_scope.

(** X8. The collaborator is called at most once per evaluation, with the
    transcript as given, and only for a transcript whose trimmed length is at
    least 10; whatever path is taken, the result carries the transcript
    unchanged. *)
Theorem evaluation_calls_once
  (generateContent : string -> ApiOutcome) (t : string) :
  let '(result, sent) := evaluateSession generateContent t in
  transcript result = t
  /\ (length sent <= 1)%nat
  /\ forall prompt, In prompt sent ->
       prompt = t /\ (10 <= String.length (trim t))%nat.
Proof.
  unfold evaluateSession.
  destruct (t =? "") eqn:He; cbn [orb].
  - split; [reflexivity|]. split; [cbn; lia|]. intros p [].
  - destruct (Nat.ltb_spec (String.length (trim t)) 10) as [Hlt|Hge].
    + split; [reflexivity|]. split; [cbn; lia|]. intros p [].
    + destruct (generateContent t) as [|answer];
        (split; [reflexivity|]); (split; [cbn; lia|]);
        intros p [<-|[]]; (split; [reflexivity | exact Hge]).
Qed.

Lemma evaluation_calls_once_witness :
  let '(result, sent) :=
    evaluateSession (fun _ => ApiThrows) "User: hello there my friend" in
  sent = ["User: hello there my friend"]
  /\ transcript result = "User: hello there my friend"
  /\ (10 <= String.length (trim "User: hello there my friend"))%nat.
Proof.
  pose proof (evaluation_calls_once (fun _ => ApiThrows)
                "User: hello there my friend") as H.
  cbn in H. destruct H as (Ht & _ & Hin).
  split; [reflexivity|]. split; [exact Ht|].
  apply (Hin "User: hello there my friend"). left. reflexivity.
Defined.

(** An optional score of the answer lies in 0..100 when present. *)
Definition inRange (x : option Z) : Prop :=
  match x with
  | Some v => (0 <= v <= 100)%Z
  | None => True
  end.

Lemma orNum_inRange (x : option Z) :
  inRange x -> (0 <= orNum x 0 <= 100)%Z.
Proof.
  destruct x as [v|]; cbn; [|lia].
  destruct (Z.eqb_spec v 0); lia.
Qed.

(** X9. If every score the collaborator returns lies in 0..100, so does every
    score of the result, on every path: the fixed results for short
    transcripts and for failures, the defaults for missing scores, and the
    recomputed overall score. *)
Theorem scores_stay_in_range
  (generateContent : string -> ApiOutcome) (t : string) :
  (forall answer,
      generateContent t = ApiReturns answer ->
      inRange (j_overallScore answer)
      /\ inRange (j_vocabularyScore answer)
      /\ inRange (j_grammarScore answer)
      /\ inRange (j_pronunciationScore answer)) ->
  let result := fst (evaluateSession generateContent t) in
  (0 <= overallScore result <= 100)%Z
  /\ (0 <= vocabularyScore result <= 100)%Z
  /\ (0 <= grammarScore result <= 100)%Z
  /\ (0 <= pronunciationScore result <= 100)%Z.
Proof.
  intros Hrange. cbv zeta. unfold evaluateSession.
  destruct ((t =? "") || (String.length (trim t) <? 10)%nat);
    [cbn; lia|].
  destruct (generateContent t) as [|answer] eqn:Hgen; [cbn; lia|].
  destruct (Hrange answer eq_refl) as (Ho & Hv & Hg & Hp).
  apply orNum_inRange in Hv, Hg, Hp.
  cbn [fst overallScore vocabularyScore grammarScore pronunciationScore].
  repeat split; try lia.
  - destruct (j_overallScore answer) as [o|]; cbn [orNum inRange] in *.
    + destruct (Z.eqb_spec o 0); [|lia].
      rewrite round_weighted. apply Z.div_pos; lia.
    + rewrite round_weighted. apply Z.div_pos; lia.
  - assert (Hr : (Math_round
                    (weighted (orNum (j_vocabularyScore answer) 0)
                       (orNum (j_grammarScore answer) 0)
                       (orNum (j_pronunciationScore answer) 0)) <= 100)%Z).
    { rewrite round_weighted.
      apply Z.lt_succ_r. apply Z.div_lt_upper_bound; lia. }
    destruct (j_overallScore answer) as [o|]; cbn [orNum inRange] in *;
      [|exact Hr].
    destruct (Z.eqb_spec o 0); [exact Hr | lia].
Qed.

Lemma scores_stay_in_range_witness :
  let result :=
    fst (evaluateSession (fun _ => ApiReturns zeroAnswer)
           "User: hello there my friend") in
  (0 <= overallScore result <= 100)%Z
  /\ (0 <= vocabularyScore result <= 100)%Z
  /\ (0 <= grammarScore result <= 100)%Z
  /\ (0 <= pronunciationScore result <= 100)%Z.
Proof.
  apply (scores_stay_in_range (fun _ => ApiReturns zeroAnswer)
           "User: hello there my friend").
  intros answer H. inversion H; subst answer. cbn. lia.
Defined.

(** Every character is one that [trim] strips. *)
Fixpoint allWhiteSpace (s : string) : bool :=
  match s with
  | EmptyString => true
  | String c rest => isWhiteSpace c && allWhiteSpace rest
  end.

Lemma trimStart_allWhiteSpace (s : string) :
  allWhiteSpace s = true -> trimStart s = "".
Proof.
  induction s as [|c rest IH]; cbn; [reflexivity|].
  intros H. apply andb_prop in H. destruct H as [Hc Hr].
  rewrite Hc. apply IH. exact Hr.
Qed.

(** X10. A transcript made of white space only, however long, gets the fixed
    low-score result and the collaborator is not called. *)
Theorem blank_transcript_fallback
  (generateContent : string -> ApiOutcome) (t : string) :
  allWhiteSpace t = true ->
  let '(result, sent) := evaluateSession generateContent t in
  overallScore result = 10%Z
  /\ vocabularyScore result = 10%Z
  /\ grammarScore result = 10%Z
  /\ pronunciationScore result = 10%Z
  /\ fluencyRating result = "Beginner"
  /\ feedback result = feedbackTooShort
  /\ sent = [].
Proof.
  intros Hws. unfold evaluateSession, trim.
  rewrite (trimStart_allWhiteSpace t Hws). cbn [trimEnd String.length].
  rewrite orb_true_r. cbn. repeat split.
Qed.

Lemma blank_transcript_fallback_witness :
  let '(result, sent) :=
    evaluateSession (fun _ => ApiReturns inconsistentAnswer)
      "                    " in
  overallScore result = 10%Z
  /\ vocabularyScore result = 10%Z
  /\ grammarScore result = 10%Z
  /\ pronunciationScore result = 10%Z
  /\ fluencyRating result = "Beginner"
  /\ feedback result = feedbackTooShort
  /\ sent = [].
Proof.
  apply (blank_transcript_fallback (fun _ => ApiReturns inconsistentAnswer)
           "                    ").
  reflexivity.
Defined.

End GeminiExtra.

Module SessionExtra.
Import Session SessionProps.
Open Scope string_scope.
Open Scope Z_scope.

(** *** Starting *)

(** X11. [handleStart] refuses to start a user without credits: it only raises
    the credit modal, and neither the hook nor the session callback nor the
    camera stream is touched. When the camera is refused, [connect] is never
    called and [hasStarted] is false again. *)
Theorem start_refused (seen : Cells) (env : StartEnv) (w : World) :
  let w' := handleStart seen env w in
  (env.(userCredits) <= 0 ->
   w'.(hook) = w.(hook)
   /\ w'.(sessionCallback) = w.(sessionCallback)
   /\ w'.(userStreamRef) = w.(userStreamRef)
   /\ w'.(cells).(hasStarted) = w.(cells).(hasStarted)
   /\ w'.(cells).(startTime) = w.(cells).(startTime)
   /\ w'.(cells).(showCreditModal) = true)
  /\ (0 < env.(userCredits) -> env.(camera) = None ->
      w'.(hook) = w.(hook)
      /\ w'.(sessionCallback) = w.(sessionCallback)
      /\ w'.(cells).(hasStarted) = false).
Proof.
  cbv zeta. unfold handleStart. split.
  - intros Hc. destruct (Z.leb_spec (userCredits env) 0); [|lia].
    repeat split.
  - intros Hc Hcam. destruct (Z.leb_spec (userCredits env) 0); [lia|].
    rewrite Hcam. repeat split.
Qed.

Lemma start_refused_witness :
  let broke := {| userCredits := 0; clickedAt := 1000; camera := Some [7%nat];
                  connectEnv := BridgeProps.browser |} in
  let blind := {| userCredits := 100; clickedAt := 1000; camera := None;
                  connectEnv := BridgeProps.browser |} in
  (handleStart (mount 0).(cells) broke (mount 0)).(hook) = Bridge.initial
  /\ (handleStart (mount 0).(cells) broke (mount 0)).(cells).(showCreditModal)
     = true
  /\ (handleStart (mount 100).(cells) blind (mount 100)).(hook)
     = Bridge.initial
  /\ (handleStart (mount 100).(cells) blind (mount 100)).(cells).(hasStarted)
     = false.
Proof.
  cbv zeta.
  pose proof (start_refused (mount 0).(cells)
                {| userCredits := 0; clickedAt := 1000; camera := Some [7%nat];
                   connectEnv := BridgeProps.browser |} (mount 0)) as [H0 _].
  pose proof (start_refused (mount 100).(cells)
                {| userCredits := 100; clickedAt := 1000; camera := None;
                   connectEnv := BridgeProps.browser |} (mount 100)) as [_ H1].
  cbv zeta in H0, H1.
  destruct H0 as (A & _ & _ & _ & _ & B); [cbn; lia|].
  destruct H1 as (C & _ & D); [cbn; lia | reflexivity |].
  repeat split; assumption.
Defined.

(** *** Frames of the handlers *)

Section Collaborators.
Variable decodeAudioData : string -> option Z.
Variable generateContent : string -> Gemini.ApiOutcome.

Abbreviation step := (Session.step decodeAudioData generateContent).
Abbreviation run := (Session.run decodeAudioData generateContent).
Abbreviation handle := (Session.handle decodeAudioData generateContent).

(** A world reached from a fresh mount. *)
Definition reached (credits : Z) (es : list Event) : World :=
  run es (commit (mount credits)).

(** What a handler may do to the credit effect: it never re-arms the
    interval and never touches the dependencies the effect has seen. *)
Definition timerFramed (w w' : World) : Prop :=
  w'.(creditDeps) = w.(creditDeps)
  /\ (w'.(creditTimer) = w.(creditTimer) \/ w'.(creditTimer) = None).

(** What the transcript handlers and the timers leave alone. *)
Definition restFramed (w w' : World) : Prop :=
  w'.(sessionCallback) = w.(sessionCallback)
  /\ w'.(cells).(remainingCredits) = w.(cells).(remainingCredits).

Lemma handleFinish_frames (seen : Cells) (t : Z) (forced : option Z)
  (w : World) :
  let w' := handleFinish generateContent seen t forced w in
  timerFramed w w'
  /\ restFramed w w'
  /\ w'.(cells).(messages) = w.(cells).(messages)
  /\ w'.(fullTranscriptRef) = w.(fullTranscriptRef).
Proof.
  cbv zeta. unfold handleFinish, timerFramed, restFramed.
  destruct (isFinishing seen); [repeat split; left; reflexivity|].
  cbn [hook setState set_cells].
  rewrite BridgeProps.disconnect_closed_form.
  destruct w as [c ft ls us hk sc ct cd si sd uts pc].
  destruct us as [tracks|]; cbn -[Gemini.evaluateSession];
    repeat split; left; reflexivity.
Qed.

Lemma onTranscriptUpdate_frames (seen : Cells) (t : Z) (d : Bridge.Delta)
  (w : World) :
  let w' := onTranscriptUpdate seen t d w in
  timerFramed w w' /\ restFramed w w'.
Proof.
  cbv zeta. unfold onTranscriptUpdate, timerFramed, restFramed.
  destruct d as [txt isUser].
  destruct (currentTurnRole seen) as [open|];
    [destruct (negb (Role_eqb open (if isUser then User else Model)))|];
    repeat split; left; reflexivity.
Qed.

Lemma deliver_frames (dateNow currentTime : Z) (m : Bridge.ServerMessage)
  (w : World) :
  let w' := deliver decodeAudioData dateNow currentTime m w in
  timerFramed w w' /\ restFramed w w'.
Proof.
  cbv zeta. unfold deliver.
  destruct (sessionCallback w) as [seen|];
    [|unfold timerFramed, restFramed; repeat split; left; reflexivity].
  assert (H : forall ds w0,
             let w1 := fold_left
                         (fun w d => onTranscriptUpdate seen dateNow d w)
                         ds w0 in
             timerFramed w0 w1 /\ restFramed w0 w1).
  { induction ds as [|d ds IH]; intros w0; cbv zeta; cbn [fold_left].
    - unfold timerFramed, restFramed. repeat split. left. reflexivity.
    - destruct (onTranscriptUpdate_frames seen dateNow d w0)
        as ((A1 & A2) & (A3 & A4)).
      destruct (IH (onTranscriptUpdate seen dateNow d w0))
        as ((B1 & B2) & (B3 & B4)).
      cbv zeta in *. unfold timerFramed, restFramed.
      rewrite B1, B3, B4, A1, A3, A4. repeat split.
      destruct B2 as [B2|B2]; [rewrite B2; exact A2 | right; exact B2]. }
  destruct (H (Bridge.transcriptDeltas m) w) as ((A1 & A2) & (A3 & A4)).
  cbv zeta in *. unfold timerFramed, restFramed. cbn.
  repeat split; assumption.
Qed.

Lemma creditTick_frames (t : Z) (w : World) :
  let w' := creditTick generateContent t w in
  timerFramed w w'
  /\ w'.(sessionCallback) = w.(sessionCallback)
  /\ w'.(cells).(messages) = w.(cells).(messages)
  /\ w'.(fullTranscriptRef) = w.(fullTranscriptRef)
  /\ w'.(cells).(remainingCredits)
     = match w.(creditTimer) with
       | Some _ => Z.max (w.(cells).(remainingCredits) - 1) 0
       | None => w.(cells).(remainingCredits)
       end.
Proof.
  cbv zeta. unfold creditTick.
  destruct (creditTimer w) as [seen|] eqn:Ht;
    [|unfold timerFramed; rewrite Ht; repeat split; left; reflexivity].
  destruct (Z.leb_spec (remainingCredits (cells w) - 1) 0).
  - destruct (handleFinish_frames seen t (Some 0)
                (callParent (UpdateCredits 0) (set_creditTimer None w)))
      as ((A1 & A2) & (A3 & A4) & A5 & A6).
    cbv zeta in *. unfold timerFramed.
    cbn [setState set_cells cells creditDeps creditTimer sessionCallback
           fullTranscriptRef set_remainingCredits set_showCreditModal
           remainingCredits messages].
    rewrite A1, A3, A5, A6. cbn.
    repeat split; try lia.
    right. destruct A2 as [A2|A2]; exact A2.
  - unfold timerFramed. cbn. rewrite Ht. repeat split; try lia.
    left. reflexivity.
Qed.

Lemma handle_timerFramed (e : Event) (w : World) :
  timerFramed w (handle e w)
  /\ ((handle e w).(cells).(remainingCredits) = w.(cells).(remainingCredits)
      \/ (w.(creditTimer) <> None
          /\ (exists t, e = CreditTick t)
          /\ (handle e w).(cells).(remainingCredits)
             = Z.max (w.(cells).(remainingCredits) - 1) 0)).
Proof.
  destruct e as [env| |dateNow currentTime m|n|t| |t]; cbn [Session.handle].
  - unfold handleStart, timerFramed.
    destruct (userCredits env <=? 0);
      [repeat split; left; reflexivity|].
    destruct (camera env) as [tracks|];
      [|repeat split; left; reflexivity].
    cbv zeta.
    match goal with
    | |- context [match ?x with Some _ => _ | None => _ end] => destruct x
    end; repeat split; left; reflexivity.
  - unfold timerFramed. repeat split; left; reflexivity.
  - destruct (deliver_frames dateNow currentTime m w) as (A & _ & B).
    split; [exact A | left; exact B].
  - unfold timerFramed. repeat split; left; reflexivity.
  - destruct (creditTick_frames t w) as (A & _ & _ & _ & B).
    cbv zeta in *. split; [exact A|].
    destruct (creditTimer w) as [seen|]; [right | left; exact B].
    split; [discriminate|]. split; [exists t; reflexivity | exact B].
  - unfold syncFire, timerFramed. destruct (syncInterval w) as [seen|];
      [|repeat split; left; reflexivity].
    destruct (5 <=? _); repeat split; left; reflexivity.
  - destruct (handleFinish_frames (cells w) t None w) as (A & (_ & B) & _).
    split; [exact A | left; exact B].
Qed.

(** *** Credits are only deducted while the session is live *)

(** The credit effect has seen the current dependencies, and an interval is
    armed only when the session has started, the connection is open, the
    session is not finishing and the credit modal is closed. *)
Definition guarded (w : World) : Prop :=
  w.(creditDeps) = Some (creditDepsOf w)
  /\ (w.(creditTimer) <> None ->
      creditDepsOf w = (true, true, false, false)).

Lemma commit_guarded (w0 w : World) :
  guarded w0 -> timerFramed w0 w -> guarded (commit w).
Proof.
  intros (Hd0 & Hg0) (Hd & Ht).
  destruct (commit_frame w) as (Hc & _ & Hh & _ & Hdeps).
  split; [exact Hdeps|].
  unfold commit in *.
  destruct (commitSyncEffect_frame (commitCreditEffect w))
    as (S1 & S2 & _ & _ & S5 & _).
  rewrite S2. unfold creditDepsOf at 1. rewrite S1, S5.
  destruct (commitCreditEffect_frame w) as (C1 & _ & C3 & _).
  rewrite C1, C3. fold (creditDepsOf w).
  unfold commitCreditEffect.
  destruct (match creditDeps w with
            | Some old => CreditDeps_eqb old (creditDepsOf w)
            | None => false
            end) eqn:He.
  - rewrite Hd, Hd0 in He. apply CreditDeps_eqb_eq in He.
    intros Hne. rewrite <- He. apply Hg0.
    destruct Ht as [Ht|Ht]; congruence.
  - destruct (creditDepsOf w) as [[[st conn] fin] modal].
    destruct st, conn, fin, modal; cbn; congruence.
Qed.

Lemma reached_guarded (credits : Z) (es : list Event) :
  guarded (reached credits es).
Proof.
  unfold reached.
  assert (H : guarded (commit (mount credits)))
    by (split; [reflexivity | intros H; exfalso; apply H; reflexivity]).
  revert H. generalize (commit (mount credits)) as w.
  induction es as [|e es IH]; intros w Hw; [exact Hw|].
  rewrite session_run_cons. apply IH. unfold Session.step.
  apply (commit_guarded w); [exact Hw | apply handle_timerFramed].
Qed.

Lemma reached_bounds (credits : Z) (es : list Event) :
  0 <= credits ->
  0 <= (reached credits es).(cells).(remainingCredits) <= credits.
Proof.
  intros Hc. unfold reached.
  assert (H : 0 <= (commit (mount credits)).(cells).(remainingCredits)
              <= credits) by (cbn; lia).
  revert H. generalize (commit (mount credits)) as w.
  induction es as [|e es IH]; intros w Hw; [exact Hw|].
  rewrite session_run_cons. apply IH. unfold Session.step.
  destruct (commit_frame (handle e w)) as (Hcells & _). rewrite Hcells.
  destruct (handle_timerFramed e w) as (_ & [H|(_ & _ & H)]); rewrite H; lia.
Qed.

(** X12. In every world a session can reach, the remaining credits lie between 0
    and the credits the user came with, no event raises them, and an event
    lowers them only if it is a tick of the one-second interval while the
    session has started, the connection is open, the session is not
    finishing and the credit modal is closed; it then lowers them by
    exactly one. *)
Theorem credits_fall_only_while_live (credits : Z) (es : list Event)
  (e : Event) :
  0 <= credits ->
  let w := reached credits es in
  let w' := step w e in
  0 <= w'.(cells).(remainingCredits) <= w.(cells).(remainingCredits)
  /\ w.(cells).(remainingCredits) <= credits
  /\ (w'.(cells).(remainingCredits) < w.(cells).(remainingCredits) ->
      (exists t, e = CreditTick t)
      /\ w'.(cells).(remainingCredits) = w.(cells).(remainingCredits) - 1
      /\ w.(cells).(hasStarted) = true
      /\ w.(hook).(Bridge.isConnected) = true
      /\ w.(cells).(isFinishing) = false
      /\ w.(cells).(showCreditModal) = false).
Proof.
  intros Hc. cbv zeta.
  pose proof (reached_bounds credits es Hc) as Hb.
  pose proof (reached_guarded credits es) as (_ & Hg).
  unfold Session.step.
  destruct (commit_frame (handle e (reached credits es))) as (Hcells & _).
  rewrite Hcells.
  destruct (handle_timerFramed e (reached credits es))
    as (_ & [H|(Harmed & Htick & H)]); rewrite H.
  - repeat split; try lia.
  - split; [lia|]. split; [lia|]. intros Hlt.
    specialize (Hg Harmed). unfold creditDepsOf in Hg.
    inversion Hg as [[H1 H2 H3 H4]].
    repeat split; try assumption; lia.
Qed.

End Collaborators.

Lemma credits_fall_only_while_live_witness :
  let w := reached decodesTo2 offline 100
             [StartClicked (startEnv 100); Opened] in
  let w' := Session.step decodesTo2 offline w (CreditTick 0) in
  w'.(cells).(remainingCredits) = 99
  /\ w.(cells).(hasStarted) = true
  /\ w.(hook).(Bridge.isConnected) = true
  /\ w.(cells).(isFinishing) = false
  /\ w.(cells).(showCreditModal) = false.
Proof.
  cbv zeta.
  destruct (credits_fall_only_while_live decodesTo2 offline 100
              [StartClicked (startEnv 100); Opened] (CreditTick 0))
    as (_ & _ & H); [lia|].
  cbv zeta in H.
  destruct H as (_ & Hdec & Hs & Hconn & Hf & Hm);
    [vm_compute; reflexivity|].
  split; [|repeat split; assumption].
  rewrite Hdec. vm_compute. reflexivity.
Defined.

(** *** Finishing *)

Section Finishing.
Variable decodeAudioData : string -> option Z.
Variable generateContent : string -> Gemini.ApiOutcome.

Abbreviation step := (Session.step decodeAudioData generateContent).
Abbreviation reached := (SessionExtra.reached decodeAudioData generateContent).

Lemma reached_syncCurrent (credits : Z) (es : list Event) :
  syncCurrent (reached credits es).
Proof.
  unfold SessionExtra.reached.
  pose proof (mount_syncCurrent credits) as H.
  revert H. generalize (commit (mount credits)) as w.
  induction es as [|e es IH]; intros w Hw; [exact Hw|].
  rewrite session_run_cons. apply IH.
  apply step_syncCurrent. exact Hw.
Qed.

(** After a render of a finishing session neither interval is armed,
    provided both effects had seen the dependencies of a render that was not
    finishing. *)
Lemma commit_clears_timers (w0 w : World) :
  w0.(cells).(isFinishing) = false ->
  w.(cells).(isFinishing) = true ->
  w.(creditDeps) = Some (creditDepsOf w0) ->
  w.(syncDeps) = Some (syncDepsOf w0) ->
  (commit w).(creditTimer) = None /\ (commit w).(syncInterval) = None.
Proof.
  intros Hf0 Hf Hcd Hsd. unfold commit.
  destruct (commitSyncEffect_frame (commitCreditEffect w)) as (_ & T & _).
  rewrite T.
  destruct (commitCreditEffect_frame w) as (C1 & _ & _ & _ & C5 & C6 & _).
  split.
  - unfold commitCreditEffect. rewrite Hcd.
    destruct (CreditDeps_eqb (creditDepsOf w0) (creditDepsOf w)) eqn:He.
    + apply CreditDeps_eqb_eq in He. unfold creditDepsOf in He.
      inversion He. congruence.
    + unfold creditDepsOf. rewrite Hf.
      destruct (hasStarted (cells w)), (Bridge.isConnected (hook w)),
        (showCreditModal (cells w)); reflexivity.
  - unfold commitSyncEffect. rewrite C6, Hsd.
    destruct (SyncDeps_eqb (syncDepsOf w0) (syncDepsOf (commitCreditEffect w)))
      eqn:He.
    + apply SyncDeps_eqb_eq in He. unfold syncDepsOf in He.
      rewrite C1 in He. inversion He. congruence.
    + unfold syncDepsOf. rewrite C1, Hf.
      destruct (hasStarted (cells w)); reflexivity.
Qed.

(** X13. In every world a session can reach and in which it is not yet
    finishing, a click on Finish tears the hook down, leaves neither interval
    armed, and completes towards the parent exactly once, with the remaining
    credits of that moment; a further click completes nothing more. *)
Theorem finish_completes_once (credits : Z) (es : list Event) (t t2 : Z) :
  let w := reached credits es in
  w.(cells).(isFinishing) = false ->
  let w' := step w (FinishClicked t) in
  BridgeProps.closed w'.(hook)
  /\ w'.(creditTimer) = None
  /\ w'.(syncInterval) = None
  /\ w'.(cells).(isFinishing) = true
  /\ (exists result duration,
         w'.(parentCalls)
         = (w.(parentCalls)
            ++ [Complete result duration w.(cells).(remainingCredits)])%list)
  /\ (step w' (FinishClicked t2)).(parentCalls) = w'.(parentCalls).
Proof.
  cbv zeta. intros Hf.
  set (w := reached credits es) in *.
  destruct (handleFinish_effect generateContent (cells w) t None w Hf)
    as (result & duration & Hc & Hp & Hh & Htm & Hcd & Hsi & Hsd & Hl).
  cbv zeta in *.
  set (w1 := handleFinish generateContent (cells w) t None w) in *.
  assert (Hs : step w (FinishClicked t) = commit w1) by reflexivity.
  rewrite !Hs.
  destruct (commit_frame w1) as (F1 & F2 & F3 & _ & _).
  pose proof (reached_guarded decodeAudioData generateContent credits es)
    as (Gd & _).
  pose proof (reached_syncCurrent credits es) as (Sd & _).
  fold w in Gd, Sd.
  assert (Hfin1 : isFinishing (cells w1) = true) by (rewrite Hc; reflexivity).
  destruct (commit_clears_timers w w1 Hf Hfin1) as (T1 & T2);
    [congruence | congruence |].
  split; [rewrite F3, Hh; apply BridgeProps.disconnected_closed|].
  split; [exact T1|]. split; [exact T2|].
  split; [rewrite F1; exact Hfin1|].
  split; [exists result, duration; rewrite F2; exact Hp|].
  unfold Session.step. cbn [Session.handle].
  destruct (commit_frame
              (handleFinish generateContent (cells (commit w1)) t2 None
                 (commit w1))) as (_ & G2 & _).
  rewrite G2. unfold handleFinish. rewrite F1, Hfin1. reflexivity.
Qed.

(** X14. A session in which nothing was transcribed is reported with the fixed
    low score: when the transcript ref is empty and the finishing render saw
    no open turn, [handleFinish] completes with all four scores 10 and an
    empty transcript, whatever the collaborator would have answered. *)
Theorem silent_session_scores_ten (seen : Cells) (t : Z) (forced : option Z)
  (w : World) :
  seen.(isFinishing) = false ->
  w.(fullTranscriptRef) = "" ->
  seen.(currentTurnRole) = None ->
  exists result duration,
    (handleFinish generateContent seen t forced w).(parentCalls)
    = (w.(parentCalls)
       ++ [Complete result duration
             (match forced with
              | Some c => c
              | None => seen.(remainingCredits)
              end)])%list
    /\ Gemini.overallScore result = 10
    /\ Gemini.vocabularyScore result = 10
    /\ Gemini.grammarScore result = 10
    /\ Gemini.pronunciationScore result = 10
    /\ Gemini.transcript result = "".
Proof.
  intros Hf Hft Hrole. unfold handleFinish. rewrite Hf, Hrole.
  cbn [hook setState set_cells].
  rewrite BridgeProps.disconnect_closed_form.
  destruct w as [c ft ls us hk sc ct cd si sd uts pc]. cbn in Hft. subst ft.
  eexists. eexists.
  destruct us as [tracks|]; cbn; repeat split.
Qed.

End Finishing.

Lemma finish_completes_once_witness :
  let w := reached decodesTo2 offline 100
             [StartClicked (startEnv 100); Opened; CreditTick 0] in
  let w' := Session.step decodesTo2 offline w (FinishClicked 9000) in
  BridgeProps.closed w'.(hook)
  /\ w'.(creditTimer) = None
  /\ w'.(syncInterval) = None
  /\ finishes w' = 1%nat
  /\ finishes (Session.step decodesTo2 offline w' (FinishClicked 9500))
     = 1%nat.
Proof.
  cbv zeta.
  destruct (finish_completes_once decodesTo2 offline 100
              [StartClicked (startEnv 100); Opened; CreditTick 0] 9000 9500)
    as (A & B & C & _ & (r & d & E) & F); [vm_compute; reflexivity|].
  split; [exact A|]. split; [exact B|]. split; [exact C|].
  assert (H : finishes
                (Session.step decodesTo2 offline
                   (reached decodesTo2 offline 100
                      [StartClicked (startEnv 100); Opened; CreditTick 0])
                   (FinishClicked 9000)) = 1%nat).
  { unfold finishes. rewrite E. rewrite filter_app, length_app.
    vm_compute. reflexivity. }
  split; [exact H|]. unfold finishes in *. rewrite F. exact H.
Defined.

Lemma silent_session_scores_ten_witness :
  exists result duration,
    (handleFinish (fun _ => Gemini.ApiReturns GeminiProps.inconsistentAnswer)
       (started 100).(cells) 9000 None (started 100)).(parentCalls)
    = [Complete result duration 100]
    /\ Gemini.overallScore result = 10
    /\ Gemini.vocabularyScore result = 10
    /\ Gemini.grammarScore result = 10
    /\ Gemini.pronunciationScore result = 10
    /\ Gemini.transcript result = "".
Proof.
  apply (silent_session_scores_ten
           (fun _ => Gemini.ApiReturns GeminiProps.inconsistentAnswer)
           (started 100).(cells) 9000 None (started 100));
    vm_compute; reflexivity.
Defined.

(** *** Nothing is ever sealed in a session started from a fresh mount *)

Definition isStart (e : Event) : bool :=
  match e with
  | StartClicked _ => true
  | _ => false
  end.

(** No message has been sealed, and the callback the session calls, if any,
    was created while no turn was open. *)
Definition unsealed (w : World) : Prop :=
  w.(cells).(messages) = []
  /\ w.(fullTranscriptRef) = ""
  /\ forall seen,
       w.(sessionCallback) = Some seen -> seen.(currentTurnRole) = None.

Lemma commit_refs (w : World) :
  (commit w).(fullTranscriptRef) = w.(fullTranscriptRef)
  /\ (commit w).(sessionCallback) = w.(sessionCallback).
Proof.
  unfold commit, commitSyncEffect, commitCreditEffect.
  destruct (match creditDeps w with
            | Some old => CreditDeps_eqb old (creditDepsOf w)
            | None => false
            end);
    [|destruct (creditDepsOf w) as [[[st conn] fin] modal];
      destruct (negb st || negb conn || fin || modal)];
    match goal with
    | |- context [syncDepsOf ?x] =>
        destruct (match syncDeps x with
                  | Some old => SyncDeps_eqb old (syncDepsOf x)
                  | None => false
                  end);
        [|destruct (syncDepsOf x) as [[r st'] fin'];
          destruct (negb st' || fin')]
    end; split; reflexivity.
Qed.

Section Sealing.
Variable decodeAudioData : string -> option Z.
Variable generateContent : string -> Gemini.ApiOutcome.

Abbreviation step := (Session.step decodeAudioData generateContent).
Abbreviation run := (Session.run decodeAudioData generateContent).

Lemma step_unsealed (w : World) (e : Event) :
  isStart e = false -> unsealed w -> unsealed (step w e).
Proof.
  intros He (Hm & Hf & Hcb). unfold Session.step.
  set (w1 := Session.handle decodeAudioData generateContent e w).
  assert (H1 : unsealed w1).
  { subst w1.
    destruct e as [env| |dateNow currentTime m|n|t| |t];
      cbn [Session.handle]; [discriminate He| | | | | |].
    - split; [exact Hm|]. split; [exact Hf | exact Hcb].
    - unfold deliver. destruct (sessionCallback w) as [seen|] eqn:Hs;
        [|split; [exact Hm|]; split; [exact Hf|]; rewrite Hs; exact Hcb].
      pose proof (stale_callback_appends seen dateNow
                    (Bridge.transcriptDeltas m) w (Hcb seen eq_refl))
        as (A & B & _).
      cbv zeta in A, B.
      destruct (deliver_frames decodeAudioData dateNow currentTime m w)
        as (_ & C & _).
      unfold deliver in C. rewrite Hs in C. cbv zeta in C.
      unfold unsealed.
      cbn [set_hook cells fullTranscriptRef sessionCallback] in *.
      rewrite A, B, Hm, Hf. split; [reflexivity|]. split; [reflexivity|].
      rewrite C. exact Hcb.
    - split; [exact Hm|]. split; [exact Hf | exact Hcb].
    - destruct (creditTick_frames generateContent t w)
        as (_ & A & B & C & _).
      cbv zeta in A, B, C. unfold unsealed. rewrite A, B, C.
      split; [exact Hm|]. split; [exact Hf | exact Hcb].
    - unfold syncFire. destruct (syncInterval w) as [seen|];
        [destruct (5 <=? _)|];
        (split; [exact Hm|]; split; [exact Hf | exact Hcb]).
    - destruct (handleFinish_frames generateContent (cells w) t None w)
        as (_ & (A & _) & B & C).
      cbv zeta in A, B, C. unfold unsealed. rewrite A, B, C.
      split; [exact Hm|]. split; [exact Hf | exact Hcb]. }
  destruct H1 as (Hm1 & Hf1 & Hcb1).
  destruct (commit_frame w1) as (Hc & _).
  destruct (commit_refs w1) as (Hr1 & Hr2).
  unfold unsealed. rewrite Hc, Hr1, Hr2.
  split; [exact Hm1|]. split; [exact Hf1 | exact Hcb1].
Qed.

Lemma start_unsealed (credits : Z) (env : StartEnv) :
  unsealed (step (commit (mount credits)) (StartClicked env)).
Proof.
  unfold Session.step. cbn [Session.handle].
  set (w0 := commit (mount credits)).
  assert (Hc0 : cells w0 = cells (mount credits))
    by (subst w0; apply commit_frame).
  assert (Hf0 : fullTranscriptRef w0 = "")
    by (subst w0; rewrite (proj1 (commit_refs (mount credits))); reflexivity).
  assert (Hs0 : sessionCallback w0 = None)
    by (subst w0; rewrite (proj2 (commit_refs (mount credits))); reflexivity).
  clearbody w0.
  set (w1 := handleStart (cells w0) env w0).
  assert (H1 : unsealed w1).
  { subst w1. unfold handleStart, unsealed.
    destruct (userCredits env <=? 0);
      [cbn; rewrite Hc0, Hf0, Hs0; repeat split; discriminate|].
    destruct (camera env) as [tracks|];
      [|cbn; rewrite Hc0, Hf0, Hs0; repeat split; discriminate].
    cbv zeta.
    match goal with
    | |- context [match ?x with Some _ => _ | None => _ end] => destruct x
    end; cbn; rewrite ?Hc0, ?Hf0, ?Hs0; repeat split;
      try discriminate.
    intros seen Hseen. injection Hseen as <-. reflexivity. }
  destruct H1 as (Hm1 & Hf1 & Hcb1).
  destruct (commit_frame w1) as (Hc & _).
  destruct (commit_refs w1) as (Hr1 & Hr2).
  unfold unsealed. rewrite Hc, Hr1, Hr2.
  split; [exact Hm1|]. split; [exact Hf1 | exact Hcb1].
Qed.

(** X15. In a session started once from a fresh mount, whatever messages, buffer
    completions, ticks, syncs and finish clicks follow, no message is ever
    sealed: the message list and the transcript ref stay empty, because the
    callback the session calls never sees an open turn. *)
Theorem fresh_session_never_seals (credits : Z) (env : StartEnv)
  (es : list Event) :
  forallb (fun e => negb (isStart e)) es = true ->
  let w := run (StartClicked env :: es) (commit (mount credits)) in
  w.(cells).(messages) = [] /\ w.(fullTranscriptRef) = "".
Proof.
  intros Hes. cbv zeta. rewrite session_run_cons.
  pose proof (start_unsealed credits env) as H.
  revert H Hes.
  generalize (step (commit (mount credits)) (StartClicked env)) as w.
  induction es as [|e es IH]; intros w Hw Hes.
  - destruct Hw as (A & B & _). split; assumption.
  - cbn [forallb] in Hes. apply andb_prop in Hes. destruct Hes as [He Hes].
    rewrite session_run_cons. apply IH; [|exact Hes].
    apply step_unsealed; [|exact Hw].
    destruct (isStart e); [discriminate | reflexivity].
Qed.

End Sealing.

Lemma fresh_session_never_seals_witness :
  let w :=
    Session.run decodesTo2 offline
      [StartClicked (startEnv 100); Opened;
       Inbound 2000 5 (userSaid "Hi");
       Inbound 3000 6 (modelSaid "Hello");
       CreditTick 3500;
       Inbound 4000 7 (userSaid "Bye")]
      (commit (mount 100)) in
  w.(cells).(messages) = [] /\ w.(fullTranscriptRef) = "".
Proof.
  apply (fresh_session_never_seals decodesTo2 offline 100 (startEnv 100)).
  reflexivity.
Defined.

End SessionExtra.

(** ** The [Login] component *)

Module LoginExtra.

Import Supabase Login.
Open Scope string_scope.

Definition count (p : Call -> bool) (l : list Call) : nat :=
  length (filter p l).

Definition isSignUp (c : Call) : bool :=
  match c with
  | SignUp _ _ _ _ _ _ => true
  | _ => false
  end.

Definition isSignIn (c : Call) : bool :=
  match c with
  | SignInWithPassword _ _ => true
  | _ => false
  end.

Definition isGetUserProfile (c : Call) : bool :=
  match c with
  | GetUserProfile _ => true
  | _ => false
  end.

Definition isOnLogin (c : Call) : bool :=
  match c with
  | OnLogin _ => true
  | _ => false
  end.

(** What the registration form must hold for [signUp] to be reached. *)
Definition validForm (f : FormData) : Prop :=
  f.(f_name) <> "" /\ f.(f_surname) <> "" /\ f.(f_username) <> ""
  /\ f.(f_email) <> "" /\ f.(f_password) <> ""
  /\ f.(f_password) = f.(f_confirmPassword)
  /\ (6 <= String.length f.(f_password))%nat.

Definition validFormb (f : FormData) : bool :=
  negb ((f.(f_name) =? "") || (f.(f_surname) =? "")
        || (f.(f_username) =? "") || (f.(f_email) =? "")
        || (f.(f_password) =? ""))
  && (f.(f_password) =? f.(f_confirmPassword))
  && negb (String.length f.(f_password) <? 6)%nat.

Lemma validFormb_spec (f : FormData) : validFormb f = true <-> validForm f.
Proof.
  unfold validFormb, validForm.
  rewrite !andb_true_iff, !negb_true_iff, !orb_false_iff, !String.eqb_neq,
    String.eqb_eq, Nat.ltb_ge.
  tauto.
Qed.

(** The third run of [fetchProfileWithRetry] arms no timer. *)
Lemma retryLoop_third (env : Env) (userId : string) (timers : nat)
  (s : State) :
  retryLoop env userId timers 2 s
  = let s := call (GetUserProfile userId) s in
    match env.(getUserProfile) 3 userId with
    | Some profile => (false, call (OnLogin profile) s)
    | None =>
        (false,
         setMode login (setLoading false (setError (Some profileDelayed) s)))
    end.
Proof.
  destruct timers; cbn [retryLoop]; unfold fetchProfileWithRetry;
    destruct (getUserProfile env 3 userId); reflexivity.
Qed.

(** The retry chain spelled out: the runs, the timers between them, and
    where it stops. *)
Lemma retryLoop_closed_form (env : Env) (userId : string) (timers : nat)
  (s : State) :
  retryLoop env userId timers 0 s
  = let s1 := call (GetUserProfile userId) s in
    match env.(getUserProfile) 1 userId with
    | Some profile => (false, call (OnLogin profile) s1)
    | None =>
        let s1 := call (SetTimeout 1000) s1 in
        match timers with
        | O => (true, s1)
        | S timers =>
            let s2 := call (GetUserProfile userId) s1 in
            match env.(getUserProfile) 2 userId with
            | Some profile => (false, call (OnLogin profile) s2)
            | None =>
                let s2 := call (SetTimeout 1000) s2 in
                match timers with
                | O => (true, s2)
                | S timers =>
                    let s3 := call (GetUserProfile userId) s2 in
                    match env.(getUserProfile) 3 userId with
                    | Some profile => (false, call (OnLogin profile) s3)
                    | None =>
                        (false,
                         setMode login
                           (setLoading false
                              (setError (Some profileDelayed) s3)))
                    end
                end
            end
        end
    end.
Proof.
  cbv zeta.
  destruct timers as [|[|timers]]; cbn [retryLoop];
    unfold fetchProfileWithRetry;
    destruct (getUserProfile env 1 userId); try reflexivity;
    cbn [Nat.ltb Nat.leb];
    destruct (getUserProfile env 2 userId); try reflexivity;
    cbn [Nat.ltb Nat.leb].
  fold (fetchProfileWithRetry env userId 2).
  rewrite retryLoop_third. reflexivity.
Qed.

(** What the retry chain leaves behind, whatever the profile requests
    answer and however many timers fire. *)
Lemma retryLoop_bounded (env : Env) (userId : string) (timers : nat)
  (s : State) :
  let r := retryLoop env userId timers 0 s in
  exists l,
    (snd r).(calls) = (s.(calls) ++ l)%list
    /\ (count isGetUserProfile l <= 3)%nat
    /\ (count isOnLogin l <= 1)%nat
    /\ count isSignUp l = 0%nat
    /\ (2 <= timers -> fst r = false)%nat.
Proof.
  cbv zeta. rewrite retryLoop_closed_form. cbv zeta.
  destruct (getUserProfile env 1 userId);
    [|destruct timers as [|timers];
      [|destruct (getUserProfile env 2 userId);
        [|destruct timers as [|timers];
          [|destruct (getUserProfile env 3 userId)]]]];
    cbn [fst snd calls call setMode setLoading setError];
    rewrite <- ?app_assoc;
    (eexists; split; [reflexivity|]);
    cbn; repeat split; lia.
Qed.

(** X16. [signUp] is reached only with every field filled in, the two passwords
    equal and at least six code units long; then it is called once, with the
    user name in lower case. Any other form is refused with an error message
    and no call at all. *)
Theorem signup_needs_valid_form (env : Env) (f : FormData) (timers : nat)
  (s : State) :
  let r := handleRegister env f timers s in
  (validForm f ->
   exists l,
     (snd r).(calls)
     = (s.(calls)
        ++ SignUp f.(f_email) f.(f_password) (Str.toLowerCase f.(f_username))
                  f.(f_name) f.(f_surname) f.(f_email) :: l)%list
     /\ count isSignUp l = 0%nat)
  /\ (~ validForm f ->
      r = (false,
           setLoading false (setError (snd r).(error) s))
      /\ (snd r).(error) <> None).
Proof.
  cbv zeta. rewrite <- validFormb_spec. unfold validFormb, handleRegister.
  destruct ((f_name f =? "") || (f_surname f =? "") || (f_username f =? "")
            || (f_email f =? "") || (f_password f =? "")).
  { split; [discriminate|]. intros _. cbn. split; [reflexivity|discriminate]. }
  destruct (f_password f =? f_confirmPassword f).
  2:{ split; [discriminate|]. intros _. cbn.
      split; [reflexivity|discriminate]. }
  destruct (String.length (f_password f) <? 6)%nat.
  { split; [discriminate|]. intros _. cbn. split; [reflexivity|discriminate]. }
  cbn [negb andb]. split; [intros _ | intros H; exfalso; apply H; reflexivity].
  destruct (signUp env (f_email f) (f_password f)) as [message|[userId|]].
  - exists []. split; reflexivity.
  - match goal with
    | |- context [retryLoop env userId timers 0 ?s0] =>
        destruct (retryLoop_bounded env userId timers s0)
          as (l & Hl & _ & _ & Hs & _)
    end.
    cbv zeta in Hl. exists l. rewrite Hl. cbn [calls call setSuccess
      setLoading setError]. rewrite <- app_assoc. split; [reflexivity|exact Hs].
  - exists []. split; reflexivity.
Qed.

Definition form : FormData :=
  {| f_username := "Ana"; f_email := "ana@example.com";
     f_password := "secret"; f_confirmPassword := "secret";
     f_name := "Ana"; f_surname := "Silva" |}.

Definition ana : User :=
  {| id := Some "u1"; username := "ana"; email := Some "ana@example.com";
     name := "Ana"; surname := "Silva"; rank := "Novato"; points := 0;
     sessionsCompleted := 0; joinedDate := "2024-01-01"; credits := 600 |}.

(** The profile appears at the second request. *)
Definition slowTrigger : Env :=
  {| profiles := fun _ => EmailError;
     signInWithPassword := fun _ _ => AuthData (Some "u1");
     signUp := fun _ _ => AuthData (Some "u1");
     getUserProfile := fun n _ => if (n =? 2)%nat then Some ana else None |}.

(** The profile never appears. *)
Definition noTrigger : Env :=
  {| profiles := fun _ => EmailError;
     signInWithPassword := fun _ _ => AuthData (Some "u1");
     signUp := fun _ _ => AuthData (Some "u1");
     getUserProfile := fun _ _ => None |}.

Lemma form_valid : validForm form.
Proof.
  unfold validForm, form; cbn.
  repeat split; try discriminate. lia.
Qed.

Lemma signup_needs_valid_form_witness :
  exists l,
    (snd (handleRegister slowTrigger form 5 mount)).(calls)
    = (SignUp "ana@example.com" "secret" "ana" "Ana" "Silva"
              "ana@example.com" :: l)%list
    /\ count isSignUp l = 0%nat.
Proof.
  exact (proj1 (signup_needs_valid_form slowTrigger form 5 mount) form_valid).
Defined.

(** X17. A registration asks for the new profile at most three times and calls
    [onLogin] at most once, whatever the requests answer; once two timers
    have fired no timer is left armed. *)
Theorem profile_requests_are_bounded (env : Env) (f : FormData)
  (timers : nat) (s : State) :
  (2 <= timers)%nat ->
  let r := handleRegister env f timers s in
  fst r = false
  /\ exists l,
       (snd r).(calls) = (s.(calls) ++ l)%list
       /\ (count isGetUserProfile l <= 3)%nat
       /\ (count isOnLogin l <= 1)%nat.
Proof.
  intros Ht. cbv zeta. unfold handleRegister.
  destruct ((f_name f =? "") || (f_surname f =? "") || (f_username f =? "")
            || (f_email f =? "") || (f_password f =? ""));
    [split; [reflexivity|]; exists []; cbn; rewrite app_nil_r;
     repeat split; lia|].
  destruct (negb (f_password f =? f_confirmPassword f));
    [split; [reflexivity|]; exists []; cbn; rewrite app_nil_r;
     repeat split; lia|].
  destruct (String.length (f_password f) <? 6)%nat;
    [split; [reflexivity|]; exists []; cbn; rewrite app_nil_r;
     repeat split; lia|].
  destruct (signUp env (f_email f) (f_password f)) as [message|[userId|]].
  - split; [reflexivity|]. cbn [snd calls call setLoading setError].
    eexists. split; [reflexivity|]. cbn. split; lia.
  - match goal with
    | |- context [retryLoop env userId timers 0 ?s0] =>
        destruct (retryLoop_bounded env userId timers s0)
          as (l & Hl & Hg & Ho & _ & Hp)
    end.
    cbv zeta in Hl, Hp. split; [exact (Hp Ht)|].
    rewrite Hl. cbn [calls call setSuccess setLoading setError].
    rewrite <- app_assoc. eexists. split; [reflexivity|].
    cbn. split; assumption.
  - split; [reflexivity|]. cbn [snd calls call setLoading setError].
    eexists. split; [reflexivity|]. cbn. split; lia.
Qed.

Lemma profile_requests_are_bounded_witness :
  let r := handleRegister slowTrigger form 2 mount in
  fst r = false
  /\ exists l,
       (snd r).(calls) = ([] ++ l)%list
       /\ (count isGetUserProfile l <= 3)%nat
       /\ (count isOnLogin l <= 1)%nat.
Proof.
  apply (profile_requests_are_bounded slowTrigger form 2 mount). lia.
Defined.

(** X18. When a valid registration succeeds but the profile is missing at all
    three requests, the form returns to the sign-in mode with the delay
    message and the loading flag released, after exactly three requests and
    two timers. *)
Theorem three_misses_return_to_login (env : Env) (f : FormData)
  (timers : nat) (s : State) (userId : string) :
  validForm f ->
  env.(signUp) f.(f_email) f.(f_password) = AuthData (Some userId) ->
  (forall n, env.(getUserProfile) n userId = None) ->
  (2 <= timers)%nat ->
  let r := handleRegister env f timers s in
  fst r = false
  /\ (snd r).(mode) = login
  /\ (snd r).(loading) = false
  /\ (snd r).(error) = Some profileDelayed
  /\ (snd r).(calls)
     = (s.(calls)
        ++ [SignUp f.(f_email) f.(f_password)
                   (Str.toLowerCase f.(f_username))
                   f.(f_name) f.(f_surname) f.(f_email);
            GetUserProfile userId; SetTimeout 1000;
            GetUserProfile userId; SetTimeout 1000;
            GetUserProfile userId])%list.
Proof.
  intros Hv Hs Hn Ht. cbv zeta. apply validFormb_spec in Hv.
  unfold validFormb in Hv. rewrite !andb_true_iff, !negb_true_iff in Hv.
  destruct Hv as [[H1 H2] H3].
  unfold handleRegister. rewrite H1, H2, H3, Hs. cbn [negb].
  destruct timers as [|[|timers]]; [lia|lia|].
  rewrite retryLoop_closed_form. cbv zeta. rewrite !Hn.
  cbn. rewrite <- !app_assoc. repeat split.
Qed.

Lemma three_misses_return_to_login_witness :
  let r := handleRegister noTrigger form 2 mount in
  fst r = false
  /\ (snd r).(mode) = login
  /\ (snd r).(loading) = false
  /\ (snd r).(error) = Some profileDelayed
  /\ (snd r).(calls)
     = [SignUp "ana@example.com" "secret" "ana" "Ana" "Silva"
               "ana@example.com";
        GetUserProfile "u1"; SetTimeout 1000;
        GetUserProfile "u1"; SetTimeout 1000;
        GetUserProfile "u1"].
Proof.
  apply (three_misses_return_to_login noTrigger form 2 mount "u1").
  - exact form_valid.
  - reflexivity.
  - reflexivity.
  - lia.
Defined.

(** X19. [handleLogin] always ends with the loading flag released; it signs in
    exactly once, and [onLogin] is called at most once, only with the
    profile fetched for the user the sign-in returned, and then no error is
    shown. *)
Theorem login_releases_loading (env : Env) (f : FormData) (s : State) :
  let s' := handleLogin env f s in
  s'.(loading) = false
  /\ exists l,
       s'.(calls) = (s.(calls) ++ l)%list
       /\ count isSignIn l = 1%nat
       /\ (count isOnLogin l <= 1)%nat
       /\ forall profile,
            In (OnLogin profile) l ->
            s'.(error) = None
            /\ exists email userId,
                 env.(signInWithPassword) email f.(f_password)
                 = AuthData (Some userId)
                 /\ env.(getUserProfile) 1 userId = Some profile.
Proof.
  cbv zeta. unfold handleLogin, loginEmail.
  destruct (Str.includes "@" (f_username f));
    [|destruct (getEmailByUsername (profiles env) (f_username f))];
    cbn [fold_left];
    match goal with
    | |- context [signInWithPassword env ?e ?p] =>
        destruct (signInWithPassword env e p) as [message|[userId|]] eqn:Hs;
        [| destruct (getUserProfile env 1 userId) as [profile|] eqn:Hp |]
    end;
    (split; [reflexivity|]);
    cbn [calls call setLoading setError]; rewrite <- ?app_assoc;
    (eexists; split; [reflexivity|]);
    cbn; (split; [reflexivity|]); (split; [lia|]);
    intros p Hin;
    repeat match goal with
           | H : _ \/ _ |- _ => destruct H as [H|H]
           | H : False |- _ => destruct H
           | H : _ = OnLogin _ |- _ => inversion H; clear H; subst
           end;
    (split; [reflexivity|]); eauto.
Qed.

Lemma toLowerChar_at (c : ascii) :
  Ascii.eqb (Str.toLowerChar c) "@" = Ascii.eqb c "@".
Proof.
  destruct c as [[] [] [] [] [] [] [] []]; reflexivity.
Qed.

Lemma includes_toLowerCase (u : string) :
  Str.includes "@" (Str.toLowerCase u) = Str.includes "@" u.
Proof.
  induction u as [|c u IH]; [reflexivity|].
  cbn [Str.toLowerCase Str.includes]. rewrite toLowerChar_at, IH. reflexivity.
Qed.

(** X20. A user name typed without an at sign is matched whatever its letter
    case: two spellings that agree in lower case sign in with the same
    address. *)
Theorem username_case_is_ignored (env : Env) (u1 u2 : string) :
  Str.toLowerCase u1 = Str.toLowerCase u2 ->
  Str.includes "@" u1 = false ->
  fst (loginEmail env u1) = fst (loginEmail env u2).
Proof.
  intros Hl H1.
  assert (H2 : Str.includes "@" u2 = false)
    by (rewrite <- includes_toLowerCase, <- Hl, includes_toLowerCase;
        exact H1).
  unfold loginEmail, getEmailByUsername. rewrite H1, H2, Hl.
  destruct (profiles env (Str.toLowerCase u2)) as [|e];
    [|destruct (JS.truthyStr e)]; reflexivity.
Qed.

Lemma username_case_is_ignored_witness :
  fst (loginEmail noTrigger "Ana") = fst (loginEmail noTrigger "aNA").
Proof.
  apply (username_case_is_ignored noTrigger "Ana" "aNA"); reflexivity.
Defined.

End LoginExtra.

(** ** Session rows (services/supabase) *)

Module SupabaseExtra.

Import Supabase.
Open Scope string_scope.

(** X21. A session that [saveSession] stored comes back from [getUserHistory]
    as it was, provided its duration is a whole number of seconds and its
    date is set: the column names of the two mappings agree. *)
Theorem saved_session_reads_back (getSession : GetSessionAnswer)
  (insert : SessionRow -> InsertAnswer) (select : string -> SelectAnswer)
  (now userId reader : string) (s : SessionResult) (rows : list SessionRow)
  (n : Z) :
  saveSession getSession insert now userId s = (true, rows) ->
  select reader = SelectData (Some rows) ->
  s.(durationSeconds) = inject_Z n ->
  s.(date) <> "" ->
  getUserHistory select reader = [s].
Proof.
  intros Hsave Hsel Hd Hdate. unfold getUserHistory. rewrite Hsel.
  unfold saveSession in Hsave.
  destruct getSession as [|authUser]; [discriminate|].
  destruct (insert _); try discriminate.
  injection Hsave as <-. cbn [map]. f_equal.
  unfold fromRow, payload. destruct s as [o v g p fr fb d t dt a].
  cbn in *. subst d. rewrite Qfloor_Z.
  destruct dt; [contradiction|]. reflexivity.
Qed.

Definition practice : SessionResult :=
  {| overallScore := 72; vocabularyScore := 70; grammarScore := 65;
     pronunciationScore := 80; fluencyRating := "Intermediate";
     feedback := "ok"; durationSeconds := inject_Z 95;
     transcript := "User: Hi"; date := "2024-05-01T10:00:00.000Z";
     avatarName := "Leo" |}.

Lemma saved_session_reads_back_witness :
  getUserHistory
    (fun _ =>
       SelectData
         (Some (snd (saveSession (GetSessionData None) (fun _ => InsertDone)
                                 "2024-05-02T00:00:00.000Z" "u1" practice))))
    "u1"
  = [practice].
Proof.
  apply (saved_session_reads_back (GetSessionData None) (fun _ => InsertDone)
           _ "2024-05-02T00:00:00.000Z" "u1" "u1" practice
           [payload "u1" "2024-05-02T00:00:00.000Z" practice] 95).
  - reflexivity.
  - reflexivity.
  - reflexivity.
  - discriminate.
Defined.

End SupabaseExtra.

(** ** [checkPaymentStatus] (services/asaas) *)

Module AsaasExtra.

Import Asaas.
Open Scope string_scope.

Definition statusUrl (API_URL paymentId : string) : string :=
  API_URL ++ "/checar-status?id=" ++ paymentId.

(** X22. A payment is reported as paid only after a single request that was
    answered with an object and logged no error; an empty id, a failed
    request, an HTTP error, an unreadable body and a [null] body all give
    [false]. *)
Theorem payment_confirmed_only_on_clean_answer (API_URL : string)
  (fetch : string -> FetchOutcome) (paymentId : string)
  (log : list Effect) :
  checkPaymentStatus API_URL fetch paymentId = (true, log) ->
  paymentId <> ""
  /\ log = [Fetch (statusUrl API_URL paymentId)]
  /\ exists status data,
       fetch (statusUrl API_URL paymentId) = Json (BodyObject status data).
Proof.
  unfold checkPaymentStatus, fetchAsaas, statusUrl.
  destruct (paymentId =? "") eqn:Hid; [discriminate|].
  apply String.eqb_neq in Hid.
  destruct (fetch _) as [| | |[|status data]]; try discriminate.
  cbn [statusOf]. intros H. injection H as _ <-.
  split; [exact Hid|]. split; [reflexivity|]. eauto.
Qed.

Definition paidAnswer (url : string) : FetchOutcome :=
  Json (BodyObject (Str "paid") DataUndefined).

Lemma payment_confirmed_only_on_clean_answer_witness :
  "pay_1" <> ""
  /\ [Fetch "https://api/checar-status?id=pay_1"]
     = [Fetch (statusUrl "https://api" "pay_1")]
  /\ exists status data,
       paidAnswer (statusUrl "https://api" "pay_1")
       = Json (BodyObject status data).
Proof.
  apply (payment_confirmed_only_on_clean_answer "https://api" paidAnswer
           "pay_1" [Fetch "https://api/checar-status?id=pay_1"]).
  reflexivity.
Defined.

Lemma upper_of_lower (c : ascii) :
  Str.upperCodes (N_of_ascii (Str.toLowerChar c))
  = Str.upperCodes (N_of_ascii c).
Proof.
  destruct c as [[] [] [] [] [] [] [] []]; reflexivity.
Qed.

Lemma toUpperCase_toLowerCase (s : string) :
  Str.toUpperCase (Str.toLowerCase s) = Str.toUpperCase s.
Proof.
  unfold Str.toUpperCase, Str.codes.
  induction s as [|c s IH]; [reflexivity|].
  cbn [Str.toLowerCase list_ascii_of_string map flat_map].
  rewrite upper_of_lower, IH. reflexivity.
Qed.

(** X23. The letter case of the reported status does not matter: an answer and
    the same answer with its status in lower case are judged alike. *)
Theorem status_case_is_ignored (API_URL : string)
  (fetch fetch' : string -> FetchOutcome) (paymentId status : string)
  (data : DataField) :
  fetch (statusUrl API_URL paymentId)
  = Json (BodyObject (Str status) data) ->
  fetch' (statusUrl API_URL paymentId)
  = Json (BodyObject (Str (Str.toLowerCase status)) data) ->
  checkPaymentStatus API_URL fetch' paymentId
  = checkPaymentStatus API_URL fetch paymentId.
Proof.
  unfold statusUrl. intros H H'.
  unfold checkPaymentStatus, fetchAsaas. rewrite H, H'.
  destruct (paymentId =? ""); [reflexivity|]. cbn [statusOf].
  assert (Ht : truthy (Str (Str.toLowerCase status)) = truthy (Str status))
    by (destruct status; reflexivity).
  rewrite Ht. destruct (truthy (Str status)).
  - cbn [toString]. rewrite toUpperCase_toLowerCase. reflexivity.
  - reflexivity.
Qed.

Lemma status_case_is_ignored_witness :
  checkPaymentStatus "https://api" paidAnswer "pay_1"
  = checkPaymentStatus "https://api"
      (fun _ => Json (BodyObject (Str "PAID") DataUndefined)) "pay_1".
Proof.
  apply (status_case_is_ignored "https://api" _ paidAnswer "pay_1" "PAID"
           DataUndefined); reflexivity.
Defined.

End AsaasExtra.

(** ** Rank progress ([Dashboard]) *)

Module DashboardExtra.

Import Dashboard.

(** X24. For a user with no negative points the next rank has a positive
    threshold, so the progress is a number between 0 and 100; below the top
    threshold the next rank lies above the user's points and the progress
    stays under 100, from 50000 points on it is 100. *)
Theorem progress_is_a_percentage (points : Z) :
  (0 <= points)%Z ->
  exists r p,
    nextRank points = Some r
    /\ (0 < r.(minPoints))%Z
    /\ progressPercent points = Some p
    /\ 0 <= p /\ p <= 100
    /\ ((points < 50000)%Z -> (points < r.(minPoints))%Z /\ p < 100)
    /\ ((50000 <= points)%Z -> p == 100).
Proof.
  intros H0. unfold progressPercent, nextRank, RANKS. cbn [find minPoints].
  assert (F : (points <? 0)%Z = false) by (apply Z.ltb_ge; exact H0).
  rewrite F.
  repeat match goal with
         | |- context [(points <? ?k)%Z] =>
             destruct (Z.ltb_spec points k)
         end;
    cbn [nth_error length Nat.sub];
    (eexists; eexists; split; [reflexivity|]; cbn [minPoints Z.eqb];
     split; [lia|]; split; [reflexivity|]);
    unfold Math_min;
    match goal with
    | |- context [Qle_bool ?a ?b] =>
        destruct (Qle_bool a b) eqn:E;
        [apply Qle_bool_iff in E
        |assert (E' : ~ a <= b) by (rewrite <- Qle_bool_iff, E; discriminate)]
    end;
    unfold Qle, Qlt, Qeq in *; cbn in *;
    repeat split; try lia.
Qed.

Lemma progress_is_a_percentage_witness :
  exists r p,
    nextRank 500 = Some r
    /\ (0 < r.(minPoints))%Z
    /\ progressPercent 500 = Some p
    /\ 0 <= p /\ p <= 100
    /\ ((500 < 50000)%Z -> (500 < r.(minPoints))%Z /\ p < 100)
    /\ ((50000 <= 500)%Z -> p == 100).
Proof.
  apply (progress_is_a_percentage 500). lia.
Defined.

End DashboardExtra.
